(** * Pkartor Converter: the conversion worker and the main window

    A shallow embedding of [src/app.py]: the worker thread
    [ConverterThread.run], which follows an ffmpeg child process through its
    two output streams, and the slots and methods of [MainWindow] that
    choose destination names, start workers and keep the conversion log.
    A second part embeds the methods that fill the queue from the file
    dialog and from drops, and the loading of the settings.

    Conventions.
    - A Python [str] is a [string]; the characters are the code points below
      256, among which the regular-expression class [\d] is exactly
      ['0'..'9'].
    - A Python [int] is a [Z].
    - A Python [float] is an IEEE 754 binary64 number.  Every float of this
      program is non-negative and far below the overflow threshold
      ([floats_below_overflow]), so a float is modelled by the rational it
      denotes, and each arithmetic operation rounds the exact result to the
      nearest binary64 value, ties to even ([fround]).  The rounding is
      proved to agree with the Standard Library's [SpecFloat] on the
      values of time stamps ([seconds_agreement], [percent_agreement]).
    - A dictionary is a [gmap]; the disk is a [gmap] from paths to file
      contents.
    - Code that can raise returns in the monad [Py], which carries the
      signals emitted and the lines printed so far. *)

From Stdlib Require Import ZArith QArith Qround Qabs Qpower Lqa Lia.
From Stdlib Require Import String Ascii List Sorted SpecFloat.
From stdpp Require Import gmap strings list pretty.

Local Open Scope Z_scope.

(** ** Python floats *)

(** Precision and least exponent of binary64: 53 significant bits, and
    [2^-1074] is the smallest positive (subnormal) value. *)
Definition prec : Z := 53.
Definition emin : Z := -1074.

Definition pow2 (e : Z) : Q := (2 ^ e)%Q.

(** [ilog2 q] is the integer part of the binary logarithm of a positive
    rational: the quotient of the bit lengths, adjusted by one comparison. *)
Definition ilog2 (q : Q) : Z :=
  let k := Z.log2 (Qnum q) - Z.log2 (Z.pos (Qden q)) in
  if Qle_bool (pow2 k) q then k else k - 1.

(** Nearest integer, ties to the even one. *)
Definition round_half_even (x : Q) : Z :=
  let f := Qfloor x in
  match (x - inject_Z f ?= 1 # 2)%Q with
  | Lt => f
  | Gt => f + 1
  | Eq => if Z.even f then f else f + 1
  end.

(** The exponent of the unit in the last place of the binade of [x]. *)
Definition fexp (x : Q) : Z := Z.max (ilog2 (Qabs x) - (prec - 1)) emin.

(** Rounding to binary64: the significand is rounded at the exponent of
    the binade.  The result is kept in lowest terms. *)
Definition fround (x : Q) : Q :=
  if Qeq_bool x 0 then 0%Q
  else Qred (inject_Z (round_half_even (x / pow2 (fexp x))) * pow2 (fexp x)).

(** [float(n)] for an [int], and the arithmetic of line 76 and line 88. *)
Definition float_of_int (n : Z) : Q := fround (inject_Z n).
Definition float_add (x y : Q) : Q := fround (x + y).
Definition float_mul (x y : Q) : Q := fround (x * y).

(** [int(x)] truncates towards zero. *)
Definition int_of_float (x : Q) : Z :=
  if Qle_bool 0 x then Qfloor x else Qceiling x.

(** Truth value of [duration] in [if duration:] (line 79): [None] and
    [0.0] are false. *)
Definition truthy (d : option Q) : bool :=
  match d with
  | None => false
  | Some x => negb (Qeq_bool x 0)
  end.

(** The same operations in the Standard Library's specification of
    IEEE 754 arithmetic, at the binary64 parameters; used to validate
    [fround] on the values that occur in the examples. *)
Definition b64_of_Z (n : Z) : spec_float := binary_normalize 53 1024 n 0 false.
Definition b64_div : spec_float -> spec_float -> spec_float := SFdiv 53 1024.
Definition b64_mul : spec_float -> spec_float -> spec_float := SFmul 53 1024.
Definition b64_add : spec_float -> spec_float -> spec_float := SFadd 53 1024.
Definition b64_value (f : spec_float) : Q :=
  match f with
  | S754_finite s m e =>
      ((if s then - inject_Z (Z.pos m) else inject_Z (Z.pos m)) * pow2 e)%Q
  | _ => 0%Q
  end.

Definition b64_seconds (h m s f : Z) : spec_float :=
  b64_add (b64_of_Z (h * 3600 + m * 60))
          (b64_div (b64_of_Z (s * 100 + f)) (b64_of_Z 100)).

Definition b64_percent (t d : spec_float) : spec_float :=
  b64_mul (b64_div t d) (b64_of_Z 100).

(** The exponent of a binary64 number with [k] significant digits above
    the unit, and the position of a real number between an integer and
    its successor, as [SpecFloat] records it. *)
Definition sfexp (k : Z) : Z := SpecFloat.fexp 53 1024 k.

Definition located (m : Z) (l : location) (X : Q) : Prop :=
  match l with
  | loc_Exact => (X == inject_Z m)%Q
  | loc_Inexact Lt => (inject_Z m < X /\ X < inject_Z m + (1 # 2))%Q
  | loc_Inexact Eq => (X == inject_Z m + (1 # 2))%Q
  | loc_Inexact Gt => (inject_Z m + (1 # 2) < X /\ X < inject_Z m + 1)%Q
  end.

(** A float that is zero or positive, finite and in canonical form. *)
Definition good (f : spec_float) : Prop :=
  f = S754_zero false \/
  exists m e, f = S754_finite false m e /\ canonical_mantissa 53 1024 m e = true.

(** ** Python strings *)

(** Value of a decimal digit, [None] for any other character. *)
Definition digit (c : ascii) : option Z :=
  let n := Z.of_N (N_of_ascii c) in
  if (48 <=? n) && (n <=? 57) then Some (n - 48) else None.

Definition is_digit (c : ascii) : bool :=
  match digit c with Some _ => true | None => false end.

(** Value of a string of decimal digits read after the prefix of value
    [acc]; [None] when a character is not a digit. *)
Fixpoint digits_value (acc : Z) (s : string) : option Z :=
  match s with
  | "" => Some acc
  | String c s' =>
      match digit c with
      | Some d => digits_value (10 * acc + d) s'
      | None => None
      end
  end.

(** [s.rsplit(sep, 1)[0]]: what stands before the last [sep], and all of
    [s] when [sep] does not occur.  [rsplit1_head] is [None] in the latter
    case. *)
Fixpoint rsplit1_head (sep : ascii) (s : string) : option string :=
  match s with
  | "" => None
  | String c s' =>
      match rsplit1_head sep s' with
      | Some h => Some (String c h)
      | None => if Ascii.eqb c sep then Some "" else None
      end
  end.

Definition rsplit1 (sep : ascii) (s : string) : string :=
  match rsplit1_head sep s with Some h => h | None => s end.

(** [s.lstrip(c)] for a single character [c]. *)
Fixpoint lstrip (c : ascii) (s : string) : string :=
  match s with
  | String a s' => if Ascii.eqb a c then lstrip c s' else s
  | "" => ""
  end.

(** [s.partition(sep)]: the parts before and after the first [sep]; the
    second part is empty when [sep] does not occur. *)
Fixpoint partition (sep : ascii) (s : string) : string * string :=
  match s with
  | "" => ("", "")
  | String c s' =>
      if Ascii.eqb c sep then ("", s')
      else let '(a, b) := partition sep s' in (String c a, b)
  end.

(** [s.endswith(suffix)]. *)
Definition endswith (s suffix : string) : bool :=
  let n := String.length s in
  let k := String.length suffix in
  (k <=? n)%nat && String.eqb (substring (n - k) k s) suffix.

(** ** Exceptions, signals and the monad of a running method *)

Inductive exn : Type :=
  | ValueError
  | ZeroDivisionError
  | UnsupportedOS (current_os : string).

(** The three signals of [ConverterThread] (lines 40-42). *)
Inductive signal : Type :=
  | progress_updated (filename : string) (progress : Z)
  | conversion_finished (input_file output_file : string)
  | status_updated (filename status : string).

(** What a method has emitted and printed so far. *)
Record Out : Type := mkOut { signals : list signal; console : list string }.

Definition Py (A : Type) : Type := Out -> Out * (exn + A).

#[export] Instance Py_ret : MRet Py := fun A x o => (o, inr x).
#[export] Instance Py_bind : MBind Py := fun A B f m o =>
  match m o with
  | (o', inr x) => f x o'
  | (o', inl e) => (o', inl e)
  end.

Definition raise {A : Type} (e : exn) : Py A := fun o => (o, inl e).

Definition emit (s : signal) : Py unit := fun o =>
  (mkOut (signals o ++ [s]) (console o), inr tt).

Definition print (s : string) : Py unit := fun o =>
  (mkOut (signals o) (console o ++ [s]), inr tt).

Definition start : Out := mkOut [] [].

(** [int(s)] and [float(s)] on unsigned decimal literals, the only
    strings this program converts; anything else is a [ValueError]. *)
Definition py_int (s : string) : Py Z :=
  match s, digits_value 0 s with
  | String _ _, Some n => mret n
  | _, _ => raise ValueError
  end.

Definition py_float (s : string) : Py Q :=
  let '(i, f) := partition "." s in
  match i +:+ f, digits_value 0 (i +:+ f) with
  | String _ _, Some n =>
      mret (fround (inject_Z n / inject_Z (10 ^ Z.of_nat (String.length f))))
  | _, _ => raise ValueError
  end.

(** [x / y] on floats. *)
Definition float_div (x y : Q) : Py Q :=
  if Qeq_bool y 0 then raise ZeroDivisionError else mret (fround (x / y)).

(** ** The two regular expressions *)

(** [strip_prefix lit s] is the rest of [s] after the literal [lit]. *)
Fixpoint strip_prefix (lit s : string) : option string :=
  match lit, s with
  | "", _ => Some s
  | String a lit', String b s' =>
      if Ascii.eqb a b then strip_prefix lit' s' else None
  | String _ _, "" => None
  end.

(** [\d{2}] *)
Definition two_digits (s : string) : option (string * string) :=
  match s with
  | String a (String b rest) =>
      if is_digit a && is_digit b then Some (String a (String b ""), rest)
      else None
  | _ => None
  end.

(** [(\d{2}):(\d{2}):(\d{2}\.\d{2})] at the head of [s]: the three groups. *)
Definition match_timestamp (s : string) : option (string * string * string) :=
  '(g1, s) ← two_digits s;
  s ← strip_prefix ":" s;
  '(g2, s) ← two_digits s;
  s ← strip_prefix ":" s;
  '(a, s) ← two_digits s;
  s ← strip_prefix "." s;
  '(b, _) ← two_digits s;
  Some (g1, g2, a +:+ "." +:+ b).

Definition match_here (key s : string) : option (string * string * string) :=
  s' ← strip_prefix key s; match_timestamp s'.

(** [re.search(key + r"(\d{2}):(\d{2}):(\d{2}\.\d{2})", line)]: the groups
    of the leftmost match. *)
Fixpoint re_search (key line : string) : option (string * string * string) :=
  match match_here key line with
  | Some g => Some g
  | None =>
      match line with
      | "" => None
      | String _ rest => re_search key rest
      end
  end.

Definition duration_key : string := "Duration: ".
Definition out_time_key : string := "out_time=".

(** ** The worker thread *)

(** The child process as the worker sees it: the lines it writes on its
    two streams until it exits, and its exit code.  [Popen]'s arguments
    (lines 52-66) have no part in what follows. *)
Record Process : Type := mkProcess {
  stderr : list string;
  stdout : list string;
  returncode : Z
}.

Module ConverterThread.

Record t : Type := mk {
  input_file : string;
  output_file : string;
  ffmpeg_path : option string
}.

(** Lines 73-76 and again lines 84-87: the groups of a match, as seconds. *)
Definition seconds_of (g : string * string * string) : Py Q :=
  let '(g1, g2, g3) := g in
  hours ← py_int g1;
  minutes ← py_int g2;
  seconds ← py_float g3;
  mret (float_add (float_of_int (hours * 3600 + minutes * 60)) seconds).

(** Lines 68-77: the loop over [process.stderr], left by [break] at the
    first match.  The result is [duration] and the lines of the stream
    that were not read. *)
Fixpoint read_duration (lines : list string) : Py (option Q * list string) :=
  match lines with
  | [] => mret (None, [])
  | line :: rest =>
      match re_search duration_key line with
      | Some g => duration ← seconds_of g; mret (Some duration, rest)
      | None => read_duration rest
      end
  end.

(** Line 88. *)
Definition progress_of (current_time duration : Q) : Py Z :=
  ratio ← float_div current_time duration;
  mret (Z.min 99 (int_of_float (float_mul ratio (float_of_int 100)))).

(** Lines 81-89: the loop over [process.stdout]. *)
Fixpoint report_progress (self : t) (duration : Q) (lines : list string)
    : Py unit :=
  match lines with
  | [] => mret tt
  | line :: rest =>
      match re_search out_time_key line with
      | Some g =>
          current_time ← seconds_of g;
          progress ← progress_of current_time duration;
          emit (progress_updated (input_file self) progress)
      | None => mret tt
      end;;
      report_progress self duration rest
  end.

(** Lines 91-98: after [process.wait()]. *)
Definition finish (self : t) (returncode : Z) : Py unit :=
  if returncode =? 0 then
    emit (progress_updated (input_file self) 100);;
    emit (status_updated (input_file self) "Completed");;
    emit (conversion_finished (input_file self) (output_file self))
  else
    emit (status_updated (input_file self) "Error");;
    print ("Error converting " +:+ input_file self).

(** Lines 51-89: the job while the child runs. *)
Definition running (self : t) (process : Process) : Py unit :=
  emit (status_updated (input_file self) "Starting conversion...");;
  '(duration, _) ← read_duration (stderr process);
  match duration with
  | Some d =>
      if truthy duration then
        emit (status_updated (input_file self) "Converting...");;
        report_progress self d (stdout process)
      else mret tt
  | None => mret tt
  end.

Definition run (self : t) (process : Process) : Py unit :=
  running self process;;
  finish self (returncode process).

End ConverterThread.

(** ** The main window *)

Module MainWindow.

(** A progress frame (lines 17-37): the bar and the status label, the
    two widgets the slots write. *)
Record ConversionProgress : Type := mkFrame {
  progress_bar : Z;
  status_label : string
}.

Record QComboBox : Type := mkCombo {
  items : list string;
  currentIndex : Z
}.

(** [QComboBox.currentText()]: empty when there is no current item. *)
Definition currentText (c : QComboBox) : string :=
  if currentIndex c <? 0 then ""
  else default "" (items c !! Z.to_nat (currentIndex c)).

Definition clear (c : QComboBox) : QComboBox := mkCombo [] (-1).

Inductive dialog : Type :=
  | warning (title text : string)
  | critical (title text : string).

(** The window, followed by the parts of its environment that its
    methods read or change: the disk, the workers started so far, the
    message boxes shown and the lines printed. *)
Record t : Type := mk {
  list_widget : list string;
  input_combo_box : QComboBox;
  output_combo_box : QComboBox;
  progress_frames : gmap string ConversionProgress;
  converter_threads : gmap string ConverterThread.t;
  ffmpeg_path : option string;
  log_file : string;
  disk : gmap string string;
  started : list ConverterThread.t;
  dialogs : list dialog;
  printed : list string
}.

(** Lines 195-207.  [bundled] is
    [os.path.join(os.getcwd(), "ffmpeg", "ffmpeg.exe")]. *)
Definition get_ffmpeg_path (current_os bundled : string)
    (disk : gmap string string) : exn + option string :=
  if decide (current_os = "Windows") then
    if decide (is_Some (disk !! bundled)) then inr (Some bundled)
    else inr None
  else if decide (current_os = "Linux" ∨ current_os = "Darwin") then
    inr (Some "ffmpeg")
  else inl (UnsupportedOS current_os).

(** Lines 209-215. *)
Definition update_progress (filename : string) (progress : Z) (self : t) : t :=
  match progress_frames self !! filename with
  | Some frame =>
      mk (list_widget self) (input_combo_box self) (output_combo_box self)
         (<[filename := mkFrame progress (status_label frame)]>
            (progress_frames self))
         (converter_threads self) (ffmpeg_path self) (log_file self)
         (disk self) (started self) (dialogs self) (printed self)
  | None => self
  end.

Definition update_status (filename status : string) (self : t) : t :=
  match progress_frames self !! filename with
  | Some frame =>
      mk (list_widget self) (input_combo_box self) (output_combo_box self)
         (<[filename := mkFrame (progress_bar frame) status]>
            (progress_frames self))
         (converter_threads self) (ffmpeg_path self) (log_file self)
         (disk self) (started self) (dialogs self) (printed self)
  | None => self
  end.

(** The [n]-th name tried by the loop of lines 254-256. *)
Definition candidate (base_output_file output_ext : string) (counter : Z)
    : string :=
  rsplit1 "." base_output_file +:+ "_" +:+ pretty counter +:+ "."
    +:+ lstrip "." output_ext.

(** Lines 254-256, [os.path.exists] read off the disk.  [fuel] bounds
    the number of names tried. *)
Fixpoint free_name (fuel : nat) (disk : gmap string string)
    (base_output_file output_ext output_file : string) (counter : Z)
    : option string :=
  if decide (is_Some (disk !! output_file)) then
    match fuel with
    | O => None
    | S fuel' =>
        free_name fuel' disk base_output_file output_ext
          (candidate base_output_file output_ext counter) (counter + 1)
    end
  else Some output_file.

(** Lines 251-256: the destination of a conversion.  A disk of [n]
    files cannot hold all of [n + 1] distinct names. *)
Definition destination (disk : gmap string string)
    (input_file output_ext : string) : option string :=
  let output_file := rsplit1 "." input_file +:+ output_ext in
  free_name (S (size disk)) disk output_file output_ext output_file 1.

(** Lines 250-271.  Starting the worker does not by itself spawn the
    child or create the destination: the worker does, in its own time. *)
Definition convert_file (input_file output_ext : string) (self : t)
    : option t :=
  output_file ← destination (disk self) input_file output_ext;
  let progress_frame := mkFrame 0 "Waiting..." in
  let converter_thread :=
    ConverterThread.mk input_file output_file (ffmpeg_path self) in
  Some (mk (list_widget self) (input_combo_box self) (output_combo_box self)
           (<[input_file := progress_frame]> (progress_frames self))
           (<[input_file := converter_thread]> (converter_threads self))
           (ffmpeg_path self) (log_file self) (disk self)
           (started self ++ [converter_thread]) (dialogs self)
           (printed self)).

Definition show (d : dialog) (self : t) : t :=
  mk (list_widget self) (input_combo_box self) (output_combo_box self)
     (progress_frames self) (converter_threads self) (ffmpeg_path self)
     (log_file self) (disk self) (started self) (dialogs self ++ [d])
     (printed self).

(** [self.list_widget.takeItem(index)]. *)
Definition takeItem (index : nat) (self : t) : t :=
  mk (delete index (list_widget self)) (input_combo_box self)
     (output_combo_box self) (progress_frames self) (converter_threads self)
     (ffmpeg_path self) (log_file self) (disk self) (started self)
     (dialogs self) (printed self).

Definition clear_input_combo_box (self : t) : t :=
  mk (list_widget self) (clear (input_combo_box self))
     (output_combo_box self) (progress_frames self) (converter_threads self)
     (ffmpeg_path self) (log_file self) (disk self) (started self)
     (dialogs self) (printed self).

(** Lines 290-294. *)
Definition items_to_remove (input_ext : string) (queue : list string)
    : list (nat * string) :=
  filter (fun it => endswith (snd it) input_ext = true) (imap pair queue).

(** Lines 297-299, the items taken in the given order. *)
Fixpoint convert_items (its : list (nat * string)) (output_ext : string)
    (self : t) : option t :=
  match its with
  | [] => Some self
  | (index, input_file) :: rest =>
      self ← convert_file input_file output_ext self;
      convert_items rest output_ext (takeItem index self)
  end.

(** Lines 273-303. *)
Definition handle_convert (self : t) : option t :=
  let output_ext := currentText (output_combo_box self) in
  let input_ext := currentText (input_combo_box self) in
  if decide (output_ext = "") then
    Some (show (warning "Output Format" "Please select an output format!")
               self)
  else if decide (input_ext = "") then
    Some (show (warning "Input Format" "Please select an input format!")
               self)
  else
    match ffmpeg_path self with
    | None =>
        Some (show (critical "FFmpeg Error"
                      "FFmpeg is not available, conversion failed.") self)
    | Some _ =>
        self ← convert_items
                 (reverse (items_to_remove input_ext (list_widget self)))
                 output_ext self;
        Some (if decide (list_widget self = []) then
                clear_input_combo_box self
              else self)
    end.

(** Lines 331-336; [now] is [datetime.now()] as printed.  The file is
    opened for appending, which creates it when it is missing. *)
Definition on_conversion_finished (now input_file output_file : string)
    (self : t) : t :=
  let line := now +:+ ": " +:+ input_file +:+ " -> " +:+ output_file
                  +:+ String "010" "" in
  mk (list_widget self) (input_combo_box self) (output_combo_box self)
     (progress_frames self) (converter_threads self) (ffmpeg_path self)
     (log_file self)
     (<[log_file self := default "" (disk self !! log_file self) +:+ line]>
        (disk self))
     (started self) (dialogs self)
     (printed self ++
        ["Conversion finished: " +:+ input_file +:+ " -> " +:+ output_file]).

(** Lines 338-346. *)
Definition on_thread_finished (input_file : string) (self : t) : t :=
  mk (list_widget self) (input_combo_box self) (output_combo_box self)
     (delete input_file (progress_frames self))
     (delete input_file (converter_threads self))
     (ffmpeg_path self) (log_file self) (disk self) (started self)
     (dialogs self) (printed self).

(** The connections made in lines 265-267: the slot run for a signal.
    [now] is the clock's reading when the slot runs. *)
Definition deliver (now : string) (s : signal) (self : t) : t :=
  match s with
  | progress_updated filename progress =>
      update_progress filename progress self
  | status_updated filename status => update_status filename status self
  | conversion_finished input_file output_file =>
      on_conversion_finished now input_file output_file self
  end.

(** The signals of one worker reach the window in the order of their
    emission; the [i]-th of them is handled at time [clock i]. *)
Fixpoint deliver_all (clock : nat -> string) (i : nat) (ss : list signal)
    (self : t) : t :=
  match ss with
  | [] => self
  | s :: rest => deliver_all clock (S i) rest (deliver (clock i) s self)
  end.

(** A whole job as the window lives it: the slots for the worker's
    signals, then [on_thread_finished] (line 268) when [run] returns.
    An exception that escapes [run] ends the application. *)
Definition job (clock : nat -> string) (thread : ConverterThread.t)
    (process : Process) (self : t) : exn + t :=
  match ConverterThread.run thread process start with
  | (out, inr _) =>
      inr (on_thread_finished (ConverterThread.input_file thread)
             (deliver_all clock 0 (signals out) self))
  | (_, inl e) => inl e
  end.

End MainWindow.

(** ** The vocabulary of the specification *)

(** A two-digit field [HH], [MM], [SS] or [ff], and a whole time stamp
    [HH:MM:SS.ff]. *)
Definition digit_char (n : Z) : ascii := ascii_of_N (Z.to_N (48 + n)).

Definition dd (n : Z) : string :=
  String (digit_char (n / 10)) (String (digit_char (n mod 10)) "").

Definition timestamp (h m s f : Z) : string :=
  dd h +:+ ":" +:+ dd m +:+ ":" +:+ dd s +:+ "." +:+ dd f.

(** [hours*3600 + minutes*60 + float("SS.ff")], as Python evaluates it. *)
Definition hms_seconds (h m s f : Z) : Q :=
  float_add (float_of_int (h * 3600 + m * 60))
            (fround (inject_Z (s * 100 + f) / inject_Z 100)).

(** [hours*3600 + minutes*60 + SS.ff] in exact arithmetic. *)
Definition exact_seconds (h m s f : Z) : Q :=
  (inject_Z (h * 3600 + m * 60) + inject_Z (s * 100 + f) / inject_Z 100)%Q.

(** The fields are below 100, and the three groups of a match. *)
Definition in_range (h m s f : Z) : Prop :=
  0 <= h < 100 /\ 0 <= m < 100 /\ 0 <= s < 100 /\ 0 <= f < 100.

Definition groups (h m s f : Z) : string * string * string :=
  (dd h, dd m, dd s +:+ "." +:+ dd f).

(** The line [line] carries [key] and a time stamp right after the prefix
    [pre]. *)
Definition occurs (key line pre : string) (h m s f : Z) : Prop :=
  in_range h m s f /\
  exists post, line = pre +:+ key +:+ timestamp h m s f +:+ post.

Definition matches (key line : string) : Prop :=
  exists pre h m s f, occurs key line pre h m s f.

(** The progress parser of the specification: what the two loops extract
    from one line (lines 71-76 for [duration_key], lines 82-87 for
    [out_time_key]). *)
Definition time_of_line (key line : string) : Py (option Q) :=
  match re_search key line with
  | Some g => t ← ConverterThread.seconds_of g; mret (Some t)
  | None => mret None
  end.

Definition seconds_in (key line : string) : option Q :=
  match time_of_line key line start with
  | (_, inr t) => t
  | (_, inl _) => None
  end.

(** The [CurrentTime] values of the progress stream, in order. *)
Definition current_times (lines : list string) : list Q :=
  omap (seconds_in out_time_key) lines.

(** No occurrence of [key] and a time stamp starts further left. *)
Definition leftmost (key line pre : string) (h m s f : Z) : Prop :=
  occurs key line pre h m s f /\
  forall pre' h' m' s' f',
    occurs key line pre' h' m' s' f' ->
    (String.length pre <= String.length pre')%nat.

(** First match wins: the duration of the first diagnostic line that
    carries one, and the lines after it. *)
Fixpoint first_duration (lines : list string) : option Q * list string :=
  match lines with
  | [] => (None, [])
  | line :: rest =>
      match seconds_in duration_key line with
      | Some d => (Some d, rest)
      | None => first_duration rest
      end
  end.

(** [min(99, floor(current_time / duration * 100))], in binary64. *)
Definition progress_formula (current_time duration : Q) : Z :=
  Z.min 99
    (Qfloor (float_mul (fround (current_time / duration)) (float_of_int 100))).

(** The signals of the terminal transition. *)
Definition terminal_signals (self : ConverterThread.t) (returncode : Z)
    : list signal :=
  if returncode =? 0 then
    [progress_updated (ConverterThread.input_file self) 100;
     status_updated (ConverterThread.input_file self) "Completed";
     conversion_finished (ConverterThread.input_file self)
                         (ConverterThread.output_file self)]
  else [status_updated (ConverterThread.input_file self) "Error"].

(** The signals of a job while it is Running, for the duration read from
    the diagnostic stream. *)
Definition running_signals (self : ConverterThread.t) (duration : option Q)
    (lines : list string) : list signal :=
  status_updated (ConverterThread.input_file self) "Starting conversion..." ::
  match duration with
  | Some d =>
      if truthy duration then
        status_updated (ConverterThread.input_file self) "Converting..." ::
        map (fun t => progress_updated (ConverterThread.input_file self)
                                       (progress_formula t d))
            (current_times lines)
      else []
  | None => []
  end.

(** What the terminal transition prints (line 98). *)
Definition terminal_console (self : ConverterThread.t) (returncode : Z)
    : list string :=
  if returncode =? 0 then []
  else ["Error converting " +:+ ConverterThread.input_file self].

Definition progress_values (ss : list signal) : list Z :=
  omap (fun s => match s with
                 | progress_updated _ v => Some v
                 | _ => None
                 end) ss.

Definition completions (ss : list signal) : list (string * string) :=
  omap (fun s => match s with
                 | conversion_finished i o => Some (i, o)
                 | _ => None
                 end) ss.

(** The line that [on_conversion_finished] writes. *)
Definition log_line (now input_file output_file : string) : string :=
  now +:+ ": " +:+ input_file +:+ " -> " +:+ output_file +:+ String "010" "".

(** [c in s]. *)
Fixpoint contains (c : ascii) (s : string) : bool :=
  match s with
  | "" => false
  | String a s' => Ascii.eqb a c || contains c s'
  end.

(** The names [name.ext], [name_1.ext], [name_2.ext], ... *)
Definition numbered (stem ext : string) (k : Z) : string :=
  if k =? 0 then stem +:+ "." +:+ ext
  else stem +:+ "_" +:+ pretty k +:+ "." +:+ ext.

(** ** A sample job

    A source of two minutes; the child reports progress at 0, 60, 119 and
    120 seconds. *)
Definition sample_thread : ConverterThread.t :=
  ConverterThread.mk "foo.mp4" "foo.mkv" (Some "ffmpeg").

Definition input_line : string :=
  "Input #0, mov,mp4,m4a,3gp,3g2,mj2, from 'foo.mp4':".
Definition duration_line : string :=
  "  Duration: 00:02:00.00, start: 0.000000, bitrate: 1205 kb/s".
Definition later_line : string :=
  "  Duration: 00:09:00.00, start: 0.000000, bitrate: 1205 kb/s".

Definition sample_stderr : list string :=
  [input_line; duration_line; later_line].

Definition sample_stdout : list string :=
  ["frame=1"; "out_time=00:00:00.000000"; "progress=continue";
   "out_time=00:01:00.000000"; "out_time=00:01:59.000000";
   "out_time=00:02:00.000000"; "progress=end"].

Definition sample_process (returncode : Z) : Process :=
  mkProcess sample_stderr sample_stdout returncode.

(** ** Two windows

    The window right after start-up on a system without the tool: nothing
    queued, nothing selected. *)
Definition startup_window : MainWindow.t :=
  MainWindow.mk [] (MainWindow.mkCombo [] (-1)) (MainWindow.mkCombo [] (-1))
    ∅ ∅ None "logs/2024-05-01.log" ∅ [] [] [].

(** A window with the same source queued twice, while [foo.mkv] exists. *)
Definition resubmitted_window : MainWindow.t :=
  MainWindow.mk ["foo.mp4"; "foo.mp4"] (MainWindow.mkCombo [".mp4"] 0)
    (MainWindow.mkCombo [".mkv"; ".avi"] 0) ∅ ∅ (Some "ffmpeg")
    "logs/2024-05-01.log" {["foo.mp4" := "source"; "foo.mkv" := "earlier"]}
    [] [] [].

(** ** Files on their way into the queue

    The methods of [MainWindow] that fill the queue and the two format
    selectors (lines 176-193, 221-248 and 305-329).
    [self.media_formats] and [self.supported_extensions]
    are written once, by [__init__] (lines 167-169), and read afterwards:
    they travel in a record of their own, [Settings].

    Conventions.
    - [settings.json] holds what the program expects wherever it holds
      anything: a format is a dictionary whose values are lists of
      strings.  A key may be missing, which is a [KeyError].
    - A [dict] read from JSON is walked in the order of the file: a list
      of pairs.
    - [QComboBox] makes the first item inserted into an empty box the
      current one and leaves the current index alone otherwise. *)

(** [s.lower()] on the code points below 256: the capitals are [A]-[Z]
    and the letters from 192 to 222 but the sign at 215. *)
Definition lower_char (c : ascii) : ascii :=
  let n := N_of_ascii c in
  if ((65 <=? n) && (n <=? 90)
      || (192 <=? n) && (n <=? 222) && negb (n =? 215))%N
  then ascii_of_N (n + 32) else c.

Fixpoint lower (s : string) : string :=
  match s with
  | "" => ""
  | String c s' => String (lower_char c) (lower s')
  end.

(** [s.split(sep)] for a single character [sep]: never an empty list. *)
Fixpoint split (sep : ascii) (s : string) : list string :=
  match s with
  | "" => [""]
  | String c s' =>
      if Ascii.eqb c sep then "" :: split sep s'
      else match split sep s' with
           | h :: t => String c h :: t
           | [] => [String c ""]
           end
  end.

(** [f".{file_path.split('.')[-1].lower()}"] (lines 226, 235, 240, 319). *)
Definition file_ext (file_path : string) : string :=
  "." +:+ lower (default "" (last (split "." file_path))).

Inductive key_error : Type := KeyError (key : string).

Definition format_data : Type := gmap string (list string).

(** [self.media_formats] and [self.supported_extensions]. *)
Record Settings : Type := mkSettings {
  media_formats : list (string * format_data);
  supported_extensions : gset string
}.

(** Lines 186-193.  [loaded] is what lines 188-189 come to: the
    dictionary read from [settings.json], or the text of the exception
    that [open] or [json.load] raised.  The result is the dictionary of
    formats and what was printed. *)
Definition load_media_formats
    (loaded : string + gmap string (list (string * format_data)))
    : list (string * format_data) * list string :=
  match loaded with
  | inr data => (default [] (data !! "media_formats"), [])
  | inl e => ([], ["Error loading settings: " +:+ e])
  end.

(** Lines 176-179, from the set that [self.supported_extensions] holds
    when the method is called. *)
Fixpoint load_supported_extensions (formats : list (string * format_data))
    (supported : gset string) : key_error + gset string :=
  match formats with
  | [] => inr supported
  | (_, data) :: rest =>
      match data !! "extensions" with
      | Some extensions =>
          load_supported_extensions rest (supported ∪ list_to_set extensions)
      | None => inl (KeyError "extensions")
      end
  end.

Module Intake.

Import MainWindow.

(** [QComboBox.addItem] and [QComboBox.addItems]. *)
Definition addItem (text : string) (c : QComboBox) : QComboBox :=
  mkCombo (items c ++ [text])
          (if decide (items c = []) then 0 else currentIndex c).

Definition addItems (texts : list string) (c : QComboBox) : QComboBox :=
  if decide (texts = []) then c
  else mkCombo (items c ++ texts)
               (if decide (items c = []) then 0 else currentIndex c).

Definition set_list_widget (queue : list string) (self : t) : t :=
  mk queue (input_combo_box self) (output_combo_box self)
     (progress_frames self) (converter_threads self) (ffmpeg_path self)
     (log_file self) (disk self) (started self) (dialogs self) (printed self).

Definition set_input_combo_box (c : QComboBox) (self : t) : t :=
  mk (list_widget self) c (output_combo_box self) (progress_frames self)
     (converter_threads self) (ffmpeg_path self) (log_file self) (disk self)
     (started self) (dialogs self) (printed self).

Definition set_output_combo_box (c : QComboBox) (self : t) : t :=
  mk (list_widget self) (input_combo_box self) c (progress_frames self)
     (converter_threads self) (ffmpeg_path self) (log_file self) (disk self)
     (started self) (dialogs self) (printed self).

(** [print(line)] from a method of the window. *)
Definition say (line : string) (self : t) : t :=
  mk (list_widget self) (input_combo_box self) (output_combo_box self)
     (progress_frames self) (converter_threads self) (ffmpeg_path self)
     (log_file self) (disk self) (started self) (dialogs self)
     (printed self ++ [line]).

(** Lines 234-237. *)
Definition update_input_combo_box (input_file : string) (self : t) : t :=
  let input_extension := file_ext input_file in
  if decide (input_extension ∈ items (input_combo_box self)) then self
  else set_input_combo_box (addItem input_extension (input_combo_box self))
                           self.

(** Lines 243-245: the loop over the formats. *)
Fixpoint add_convertible (input_extension : string)
    (formats : list (string * format_data)) (c : QComboBox)
    : key_error + QComboBox :=
  match formats with
  | [] => inr c
  | (_, data) :: rest =>
      match data !! "extensions" with
      | None => inl (KeyError "extensions")
      | Some extensions =>
          if decide (input_extension ∈ extensions) then
            match data !! "convertible_to" with
            | None => inl (KeyError "convertible_to")
            | Some targets =>
                add_convertible input_extension rest (addItems targets c)
            end
          else add_convertible input_extension rest c
      end
  end.

(** Lines 239-248. *)
Definition update_output_combo_box (formats : list (string * format_data))
    (input_file : string) (self : t) : key_error + t :=
  let input_extension := file_ext input_file in
  match add_convertible input_extension formats
          (clear (output_combo_box self)) with
  | inl e => inl e
  | inr c =>
      inr (set_output_combo_box
             (if decide (items c = []) then addItem "No available formats" c
              else c)
             self)
  end.

(** A [for] loop whose body may raise. *)
Fixpoint for_each (body : string -> t -> key_error + t) (l : list string)
    (self : t) : key_error + t :=
  match l with
  | [] => inr self
  | x :: rest =>
      match body x self with
      | inl e => inl e
      | inr self => for_each body rest self
      end
  end.

(** Lines 227-230 and again lines 320-323: a file of a supported
    format joins the queue and the selectors follow. *)
Definition accept (s : Settings) (file : string) (self : t) : key_error + t :=
  update_output_combo_box (media_formats s) file
    (update_input_combo_box file
       (set_list_widget (list_widget self ++ [file]) self)).

(** The body of the two loops over files (lines 226-232 and 319-329):
    a file of a supported format is taken in, another one goes to
    [reject]. *)
Definition take (s : Settings) (reject : string -> t -> t) (file : string)
    (self : t) : key_error + t :=
  if decide (file_ext file ∈ supported_extensions s) then accept s file self
  else inr (reject file self).

(** Lines 221-232.  [urls] is [None] when the drop carries no URL, and
    otherwise each URL as [toLocalFile] gives it. *)
Definition dropEvent (s : Settings) (urls : option (list string)) (self : t)
    : key_error + t :=
  match urls with
  | None => inr self
  | Some urls =>
      for_each
        (take s (fun file_path =>
                   say ("File " +:+ file_path +:+ " is not supported")))
        urls self
  end.

(** Lines 305-329.  [selected] is [None] when the dialog is dismissed,
    and otherwise [selectedFiles()]. *)
Definition add_files (s : Settings) (selected : option (list string))
    (self : t) : key_error + t :=
  match selected with
  | None => inr self
  | Some files =>
      for_each
        (take s (fun file =>
                   show (warning "Unsupported Format"
                           ("The file format '" +:+ file_ext file
                            +:+ "' is not supported."))))
        files self
  end.

End Intake.

(** ** The vocabulary of the queue *)

(** Every format of the settings has its two keys. *)
Definition well_formed (formats : list (string * format_data)) : Prop :=
  Forall (fun f => is_Some (f.2 !! "extensions")
                   /\ is_Some (f.2 !! "convertible_to")) formats.

(** The formats on offer for an extension, in the order of the settings. *)
Definition targets (formats : list (string * format_data)) (ext : string)
    : list string :=
  flat_map (fun f => if decide (ext ∈ default [] (f.2 !! "extensions"))
                     then default [] (f.2 !! "convertible_to") else [])
           formats.

Definition supported (s : Settings) (file : string) : bool :=
  bool_decide (file_ext file ∈ supported_extensions s).

(** How the two ways in turn a file down (lines 232 and 325-329). *)
Definition unsupported_format (file : string) : MainWindow.dialog :=
  MainWindow.warning "Unsupported Format"
    ("The file format '" +:+ file_ext file +:+ "' is not supported.").

Definition not_supported (file_path : string) : string :=
  "File " +:+ file_path +:+ " is not supported".

(** The lines that the signals [ss] add to the log, the first of them
    handled at time [clock i]. *)
Fixpoint logged (clock : nat -> string) (i : nat) (ss : list signal) : string :=
  match ss with
  | [] => ""
  | conversion_finished input_file output_file :: rest =>
      log_line (clock i) input_file output_file +:+ logged clock (S i) rest
  | _ :: rest => logged clock (S i) rest
  end.

(** The signal is about the file [f]. *)
Definition about (f : string) (s : signal) : Prop :=
  match s with
  | progress_updated filename _ => filename = f
  | status_updated filename _ => filename = f
  | conversion_finished input_file _ => input_file = f
  end.

(** Settings with three families of formats; subtitles have no target. *)
Definition sample_formats : list (string * format_data) :=
  [("video", {["extensions" := [".mp4"; ".mkv"];
               "convertible_to" := [".mkv"; ".avi"]]});
   ("audio", {["extensions" := [".mp3"; ".wav"];
               "convertible_to" := [".ogg"]]});
   ("subtitle", {["extensions" := [".srt"]; "convertible_to" := []]})].

Definition sample_settings : Settings :=
  mkSettings sample_formats
    (list_to_set [".mp4"; ".mkv"; ".mp3"; ".wav"; ".srt"]).

(** A window on a system with the tool, nothing queued. *)
Definition empty_window : MainWindow.t :=
  MainWindow.mk [] (MainWindow.mkCombo [] (-1)) (MainWindow.mkCombo [] (-1))
    ∅ ∅ (Some "ffmpeg") "logs/2024-05-01.log" ∅ [] [] [].

(** [w'] has the jobs, the files and the tool of [w]. *)
Definition same_jobs (w w' : MainWindow.t) : Prop :=
  MainWindow.started w' = MainWindow.started w
  /\ MainWindow.progress_frames w' = MainWindow.progress_frames w
  /\ MainWindow.converter_threads w' = MainWindow.converter_threads w
  /\ MainWindow.disk w' = MainWindow.disk w
  /\ MainWindow.ffmpeg_path w' = MainWindow.ffmpeg_path w
  /\ MainWindow.log_file w' = MainWindow.log_file w.

(** What the output selector offers for a list of target formats. *)
Definition offer (l : list string) : list string :=
  match l with [] => ["No available formats"] | _ => l end.

(** The input selector once it has taken note of a file (lines 234-237). *)
Definition note_extension (c : MainWindow.QComboBox) (file : string)
    : MainWindow.QComboBox :=
  if decide (file_ext file ∈ MainWindow.items c) then c
  else Intake.addItem (file_ext file) c.

(** A format lists the extension and has no key ["convertible_to"]. *)
Definition lacks_targets (formats : list (string * format_data)) (ext : string)
    : Prop :=
  Exists (fun f => ext ∈ default [] (f.2 !! "extensions")
                   /\ f.2 !! "convertible_to" = None) formats.

(** The queue and the selectors of two windows are the same. *)
Definition same_queue (a b : MainWindow.t) : Prop :=
  MainWindow.list_widget a = MainWindow.list_widget b
  /\ MainWindow.input_combo_box a = MainWindow.input_combo_box b
  /\ MainWindow.output_combo_box a = MainWindow.output_combo_box b.

(** The input selector has no entry twice and lists the extension of
    every file of the queue. *)
Definition listed (w : MainWindow.t) : Prop :=
  NoDup (MainWindow.items (MainWindow.input_combo_box w))
  /\ forall f, f ∈ MainWindow.list_widget w ->
               file_ext f ∈ MainWindow.items (MainWindow.input_combo_box w).

(** The status texts of a list of signals. *)
Definition status_values (ss : list signal) : list string :=
  omap (fun s => match s with
                 | status_updated _ status => Some status
                 | _ => None
                 end) ss.

(** A window that follows the sample job. *)
Definition watching_window : MainWindow.t :=
  MainWindow.mk [] (MainWindow.mkCombo [] (-1)) (MainWindow.mkCombo [] (-1))
    {["foo.mp4" := MainWindow.mkFrame 0 "Waiting..."]}
    {["foo.mp4" := sample_thread]} (Some "ffmpeg") "logs/2024-05-01.log" ∅
    [sample_thread] [] [].

(** * Properties *)

(** ** Rounding to binary64 *)

(** Comparisons of integers, read in [Q]. *)
Ltac by_integers :=
  change 0%Q with (inject_Z 0); rewrite <- ?Zle_Qle, <- ?Zlt_Qlt; lia.

Section Rounding.

Local Open Scope Q_scope.

Lemma pow2_pos e : 0 < pow2 e.
Proof. apply Qpower_0_lt. reflexivity. Qed.

Lemma pow2_add a b : pow2 (a + b) == pow2 a * pow2 b.
Proof. apply Qpower_plus. discriminate. Qed.

Lemma pow2_le a b : (a <= b)%Z -> pow2 a <= pow2 b.
Proof. intros H. apply Qpower_le_compat_l; [exact H | discriminate]. Qed.

Lemma pow2_lt_inv a b : pow2 a < pow2 b -> (a < b)%Z.
Proof. intros H. apply (Qpower_lt_compat_l_inv 2); [exact H | reflexivity]. Qed.

Lemma pow2_inject k : (0 <= k)%Z -> pow2 k == inject_Z (2 ^ k).
Proof. intros H. unfold pow2. rewrite Zpower_Qpower by exact H. reflexivity. Qed.

Lemma pow2_succ a : pow2 (a + 1) == 2 * pow2 a.
Proof. rewrite pow2_add. unfold pow2 at 2. simpl. ring. Qed.


Lemma Q_as_fraction (q : Q) : q * inject_Z (Z.pos (Qden q)) == inject_Z (Qnum q).
Proof.
  destruct q as [n d]. unfold Qeq, Qmult, inject_Z. simpl. lia.
Qed.

(** [ilog2] brackets a positive rational between two powers of two. *)
Lemma ilog2_spec q : 0 < q -> pow2 (ilog2 q) <= q < pow2 (ilog2 q + 1).
Proof.
  intros Hq.
  assert (Hn : (0 < Qnum q)%Z).
  { destruct q as [n d]. unfold Qlt in Hq. simpl in *. lia. }
  pose proof (Z.log2_spec (Qnum q) Hn) as Ha.
  pose proof (Z.log2_spec (Z.pos (Qden q)) eq_refl) as Hb.
  pose proof (Z.log2_nonneg (Qnum q)) as Ha0.
  pose proof (Z.log2_nonneg (Z.pos (Qden q))) as Hb0.
  pose proof (Q_as_fraction q) as Hfr.
  set (a := Z.log2 (Qnum q)) in *. set (b := Z.log2 (Z.pos (Qden q))) in *.
  assert (HA : pow2 a <= inject_Z (Qnum q) < 2 * pow2 a).
  { rewrite <- pow2_succ, !pow2_inject by lia.
    rewrite <- Zle_Qle, <- Zlt_Qlt. exact Ha. }
  assert (HB : pow2 b <= inject_Z (Z.pos (Qden q)) < 2 * pow2 b).
  { rewrite <- pow2_succ, !pow2_inject by lia.
    rewrite <- Zle_Qle, <- Zlt_Qlt. exact Hb. }
  assert (HK : pow2 (a - b) * pow2 b == pow2 a).
  { rewrite <- pow2_add. replace (a - b + b)%Z with a by lia. reflexivity. }
  pose proof (pow2_pos a) as Pa. pose proof (pow2_pos b) as Pb.
  pose proof (pow2_pos (a - b)) as Pk.
  unfold ilog2. fold a b.
  destruct (Qle_bool (pow2 (a - b)) q) eqn:E.
  - apply Qle_bool_iff in E. split; [exact E |].
    rewrite pow2_succ.
    set (K := pow2 (a - b)) in *. set (A := pow2 a) in *.
    set (B := pow2 b) in *. set (D := inject_Z (Z.pos (Qden q))) in *.
    set (N := inject_Z (Qnum q)) in *.
    nra.
  - assert (E' : q < pow2 (a - b)).
    { apply Qnot_le_lt. intros H. apply Qle_bool_iff in H. congruence. }
    replace (a - b - 1 + 1)%Z with (a - b)%Z by lia. split; [| exact E'].
    assert (HK' : 2 * pow2 (a - b - 1) == pow2 (a - b)).
    { rewrite <- pow2_succ. replace (a - b - 1 + 1)%Z with (a - b)%Z by lia.
      reflexivity. }
    pose proof (pow2_pos (a - b - 1)) as Pk'.
    set (K := pow2 (a - b)) in *. set (A := pow2 a) in *.
    set (B := pow2 b) in *. set (D := inject_Z (Z.pos (Qden q))) in *.
    set (N := inject_Z (Qnum q)) in *. set (K' := pow2 (a - b - 1)) in *.
    nra.
Qed.

Lemma ilog2_le x y : 0 < x -> x <= y -> (ilog2 x <= ilog2 y)%Z.
Proof.
  intros Hx Hxy.
  assert (Hy : 0 < y) by lra.
  pose proof (ilog2_spec x Hx) as [H1 _].
  pose proof (ilog2_spec y Hy) as [_ H2].
  assert (H : pow2 (ilog2 x) < pow2 (ilog2 y + 1)) by lra.
  apply pow2_lt_inv in H. lia.
Qed.

Lemma round_half_even_cases x :
  round_half_even x = Qfloor x \/ round_half_even x = (Qfloor x + 1)%Z.
Proof.
  unfold round_half_even.
  destruct (x - inject_Z (Qfloor x) ?= 1 # 2); [destruct (Z.even _) | |]; auto.
Qed.

Lemma round_half_even_inject n : round_half_even (inject_Z n) = n.
Proof.
  unfold round_half_even. rewrite Qfloor_Z.
  assert (H : inject_Z n - inject_Z n < 1 # 2) by lra.
  rewrite Qlt_alt in H. rewrite H. reflexivity.
Qed.

Lemma round_half_even_le x y : x <= y -> (round_half_even x <= round_half_even y)%Z.
Proof.
  intros Hxy.
  pose proof (Qfloor_resp_le _ _ Hxy) as Hf.
  destruct (Z.eq_dec (Qfloor x) (Qfloor y)) as [E | N].
  - unfold round_half_even. rewrite <- E.
    destruct (x - inject_Z (Qfloor x) ?= 1 # 2) eqn:Cx;
      destruct (y - inject_Z (Qfloor x) ?= 1 # 2) eqn:Cy;
      try (destruct (Z.even (Qfloor x))); try lia;
      (apply Qeq_alt in Cx || apply Qlt_alt in Cx || apply Qgt_alt in Cx);
      (apply Qeq_alt in Cy || apply Qlt_alt in Cy || apply Qgt_alt in Cy);
      lra.
  - destruct (round_half_even_cases x) as [-> | ->];
      destruct (round_half_even_cases y) as [-> | ->]; lia.
Qed.

Lemma round_half_even_nonneg x : 0 <= x -> (0 <= round_half_even x)%Z.
Proof.
  intros H. apply round_half_even_le in H.
  change 0 with (inject_Z 0) in H. rewrite round_half_even_inject in H. exact H.
Qed.

Lemma fround_zero x : x == 0 -> fround x = 0.
Proof.
  intros H. unfold fround. apply Qeq_bool_iff in H. rewrite H. reflexivity.
Qed.

Lemma fround_pos_eq x :
  0 < x ->
  fround x == inject_Z (round_half_even (x / pow2 (fexp x))) * pow2 (fexp x).
Proof.
  intros H. unfold fround.
  destruct (Qeq_bool x 0) eqn:E.
  - apply Qeq_bool_iff in E. lra.
  - apply Qred_correct.
Qed.

(** The binade of a positive [x]: below [2 ^ (fexp x + 53)], and, unless
    [x] is subnormal, at least [2 ^ (fexp x + 52)]. *)
Lemma fexp_bracket x :
  0 < x ->
  x < pow2 (fexp x + 53) /\ ((emin < fexp x)%Z -> pow2 (fexp x + 52) <= x).
Proof.
  intros Hx.
  assert (Ha : Qabs x == x) by (apply Qabs_pos; lra).
  assert (Hx' : 0 < Qabs x) by lra.
  pose proof (ilog2_spec _ Hx') as [H1 H2].
  unfold fexp, prec. set (l := ilog2 (Qabs x)) in *. split.
  - pose proof (pow2_le (l + 1) (Z.max (l - (53 - 1)) emin + 53) ltac:(lia)).
    lra.
  - intros He. replace (Z.max (l - (53 - 1)) emin + 52)%Z with l by lia. lra.
Qed.

Lemma fexp_le x y : 0 < x -> x <= y -> (fexp x <= fexp y)%Z.
Proof.
  intros Hx Hxy.
  assert (Ha : Qabs x == x) by (apply Qabs_pos; lra).
  assert (Hb : Qabs y == y) by (apply Qabs_pos; lra).
  assert (H : (ilog2 (Qabs x) <= ilog2 (Qabs y))%Z) by (apply ilog2_le; lra).
  unfold fexp. lia.
Qed.

Lemma scaled_pos x e : 0 < x -> 0 < x / pow2 e.
Proof.
  intros Hx. pose proof (pow2_pos e) as He.
  apply Qlt_shift_div_l; [exact He | lra].
Qed.

Lemma fround_nonneg x : 0 <= x -> 0 <= fround x.
Proof.
  intros Hx. destruct (Qeq_dec x 0) as [E | N].
  - rewrite (fround_zero x E). lra.
  - assert (Hp : 0 < x).
    { destruct (Qlt_le_dec 0 x) as [H | H]; [exact H |].
      exfalso. apply N. lra. }
    rewrite (fround_pos_eq x Hp).
    pose proof (pow2_pos (fexp x)) as He.
    pose proof (scaled_pos x (fexp x) Hp) as Hs.
    assert (Hr : (0 <= round_half_even (x / pow2 (fexp x)))%Z)
      by (apply round_half_even_nonneg; lra).
    rewrite Zle_Qle in Hr. apply Qmult_le_0_compat; [exact Hr | lra].
Qed.

(** Rounding is monotone (stated on the non-negative floats of this
    program). *)
Lemma fround_le x y : 0 <= x -> x <= y -> fround x <= fround y.
Proof.
  intros Hx Hxy. destruct (Qeq_dec x 0) as [E | N].
  { rewrite (fround_zero x E). apply fround_nonneg. lra. }
  assert (Hp : 0 < x).
  { destruct (Qlt_le_dec 0 x) as [H | H]; [exact H |].
    exfalso. apply N. lra. }
  assert (Hq : 0 < y) by lra.
  rewrite (fround_pos_eq x Hp), (fround_pos_eq y Hq).
  pose proof (fexp_le x y Hp Hxy) as He.
  pose proof (fexp_bracket x Hp) as [Bx _].
  pose proof (fexp_bracket y Hq) as [_ By].
  pose proof (pow2_pos (fexp x)) as Px. pose proof (pow2_pos (fexp y)) as Py.
  destruct (Z.eq_dec (fexp x) (fexp y)) as [Ee | Ne].
  - rewrite <- Ee in *.
    assert (Hs : x / pow2 (fexp x) <= y / pow2 (fexp x)).
    { apply Qmult_le_compat_r; [exact Hxy |].
      apply Qlt_le_weak, Qinv_lt_0_compat, Px. }
    apply round_half_even_le in Hs. rewrite Zle_Qle in Hs.
    apply Qmult_le_compat_r; [exact Hs | lra].
  - assert (Hlt : (emin < fexp y)%Z).
    { assert (emin <= fexp x)%Z by (unfold fexp; lia). lia. }
    specialize (By Hlt).
    (* the significand of [x] is at most [2^53], that of [y] at least [2^52] *)
    assert (Hsx : x / pow2 (fexp x) <= inject_Z (2 ^ 53)).
    { apply Qle_shift_div_r; [exact Px |].
      rewrite <- pow2_inject by lia. rewrite <- pow2_add.
      rewrite Z.add_comm. lra. }
    assert (Hsy : inject_Z (2 ^ 52) <= y / pow2 (fexp y)).
    { apply Qle_shift_div_l; [exact Py |].
      rewrite <- pow2_inject by lia. rewrite <- pow2_add.
      rewrite Z.add_comm. exact By. }
    apply round_half_even_le in Hsx, Hsy.
    rewrite round_half_even_inject in Hsx, Hsy.
    rewrite Zle_Qle in Hsx, Hsy.
    assert (Hstep : pow2 53 * pow2 (fexp x) <= pow2 52 * pow2 (fexp y)).
    { rewrite <- !pow2_add. apply pow2_le. lia. }
    rewrite <- !pow2_inject in Hsx, Hsy by lia.
    pose proof (pow2_pos 52) as P52. pose proof (pow2_pos 53) as P53.
    set (mx := inject_Z (round_half_even (x / pow2 (fexp x)))) in *.
    set (my := inject_Z (round_half_even (y / pow2 (fexp y)))) in *.
    set (a := pow2 (fexp x)) in *. set (b := pow2 (fexp y)) in *.
    set (c := pow2 53) in *. set (d := pow2 52) in *.
    apply Qle_trans with (c * a).
    + apply Qmult_le_compat_r; [exact Hsx | lra].
    + apply Qle_trans with (d * b); [exact Hstep |].
      apply Qmult_le_compat_r; [exact Hsy | lra].
Qed.

Lemma float_of_int_nonneg n : (0 <= n)%Z -> 0 <= float_of_int n.
Proof. intros H. apply fround_nonneg. by_integers. Qed.

Lemma hundredths_nonneg n : (0 <= n)%Z -> 0 <= inject_Z n / inject_Z 100.
Proof.
  intros H. apply Qle_shift_div_l; [reflexivity |].
  rewrite Qmult_0_l. by_integers.
Qed.

(** [float("SS.ff")] is not negative. *)
Lemma float_of_field_nonneg n :
  (0 <= n)%Z -> 0 <= fround (inject_Z n / inject_Z 100).
Proof. intros H. apply fround_nonneg, hundredths_nonneg, H. Qed.

End Rounding.

(** ** Strings and digits *)

Section Strings.

Lemma append_nil_l (s : string) : "" +:+ s = s.
Proof. reflexivity. Qed.

Lemma append_cons (c : ascii) (s t : string) :
  String c s +:+ t = String c (s +:+ t).
Proof. reflexivity. Qed.

Lemma append_nil_r (s : string) : s +:+ "" = s.
Proof.
  induction s as [| c s IH]; [reflexivity |].
  rewrite append_cons, IH. reflexivity.
Qed.

Lemma append_assoc (s t u : string) : (s +:+ t) +:+ u = s +:+ (t +:+ u).
Proof.
  induction s as [| c s IH]; [reflexivity |].
  rewrite !append_cons, IH. reflexivity.
Qed.

Lemma append_length (s t : string) :
  String.length (s +:+ t) = (String.length s + String.length t)%nat.
Proof.
  induction s as [| c s IH]; [reflexivity |].
  rewrite append_cons. simpl. rewrite IH. reflexivity.
Qed.

(** A fact about the ten digits is checked on each of them. *)
Lemma each_digit (P : Z -> Prop) :
  Forall P (seqZ 0 10) -> forall n, 0 <= n <= 9 -> P n.
Proof.
  intros HP n Hn. rewrite Forall_forall in HP. apply HP.
  apply elem_of_seqZ. lia.
Qed.

Lemma digit_digit_char n : 0 <= n <= 9 -> digit (digit_char n) = Some n.
Proof. revert n. apply each_digit. repeat constructor. Qed.

Lemma digit_inv c n : digit c = Some n -> 0 <= n <= 9 /\ c = digit_char n.
Proof.
  destruct c as [[] [] [] [] [] [] [] []]; intros H; vm_compute in H;
    try discriminate H; injection H as <-; (split; [lia | reflexivity]).
Qed.

Lemma digit_char_not_dot n : 0 <= n <= 9 -> Ascii.eqb (digit_char n) "." = false.
Proof. revert n. apply each_digit. repeat constructor. Qed.

Lemma is_digit_digit_char n : 0 <= n <= 9 -> is_digit (digit_char n) = true.
Proof. intros H. unfold is_digit. rewrite digit_digit_char by exact H. reflexivity. Qed.

Lemma is_digit_inv c : is_digit c = true -> exists n, 0 <= n <= 9 /\ c = digit_char n.
Proof.
  unfold is_digit. destruct (digit c) as [n |] eqn:E; [| discriminate].
  intros _. exists n. apply digit_inv, E.
Qed.

(** The two digits of a field. *)
Lemma field_digits n :
  0 <= n < 100 -> 0 <= n / 10 <= 9 /\ 0 <= n mod 10 <= 9 /\
                  n = 10 * (n / 10) + n mod 10.
Proof.
  intros H. pose proof (Z.div_mod n 10 ltac:(lia)).
  pose proof (Z.mod_pos_bound n 10 ltac:(lia)).
  assert (0 <= n / 10) by (apply Z.div_pos; lia).
  assert (n / 10 < 10) by (apply Z.div_lt_upper_bound; lia).
  lia.
Qed.

Lemma dd_of_digits a b :
  0 <= a <= 9 -> 0 <= b <= 9 ->
  String (digit_char a) (String (digit_char b) "") = dd (10 * a + b).
Proof.
  intros Ha Hb. unfold dd.
  replace ((10 * a + b) / 10) with a by (apply Z.div_unique with b; lia).
  replace ((10 * a + b) mod 10) with b by (apply Z.mod_unique with a; lia).
  reflexivity.
Qed.

Lemma two_digits_dd n rest :
  0 <= n < 100 -> two_digits (dd n +:+ rest) = Some (dd n, rest).
Proof.
  intros H. destruct (field_digits n H) as (Ha & Hb & _).
  unfold dd. rewrite !append_cons, append_nil_l. unfold two_digits.
  rewrite !is_digit_digit_char by assumption. reflexivity.
Qed.

Lemma two_digits_inv s g rest :
  two_digits s = Some (g, rest) ->
  exists n, 0 <= n < 100 /\ g = dd n /\ s = g +:+ rest.
Proof.
  destruct s as [| a [| b r]]; try discriminate. unfold two_digits.
  destruct (is_digit a) eqn:Ea; [| discriminate].
  destruct (is_digit b) eqn:Eb; [| discriminate].
  simpl. intros [= <- <-].
  apply is_digit_inv in Ea as (x & Hx & ->).
  apply is_digit_inv in Eb as (y & Hy & ->).
  exists (10 * x + y). split; [lia |]. split; [apply dd_of_digits; assumption |].
  reflexivity.
Qed.

Lemma digits_value_dd acc n rest :
  0 <= n < 100 ->
  digits_value acc (dd n +:+ rest) = digits_value (100 * acc + n) rest.
Proof.
  intros H. destruct (field_digits n H) as (Ha & Hb & E).
  unfold dd. rewrite !append_cons, append_nil_l. simpl.
  rewrite !digit_digit_char by assumption. f_equal. lia.
Qed.

Lemma strip_prefix_app lit rest : strip_prefix lit (lit +:+ rest) = Some rest.
Proof.
  induction lit as [| c lit IH]; [destruct rest; reflexivity |].
  rewrite append_cons. simpl. rewrite Ascii.eqb_refl. exact IH.
Qed.

Lemma strip_prefix_inv lit s rest :
  strip_prefix lit s = Some rest -> s = lit +:+ rest.
Proof.
  revert s. induction lit as [| c lit IH]; intros s.
  - destruct s; simpl; intros [= <-]; reflexivity.
  - destruct s as [| b s]; [discriminate |]. simpl.
    destruct (Ascii.eqb_spec c b) as [<- | N]; [| discriminate].
    intros H. rewrite append_cons. f_equal. apply IH, H.
Qed.

End Strings.

(** ** The regular expressions find time stamps, and only them *)

(** One step of a chain in the option monad that ends in [Some]. *)
Tactic Notation "bind_inv" hyp(H) "as" simple_intropattern(pat) "eqn" ":" ident(E) :=
  match type of H with
  | (?m ≫= _) = Some _ =>
      destruct m as [pat |] eqn:E; [| discriminate H];
      cbn [mbind option_bind] in H
  end.

Section Matching.

Lemma match_timestamp_app h m s f post :
  in_range h m s f ->
  match_timestamp (timestamp h m s f +:+ post) = Some (groups h m s f).
Proof.
  intros (Hh & Hm & Hs & Hf). unfold match_timestamp, timestamp.
  rewrite !append_assoc.
  rewrite two_digits_dd by exact Hh. cbn [mbind option_bind].
  rewrite (strip_prefix_app ":"). cbn [mbind option_bind].
  rewrite two_digits_dd by exact Hm. cbn [mbind option_bind].
  rewrite (strip_prefix_app ":"). cbn [mbind option_bind].
  rewrite two_digits_dd by exact Hs. cbn [mbind option_bind].
  rewrite (strip_prefix_app "."). cbn [mbind option_bind].
  rewrite two_digits_dd by exact Hf. reflexivity.
Qed.

Lemma match_timestamp_inv t g :
  match_timestamp t = Some g ->
  exists h m s f post,
    in_range h m s f /\ t = timestamp h m s f +:+ post /\ g = groups h m s f.
Proof.
  unfold match_timestamp. intros H.
  bind_inv H as [g1 t1] eqn:E1. bind_inv H as t2 eqn:E2.
  bind_inv H as [g2 t3] eqn:E3. bind_inv H as t4 eqn:E4.
  bind_inv H as [a t5] eqn:E5. bind_inv H as t6 eqn:E6.
  bind_inv H as [b t7] eqn:E7.
  injection H as <-.
  apply two_digits_inv in E1 as (h & Hh & -> & ->).
  apply two_digits_inv in E3 as (m & Hm & -> & ->).
  apply two_digits_inv in E5 as (s & Hs & -> & ->).
  apply two_digits_inv in E7 as (f & Hf & -> & ->).
  apply strip_prefix_inv in E2 as ->. apply strip_prefix_inv in E4 as ->.
  apply strip_prefix_inv in E6 as ->.
  exists h, m, s, f, t7. split; [repeat split; lia |]. split; [| reflexivity].
  unfold timestamp. rewrite !append_assoc. reflexivity.
Qed.

Lemma match_here_app key h m s f post :
  in_range h m s f ->
  match_here key (key +:+ timestamp h m s f +:+ post) = Some (groups h m s f).
Proof.
  intros H. unfold match_here. rewrite strip_prefix_app. cbn [mbind option_bind].
  apply match_timestamp_app, H.
Qed.

Lemma match_here_inv key t g :
  match_here key t = Some g ->
  exists h m s f, occurs key t "" h m s f /\ g = groups h m s f.
Proof.
  unfold match_here. intros H. bind_inv H as t1 eqn:E.
  apply strip_prefix_inv in E as ->.
  apply match_timestamp_inv in H as (h & m & s & f & post & Hr & -> & ->).
  exists h, m, s, f. split; [| reflexivity].
  split; [exact Hr |]. exists post. reflexivity.
Qed.

(** An occurrence in the tail of a line is an occurrence in the line. *)
Lemma occurs_cons key c line pre h m s f :
  occurs key line pre h m s f ->
  occurs key (String c line) (String c pre) h m s f.
Proof.
  intros (Hr & post & ->). split; [exact Hr |]. exists post. reflexivity.
Qed.

(** [re_search] returns the groups of the leftmost occurrence. *)
Lemma re_search_leftmost key pre : forall line h m s f,
  occurs key line pre h m s f ->
  (forall pre' h' m' s' f',
      occurs key line pre' h' m' s' f' ->
      (String.length pre <= String.length pre')%nat) ->
  re_search key line = Some (groups h m s f).
Proof.
  induction pre as [| c pre IH]; intros line h m s f Hocc Hleft.
  - destruct Hocc as (Hr & post & ->). rewrite append_nil_l.
    pose proof (match_here_app key h m s f post Hr) as E.
    destruct (key +:+ timestamp h m s f +:+ post); simpl; rewrite E; reflexivity.
  - destruct Hocc as (Hr & post & ->). rewrite append_cons. simpl.
    destruct (match_here key _) as [g |] eqn:E.
    + apply match_here_inv in E as (h' & m' & s' & f' & Hocc' & _).
      rewrite <- append_cons in Hocc'.
      apply Hleft in Hocc'. simpl in Hocc'. lia.
    + apply IH.
      * split; [exact Hr |]. exists post. reflexivity.
      * intros pre' h' m' s' f' Hocc'.
        apply (occurs_cons key c) in Hocc'. rewrite <- append_cons in Hocc'.
        apply Hleft in Hocc'. simpl in Hocc'. lia.
Qed.

Lemma re_search_None key line :
  ~ matches key line -> re_search key line = None.
Proof.
  induction line as [| c line IH]; intros Hno.
  - simpl. destruct (match_here key "") as [g |] eqn:E; [| reflexivity].
    apply match_here_inv in E as (h & m & s & f & Hocc & _).
    exfalso. apply Hno. exists "", h, m, s, f. exact Hocc.
  - simpl. destruct (match_here key (String c line)) as [g |] eqn:E.
    + apply match_here_inv in E as (h & m & s & f & Hocc & _).
      exfalso. apply Hno. exists "", h, m, s, f. exact Hocc.
    + apply IH. intros (pre & h & m & s & f & Hocc).
      apply Hno. exists (String c pre), h, m, s, f.
      apply occurs_cons, Hocc.
Qed.

(** A line that carries a time stamp gives a match. *)
Lemma re_search_occurs key pre : forall line h m s f,
  occurs key line pre h m s f -> exists g, re_search key line = Some g.
Proof.
  induction pre as [| c pre IH]; intros line h m s f (Hr & post & ->).
  - rewrite append_nil_l.
    pose proof (match_here_app key h m s f post Hr) as E.
    exists (groups h m s f).
    destruct (key +:+ timestamp h m s f +:+ post); simpl; rewrite E; reflexivity.
  - rewrite append_cons. simpl.
    destruct (match_here key _) as [g |]; [exists g; reflexivity |].
    apply (IH _ h m s f). split; [exact Hr |]. exists post. reflexivity.
Qed.

(** Conversely, a result of [re_search] comes from an occurrence. *)
Lemma re_search_Some key line g :
  re_search key line = Some g ->
  exists pre h m s f, occurs key line pre h m s f /\ g = groups h m s f.
Proof.
  induction line as [| c line IH]; simpl.
  - destruct (match_here key "") as [g' |] eqn:E; [| discriminate].
    intros [= <-]. apply match_here_inv in E as (h & m & s & f & Hocc & ->).
    exists "", h, m, s, f. split; [exact Hocc | reflexivity].
  - destruct (match_here key (String c line)) as [g' |] eqn:E.
    + intros [= <-]. apply match_here_inv in E as (h & m & s & f & Hocc & ->).
      exists "", h, m, s, f. split; [exact Hocc | reflexivity].
    + intros H. apply IH in H as (pre & h & m & s & f & Hocc & ->).
      exists (String c pre), h, m, s, f. split; [| reflexivity].
      apply occurs_cons, Hocc.
Qed.

(** [re.search] fails exactly on the lines without a time stamp. *)
Lemma re_search_None_iff key line :
  re_search key line = None <-> ~ matches key line.
Proof.
  split; [| apply re_search_None].
  intros E (pre & h & m & s & f & Hocc).
  destruct (re_search_occurs key pre line h m s f Hocc) as [g Hg]. congruence.
Qed.

End Matching.

(** ** Decoding the groups of a match *)

Section Decoding.

Lemma bind_ok {A B : Type} (m : Py A) (f : A -> Py B) (o o' : Out) (x : A) :
  m o = (o', inr x) -> (m ≫= f) o = f x o'.
Proof. intros H. unfold mbind, Py_bind. rewrite H. reflexivity. Qed.

Lemma py_int_dd n o : 0 <= n < 100 -> py_int (dd n) o = (o, inr n).
Proof.
  intros H. pose proof (digits_value_dd 0 n "" H) as E.
  rewrite append_nil_r in E. cbn [digits_value] in E.
  rewrite Z.mul_0_r, Z.add_0_l in E.
  unfold py_int, dd in *. cbv beta iota. rewrite E. reflexivity.
Qed.

Lemma partition_dd s f :
  0 <= s < 100 -> partition "." (dd s +:+ "." +:+ dd f) = (dd s, dd f).
Proof.
  intros H. destruct (field_digits s H) as (Ha & Hb & _).
  unfold dd at 1. rewrite !append_cons, append_nil_l. cbn [partition].
  rewrite !digit_char_not_dot by assumption. reflexivity.
Qed.

Lemma py_float_dd s f o :
  0 <= s < 100 -> 0 <= f < 100 ->
  py_float (dd s +:+ "." +:+ dd f) o =
  (o, inr (fround (inject_Z (s * 100 + f) / inject_Z 100))).
Proof.
  intros Hs Hf. unfold py_float. rewrite partition_dd by exact Hs.
  pose proof (digits_value_dd 0 s (dd f) Hs) as E.
  rewrite <- (append_nil_r (dd f)) in E at 2.
  rewrite (digits_value_dd _ f "") in E by exact Hf. cbn [digits_value] in E.
  rewrite E. replace (100 * (100 * 0 + s) + f) with (s * 100 + f) by lia.
  reflexivity.
Qed.

(** Lines 73-76 on the groups of a match: never an exception. *)
Lemma seconds_of_groups h m s f o :
  in_range h m s f ->
  ConverterThread.seconds_of (groups h m s f) o = (o, inr (hms_seconds h m s f)).
Proof.
  intros (Hh & Hm & Hs & Hf). unfold ConverterThread.seconds_of, groups.
  rewrite (bind_ok _ _ o o h) by (apply py_int_dd; exact Hh).
  rewrite (bind_ok _ _ o o m) by (apply py_int_dd; exact Hm).
  rewrite (bind_ok _ _ o o _ (py_float_dd s f o Hs Hf)).
  reflexivity.
Qed.

Local Open Scope Q_scope.

Lemma hms_seconds_nonneg h m s f : in_range h m s f -> 0 <= hms_seconds h m s f.
Proof.
  intros (Hh & Hm & Hs & Hf). unfold hms_seconds, float_add.
  pose proof (float_of_int_nonneg (h * 3600 + m * 60) ltac:(lia)).
  pose proof (float_of_field_nonneg (s * 100 + f) ltac:(lia)).
  apply fround_nonneg. lra.
Qed.

End Decoding.

(** ** The progress computation of line 88 *)

Section Progress.

Local Open Scope Q_scope.

Lemma int_of_float_nonneg x : 0 <= x -> int_of_float x = Qfloor x.
Proof.
  intros H. unfold int_of_float. apply Qle_bool_iff in H. rewrite H. reflexivity.
Qed.

Lemma ratio_nonneg t d : 0 <= t -> 0 < d -> 0 <= t / d.
Proof. intros Ht Hd. apply Qle_shift_div_l; lra. Qed.

Lemma ratio_le t1 t2 d : t1 <= t2 -> 0 < d -> t1 / d <= t2 / d.
Proof.
  intros Ht Hd. apply Qmult_le_compat_r; [exact Ht |].
  apply Qlt_le_weak, Qinv_lt_0_compat, Hd.
Qed.

(** The percentage before truncation is not negative. *)
Lemma percent_nonneg t d :
  0 <= t -> 0 < d -> 0 <= float_mul (fround (t / d)) (float_of_int 100).
Proof.
  intros Ht Hd. apply fround_nonneg. apply Qmult_le_0_compat.
  - apply fround_nonneg, ratio_nonneg; assumption.
  - apply float_of_int_nonneg. lia.
Qed.

Lemma percent_le t1 t2 d :
  0 <= t1 -> t1 <= t2 -> 0 < d ->
  float_mul (fround (t1 / d)) (float_of_int 100) <=
  float_mul (fround (t2 / d)) (float_of_int 100).
Proof.
  intros H0 Ht Hd.
  pose proof (float_of_int_nonneg 100 ltac:(lia)) as Hc.
  assert (H1 : 0 <= fround (t1 / d))
    by (apply fround_nonneg, ratio_nonneg; assumption).
  assert (H2 : fround (t1 / d) <= fround (t2 / d)).
  { apply fround_le; [apply ratio_nonneg; assumption |].
    apply ratio_le; assumption. }
  apply fround_le.
  - apply Qmult_le_0_compat; assumption.
  - apply Qmult_le_compat_r; assumption.
Qed.

Lemma progress_formula_range t d :
  0 <= t -> 0 < d -> (0 <= progress_formula t d <= 99)%Z.
Proof.
  intros Ht Hd. unfold progress_formula.
  pose proof (Qfloor_resp_le _ _ (percent_nonneg t d Ht Hd)) as H.
  change (Qfloor 0) with 0%Z in H. lia.
Qed.

Lemma progress_formula_le t1 t2 d :
  0 <= t1 -> t1 <= t2 -> 0 < d ->
  (progress_formula t1 d <= progress_formula t2 d)%Z.
Proof.
  intros H0 Ht Hd. unfold progress_formula.
  pose proof (Qfloor_resp_le _ _ (percent_le t1 t2 d H0 Ht Hd)). lia.
Qed.

(** Line 88 raises nothing when [duration] is positive, and [int] is
    then the floor. *)
Lemma progress_of_formula t d o :
  0 <= t -> 0 < d ->
  ConverterThread.progress_of t d o = (o, inr (progress_formula t d)).
Proof.
  intros Ht Hd. unfold ConverterThread.progress_of, float_div.
  destruct (Qeq_bool d 0) eqn:E.
  { apply Qeq_bool_iff in E. lra. }
  unfold mbind, Py_bind, mret, Py_ret, progress_formula.
  rewrite int_of_float_nonneg by (apply percent_nonneg; assumption).
  reflexivity.
Qed.

Lemma truthy_positive d : 0 <= d -> truthy (Some d) = true -> 0 < d.
Proof.
  intros H0 H. unfold truthy in H. apply negb_true_iff in H.
  destruct (Qlt_le_dec 0 d) as [L | L]; [exact L |].
  assert (E : d == 0) by lra. apply Qeq_bool_iff in E. congruence.
Qed.

End Progress.

(** ** The floats of the program stay far below the overflow threshold *)

Section Range.

Local Open Scope Q_scope.

Lemma Qle_by_computation x y : Qle_bool x y = true -> x <= y.
Proof. apply Qle_bool_iff. Qed.

(** A time stamp is worth at most 99:99:99.99, that is 362439.99 seconds. *)
Lemma hms_seconds_upper h m s f :
  in_range h m s f -> hms_seconds h m s f <= 362440.
Proof.
  intros (Hh & Hm & Hs & Hf). unfold hms_seconds, float_add.
  pose proof (float_of_int_nonneg (h * 3600 + m * 60) ltac:(lia)) as H3.
  pose proof (float_of_field_nonneg (s * 100 + f) ltac:(lia)) as H4.
  assert (H1 : float_of_int (h * 3600 + m * 60) <= 362340).
  { apply Qle_trans with (float_of_int 362340).
    - apply fround_le; by_integers.
    - apply Qle_by_computation. vm_compute. reflexivity. }
  assert (H2 : fround (inject_Z (s * 100 + f) / inject_Z 100) <= 100).
  { apply Qle_trans with (fround (inject_Z 9999 / inject_Z 100)).
    - apply fround_le; [apply hundredths_nonneg; lia |].
      apply Qmult_le_compat_r; [by_integers | discriminate].
    - apply Qle_by_computation. vm_compute. reflexivity. }
  apply Qle_trans with (fround 362440).
  - apply fround_le; lra.
  - apply Qle_by_computation. vm_compute. reflexivity.
Qed.

(** A duration that passes the guard of line 79 is at least
    [float("00.01")]. *)
Lemma hms_seconds_lower h m s f :
  in_range h m s f -> 0 < hms_seconds h m s f ->
  fround (1 # 100) <= hms_seconds h m s f.
Proof.
  intros (Hh & Hm & Hs & Hf) Hpos.
  pose proof (float_of_int_nonneg (h * 3600 + m * 60) ltac:(lia)) as H3.
  pose proof (float_of_field_nonneg (s * 100 + f) ltac:(lia)) as H4.
  assert (C : (h * 3600 + m * 60 = 0 /\ s * 100 + f = 0)%Z \/
              (1 <= h * 3600 + m * 60)%Z \/ (1 <= s * 100 + f)%Z) by lia.
  destruct C as [[E1 E2] | [C | C]].
  - exfalso. unfold hms_seconds in Hpos. rewrite E1, E2 in Hpos.
    vm_compute in Hpos. discriminate Hpos.
  - unfold hms_seconds, float_add.
    assert (H1 : 1 <= float_of_int (h * 3600 + m * 60)).
    { apply Qle_trans with (float_of_int 1).
      - apply Qle_by_computation. vm_compute. reflexivity.
      - apply fround_le; [discriminate | by_integers]. }
    apply Qle_trans with (fround 1).
    + apply Qle_by_computation. vm_compute. reflexivity.
    + apply fround_le; lra.
  - unfold hms_seconds, float_add.
    assert (H2 : fround (1 # 100)
                 <= fround (inject_Z (s * 100 + f) / inject_Z 100)).
    { apply fround_le; [discriminate |].
      apply Qle_shift_div_l; [reflexivity |].
      apply Qle_trans with (inject_Z 1); [discriminate | by_integers]. }
    apply Qle_trans with (fround (fround (1 # 100))).
    + apply Qle_by_computation. vm_compute. reflexivity.
    + apply fround_le; [apply fround_nonneg; discriminate | lra].
Qed.

(** The quotient and the percentage of line 88 for such values. *)
Lemma percent_upper t d :
  0 <= t -> t <= 362440 -> fround (1 # 100) <= d ->
  fround (t / d) <= 36244001 /\
  float_mul (fround (t / d)) (float_of_int 100) <= 3624400100.
Proof.
  intros Ht0 Ht Hd.
  assert (Hc : 0 < fround (1 # 100)) by reflexivity.
  assert (Hd0 : 0 < d) by lra.
  assert (H0 : 0 <= fround (t / d))
    by (apply fround_nonneg, ratio_nonneg; assumption).
  assert (H1 : fround (t / d) <= 36244001).
  { apply Qle_trans with (fround (362440 / fround (1 # 100))).
    - apply fround_le; [apply ratio_nonneg; assumption |].
      apply Qle_shift_div_r; [exact Hd0 |].
      assert (HK : 362440 / fround (1 # 100) * fround (1 # 100) == 362440)
        by (apply Qeq_bool_iff; vm_compute; reflexivity).
      assert (HK0 : 0 <= 362440 / fround (1 # 100))
        by (apply Qle_by_computation; vm_compute; reflexivity).
      set (K := 362440 / fround (1 # 100)) in *.
      set (c := fround (1 # 100)) in *.
      nra.
    - apply Qle_by_computation. vm_compute. reflexivity. }
  split; [exact H1 |].
  unfold float_mul.
  apply Qle_trans with (fround (36244001 * float_of_int 100)).
  - apply fround_le.
    + apply Qmult_le_0_compat; [exact H0 | apply float_of_int_nonneg; lia].
    + apply Qmult_le_compat_r; [exact H1 | apply float_of_int_nonneg; lia].
  - apply Qle_by_computation. vm_compute. reflexivity.
Qed.

(** Every float of a job is below [2 ^ 1024], where binary64 overflows:
    the time stamps, the quotient and the percentage. *)
Lemma floats_below_overflow h m s f h' m' s' f' :
  in_range h m s f -> in_range h' m' s' f' ->
  0 < hms_seconds h' m' s' f' ->
  let t := hms_seconds h m s f in
  let d := hms_seconds h' m' s' f' in
  t < pow2 1024 /\ d < pow2 1024 /\ fround (t / d) < pow2 1024 /\
  float_mul (fround (t / d)) (float_of_int 100) < pow2 1024.
Proof.
  intros Hr Hr' Hpos t d.
  pose proof (hms_seconds_upper _ _ _ _ Hr) as Ht.
  pose proof (hms_seconds_upper _ _ _ _ Hr') as Hd.
  pose proof (hms_seconds_nonneg _ _ _ _ Hr) as Ht0.
  pose proof (hms_seconds_lower _ _ _ _ Hr' Hpos) as Hd0.
  destruct (percent_upper _ _ Ht0 Ht Hd0) as [H1 H2].
  assert (Hbig : 3624400100 < pow2 1024) by (vm_compute; reflexivity).
  fold t in Ht, Ht0, H1, H2. fold d in Hd, Hd0, H1, H2.
  repeat split; lra.
Qed.

End Range.

(** ** The rounding agrees with the Standard Library's binary64

    [fround] against [SpecFloat] at precision 53 and exponent bound 1024:
    [binary_round_aux] rounds a located value as [fround] does
    ([round_aux_correct]), hence so do [SFdiv], [SFmul] and [SFadd] on
    non-negative canonical floats below the overflow threshold, and the
    seconds of a time stamp and the percentage of line 88 are the same
    numbers in both ([seconds_agreement], [percent_agreement]). *)

Section Agreement.

Local Open Scope Q_scope.

Lemma sfexp_eq k : sfexp k = Z.max (k - 53) (-1074).
Proof. reflexivity. Qed.

Lemma digits2_bounds p :
  (2 ^ (Z.pos (digits2_pos p) - 1) <= Z.pos p < 2 ^ Z.pos (digits2_pos p))%Z.
Proof.
  induction p as [p IH | p IH |]; cbn [digits2_pos];
    [change (Z.pos p~1) with (2 * Z.pos p + 1)%Z
    | change (Z.pos p~0) with (2 * Z.pos p)%Z
    | split; reflexivity];
    rewrite Pos2Z.inj_succ;
    (replace (Z.succ (Z.pos (digits2_pos p)) - 1)%Z
       with (Z.succ (Z.pos (digits2_pos p) - 1)) by lia);
    rewrite !Z.pow_succ_r by lia;
    revert IH;
    generalize (2 ^ (Z.pos (digits2_pos p) - 1))%Z (2 ^ Z.pos (digits2_pos p))%Z;
    intros; lia.
Qed.

Lemma inject_xO p : inject_Z (Z.pos p~0) == 2 * inject_Z (Z.pos p).
Proof. change (Z.pos p~0) with (2 * Z.pos p)%Z. rewrite inject_Z_mult. reflexivity. Qed.

Lemma inject_xI p : inject_Z (Z.pos p~1) == 2 * inject_Z (Z.pos p) + 1.
Proof.
  change (Z.pos p~1) with (2 * Z.pos p + 1)%Z.
  rewrite inject_Z_plus, inject_Z_mult. reflexivity.
Qed.

(** One step of shifting: the value is halved. *)
Lemma shr_1_located mrs X :
  (0 <= shr_m mrs)%Z ->
  located (shr_m mrs) (loc_of_shr_record mrs) X ->
  (0 <= shr_m (shr_1 mrs))%Z /\
  located (shr_m (shr_1 mrs)) (loc_of_shr_record (shr_1 mrs)) (X / 2).
Proof.
  destruct mrs as [m r s]. cbn [shr_m]. intros Hm HX.
  assert (HX2 : X / 2 == X * (1 # 2)) by (unfold Qdiv; reflexivity).
  destruct m as [| [p | p |] | p]; [| | | | lia].
  - destruct r, s; cbn [shr_1 shr_m loc_of_shr_record located orb] in *;
      change (inject_Z 0) with 0 in *; (split; [lia |]); lra.
  - pose proof (inject_xI p) as E.
    destruct r, s; cbn [shr_1 shr_m loc_of_shr_record located orb] in *;
      (split; [lia |]); lra.
  - pose proof (inject_xO p) as E.
    destruct r, s; cbn [shr_1 shr_m loc_of_shr_record located orb] in *;
      (split; [lia |]); lra.
  - destruct r, s; cbn [shr_1 shr_m loc_of_shr_record located orb] in *;
      change (inject_Z 0) with 0 in *; change (inject_Z 1) with 1 in *;
      (split; [lia |]); lra.
Qed.


Lemma located_wd m l X Y : X == Y -> located m l X -> located m l Y.
Proof.
  intros E. destruct l as [| []]; cbn [located]; rewrite E; trivial.
Qed.

Lemma pow2_double p : pow2 (Z.pos p~0) == pow2 (Z.pos p) * pow2 (Z.pos p).
Proof.
  rewrite <- pow2_add. change (Z.pos p~0) with (2 * Z.pos p)%Z.
  replace (2 * Z.pos p)%Z with (Z.pos p + Z.pos p)%Z by lia. reflexivity.
Qed.

Lemma pow2_double_1 p : pow2 (Z.pos p~1) == 2 * (pow2 (Z.pos p) * pow2 (Z.pos p)).
Proof.
  change (Z.pos p~1) with (Z.pos p~0 + 1)%Z. rewrite pow2_succ, pow2_double.
  reflexivity.
Qed.

Lemma iter_shr_located p : forall mrs X,
  (0 <= shr_m mrs)%Z ->
  located (shr_m mrs) (loc_of_shr_record mrs) X ->
  (0 <= shr_m (SpecFloat.iter_pos shr_1 p mrs))%Z /\
  located (shr_m (SpecFloat.iter_pos shr_1 p mrs))
          (loc_of_shr_record (SpecFloat.iter_pos shr_1 p mrs)) (X / pow2 (Z.pos p)).
Proof.
  induction p as [p IH | p IH |]; intros mrs X Hm HX; cbn [SpecFloat.iter_pos].
  - destruct (shr_1_located mrs X Hm HX) as [H1 L1].
    destruct (IH _ _ H1 L1) as [H2 L2].
    destruct (IH _ _ H2 L2) as [H3 L3].
    split; [exact H3 |]. eapply located_wd; [| exact L3].
    rewrite pow2_double_1. pose proof (pow2_pos (Z.pos p)) as P.
    field. lra.
  - destruct (IH _ _ Hm HX) as [H2 L2].
    destruct (IH _ _ H2 L2) as [H3 L3].
    split; [exact H3 |]. eapply located_wd; [| exact L3].
    rewrite pow2_double. pose proof (pow2_pos (Z.pos p)) as P.
    field. lra.
  - destruct (shr_1_located mrs X Hm HX) as [H1 L1].
    split; [exact H1 |]. eapply located_wd; [| exact L1]. reflexivity.
Qed.

Lemma shr_located mrs e n X :
  (0 <= n)%Z ->
  (0 <= shr_m mrs)%Z ->
  located (shr_m mrs) (loc_of_shr_record mrs) X ->
  snd (shr mrs e n) = (e + n)%Z /\
  (0 <= shr_m (fst (shr mrs e n)))%Z /\
  located (shr_m (fst (shr mrs e n)))
          (loc_of_shr_record (fst (shr mrs e n))) (X / pow2 n).
Proof.
  intros Hn Hm HX. destruct n as [| p | p]; [| | lia]; cbn [shr fst snd].
  - split; [lia |]. split; [exact Hm |].
    eapply located_wd; [| exact HX]. unfold pow2. cbn. field.
  - split; [reflexivity |]. apply iter_shr_located; assumption.
Qed.

Lemma record_of_loc m l :
  shr_m (shr_record_of_loc m l) = m /\
  loc_of_shr_record (shr_record_of_loc m l) = l.
Proof. destruct l as [| []]; split; reflexivity. Qed.

Lemma located_floor m l X : located m l X -> Qfloor X = m.
Proof.
  intros H.
  assert (B : inject_Z m <= X /\ X < inject_Z (m + 1)).
  { rewrite inject_Z_plus. change (inject_Z 1) with 1.
    destruct l as [| []]; cbn [located] in H; lra. }
  destruct B as [B1 B2].
  pose proof (Qfloor_resp_le _ _ B1) as F1. rewrite Qfloor_Z in F1.
  pose proof (Qfloor_le X) as F2.
  assert (F3 : inject_Z (Qfloor X) < inject_Z (m + 1)) by lra.
  rewrite <- Zlt_Qlt in F3. lia.
Qed.

Lemma round_nearest_even_located m l X :
  located m l X -> round_nearest_even m l = round_half_even X.
Proof.
  intros H. pose proof (located_floor m l X H) as F.
  unfold round_half_even. rewrite F.
  destruct (Qcompare_spec (X - inject_Z m) (1 # 2)) as [C | C | C];
    destruct l as [| []]; cbn [located round_nearest_even] in *;
    try reflexivity; lra.
Qed.


Lemma round_half_even_wd x y : x == y -> round_half_even x = round_half_even y.
Proof.
  intros E.
  assert (H1 : x <= y) by lra. assert (H2 : y <= x) by lra.
  apply round_half_even_le in H1, H2. lia.
Qed.

Lemma ilog2_unique q k : pow2 k <= q -> q < pow2 (k + 1) -> ilog2 q = k.
Proof.
  intros H1 H2. pose proof (pow2_pos k) as Pk.
  destruct (ilog2_spec q ltac:(lra)) as [L1 L2].
  assert (A : pow2 k < pow2 (ilog2 q + 1)) by lra.
  assert (B : pow2 (ilog2 q) < pow2 (k + 1)) by lra.
  apply pow2_lt_inv in A, B. lia.
Qed.

Lemma fexp_of_bracket V k :
  pow2 k <= V -> V < pow2 (k + 1) -> fexp V = Z.max (k - 52) (-1074)%Z.
Proof.
  intros H1 H2. pose proof (pow2_pos k) as Pk.
  assert (Ha : Qabs V == V) by (apply Qabs_pos; lra).
  unfold fexp, prec, emin.
  rewrite (ilog2_unique (Qabs V) k) by lra. reflexivity.
Qed.

Lemma fexp_subnormal V : 0 < V -> V < pow2 (-1021) -> fexp V = (-1074)%Z.
Proof.
  intros H0 H1.
  assert (Ha : Qabs V == V) by (apply Qabs_pos; lra).
  destruct (ilog2_spec (Qabs V) ltac:(lra)) as [L1 _].
  assert (A : pow2 (ilog2 (Qabs V)) < pow2 (-1021)) by lra.
  apply pow2_lt_inv in A. unfold fexp, prec, emin. lia.
Qed.

Lemma Zdigits2_bounds m :
  (0 < m)%Z ->
  pow2 (Zdigits2 m - 1) <= inject_Z m /\ inject_Z m + 1 <= pow2 (Zdigits2 m).
Proof.
  intros Hm. destruct m as [| p | p]; try lia. cbn [Zdigits2].
  pose proof (digits2_bounds p) as [B1 B2].
  rewrite !pow2_inject by lia.
  change 1 with (inject_Z 1). rewrite <- inject_Z_plus, <- !Zle_Qle. lia.
Qed.

(** The exponent chosen by [shr_fexp] is that of the binade of the value. *)
Lemma fexp_located m l X e :
  (0 <= m)%Z -> located m l X -> 0 < X ->
  (e <= sfexp (Zdigits2 m + e))%Z ->
  fexp (X * pow2 e) = sfexp (Zdigits2 m + e).
Proof.
  intros Hm HX H0 He. rewrite sfexp_eq in *.
  pose proof (pow2_pos e) as Pe.
  assert (B : inject_Z m <= X /\ X < inject_Z m + 1)
    by (destruct l as [| []]; cbn [located] in HX; lra).
  destruct (Z.eq_dec m 0%Z) as [-> | Hm0].
  - cbn [Zdigits2] in *. change (inject_Z 0) with 0 in B.
    assert (He' : (e <= -1074)%Z) by lia.
    rewrite fexp_subnormal; [lia | nra |].
    apply Qlt_le_trans with (pow2 e); [nra |]. apply pow2_le. lia.
  - destruct (Zdigits2_bounds m ltac:(lia)) as [D1 D2].
    rewrite (fexp_of_bracket _ (Zdigits2 m - 1 + e)).
    + f_equal. lia.
    + rewrite pow2_add. apply Qmult_le_compat_r; lra.
    + replace (Zdigits2 m - 1 + e + 1)%Z with (Zdigits2 m + e)%Z by lia.
      rewrite pow2_add. apply Qmult_lt_compat_r; lra.
Qed.


Lemma Zdigits2_le_53 M :
  (0 < M < 2 ^ 53)%Z -> (1 <= Zdigits2 M <= 53)%Z.
Proof.
  intros HM. destruct M as [| p | p]; try lia. cbn [Zdigits2].
  pose proof (digits2_bounds p) as [B1 _].
  assert (H : (2 ^ (Z.pos (digits2_pos p) - 1) < 2 ^ 53)%Z) by lia.
  apply Z.pow_lt_mono_r_iff in H; lia.
Qed.

Lemma Zdigits2_ge_53 M :
  (2 ^ 52 <= M)%Z -> (53 <= Zdigits2 M)%Z.
Proof.
  intros HM. destruct M as [| p | p]; try lia. cbn [Zdigits2].
  pose proof (digits2_bounds p) as [_ B2].
  assert (H : (2 ^ 52 < 2 ^ Z.pos (digits2_pos p))%Z) by lia.
  apply Z.pow_lt_mono_r_iff in H; lia.
Qed.

Lemma shr_nonpos mrs e n : (n <= 0)%Z -> shr mrs e n = (mrs, e).
Proof. intros Hn. destruct n; try lia; reflexivity. Qed.

(** The last step of [binary_round_aux]: a rounded significand is put in
    canonical form. *)
Lemma renormalize M E :
  (0 <= M <= 2 ^ 53)%Z -> (-1074 <= E)%Z ->
  ((-1074 < E)%Z -> (2 ^ 52 <= M)%Z) ->
  inject_Z M * pow2 E < pow2 1024 ->
  let f :=
    match shr_m (fst (shr_fexp 53 1024 M E loc_Exact)) with
    | Z0 => S754_zero false
    | Z.pos mm =>
        if (snd (shr_fexp 53 1024 M E loc_Exact) <=? 1024 - 53)%Z
        then S754_finite false mm (snd (shr_fexp 53 1024 M E loc_Exact))
        else S754_infinity false
    | Z.neg _ => S754_nan
    end in
  good f /\ b64_value f == inject_Z M * pow2 E.
Proof.
  intros HM HE Hnormal Hfin. pose proof (pow2_pos E) as PE.
  assert (C : (M = 0 \/ 0 < M < 2 ^ 53 \/ M = 2 ^ 53)%Z) by lia.
  destruct C as [-> | [C | ->]].
  - (* zero *)
    unfold shr_fexp. cbn [Zdigits2]. fold (sfexp (0 + E)). rewrite sfexp_eq.
    rewrite shr_nonpos by lia. cbn.
    split; [left; reflexivity | ring].
  - (* an ordinary significand: nothing to shift *)
    pose proof (Zdigits2_le_53 M C) as Hd.
    unfold shr_fexp. fold (sfexp (Zdigits2 M + E)). rewrite sfexp_eq.
    assert (Hn : (Z.max (Zdigits2 M + E - 53) (-1074) - E <= 0)%Z) by lia.
    assert (HE971 : (E <= 971)%Z).
    { destruct (Z_le_gt_dec E 971) as [L | G]; [exact L | exfalso].
      specialize (Hnormal ltac:(lia)).
      assert (H1 : pow2 52 * pow2 972 <= inject_Z M * pow2 E).
      { apply Qle_trans with (inject_Z M * pow2 972).
        - apply Qmult_le_compat_r; [| apply Qlt_le_weak, pow2_pos].
          rewrite pow2_inject by lia. rewrite <- Zle_Qle. exact Hnormal.
        - apply Qmult_le_l; [| apply pow2_le; lia].
          change 0 with (inject_Z 0). rewrite <- Zlt_Qlt. lia. }
      rewrite <- pow2_add in H1. change (52 + 972)%Z with 1024%Z in H1. lra. }
    rewrite shr_nonpos by lia. cbn [fst snd shr_record_of_loc shr_m].
    destruct M as [| mm | mm]; try lia.
    assert (Hle : (E <=? 1024 - 53)%Z = true) by (apply Z.leb_le; lia).
    rewrite Hle. split.
    + right. exists mm, E. split; [reflexivity |].
      unfold canonical_mantissa. apply Z.eqb_eq.
      fold (sfexp (Z.pos (digits2_pos mm) + E)). rewrite sfexp_eq.
      change (Z.pos (digits2_pos mm)) with (Zdigits2 (Z.pos mm)).
      destruct (Z.eq_dec E (-1074)%Z) as [-> | Hne]; [lia |].
      pose proof (Zdigits2_ge_53 _ (Hnormal ltac:(lia))). lia.
    + reflexivity.
  - (* the significand rounded up to [2 ^ 53]: one more shift *)
    assert (HE970 : (E <= 970)%Z).
    { destruct (Z_le_gt_dec E 970) as [L | G]; [exact L | exfalso].
      assert (H1 : pow2 53 * pow2 971 <= inject_Z (2 ^ 53) * pow2 E).
      { rewrite <- pow2_inject by lia.
        apply Qmult_le_l; [apply pow2_pos | apply pow2_le; lia]. }
      rewrite <- pow2_add in H1. change (53 + 971)%Z with 1024%Z in H1. lra. }
    unfold shr_fexp. change (Zdigits2 (2 ^ 53)) with 54%Z.
    fold (sfexp (54 + E)). rewrite sfexp_eq.
    replace (Z.max (54 + E - 53) (-1074) - E)%Z with 1%Z by lia.
    cbn [shr fst snd SpecFloat.iter_pos].
    change (shr_m (shr_1 (shr_record_of_loc (2 ^ 53) loc_Exact)))
      with (Z.pos (2 ^ 52)).
    assert (Hle : (E + 1 <=? 1024 - 53)%Z = true) by (apply Z.leb_le; lia).
    rewrite Hle. split.
    + right. exists (2 ^ 52)%positive, (E + 1)%Z. split; [reflexivity |].
      unfold canonical_mantissa. apply Z.eqb_eq.
      change (Z.pos (digits2_pos (2 ^ 52))) with 53%Z.
      fold (sfexp (53 + (E + 1))). rewrite sfexp_eq. lia.
    + cbn [b64_value]. rewrite pow2_succ.
      change (inject_Z (Z.pos (2 ^ 52))) with (inject_Z (2 ^ 52)).
      assert (K : inject_Z (2 ^ 53) == 2 * inject_Z (2 ^ 52)) by reflexivity.
      rewrite K. ring.
Qed.


(** [binary_round_aux] rounds the located value exactly as [fround] does. *)
Lemma round_aux_correct m e l X :
  (0 <= m)%Z -> located m l X -> 0 < X ->
  (e <= sfexp (Zdigits2 m + e))%Z ->
  fround (X * pow2 e) < pow2 1024 ->
  good (binary_round_aux 53 1024 false m e l) /\
  b64_value (binary_round_aux 53 1024 false m e l) == fround (X * pow2 e).
Proof.
  intros Hm HX H0 He Hfin.
  pose proof (pow2_pos e) as Pe.
  assert (HV : 0 < X * pow2 e) by (apply Qmult_lt_0_compat; assumption).
  pose proof (fexp_located m l X e Hm HX H0 He) as HfE.
  set (E := sfexp (Zdigits2 m + e)) in *.
  assert (HEmin : (-1074 <= E)%Z) by (unfold E; rewrite sfexp_eq; lia).
  destruct (record_of_loc m l) as [R1 R2].
  destruct (shr_located (shr_record_of_loc m l) e (E - e) X ltac:(lia)
              ltac:(rewrite R1; exact Hm) ltac:(rewrite R1, R2; exact HX))
    as (S1 & S2 & S3).
  pose proof (round_nearest_even_located _ _ _ S3) as RN.
  assert (Hscale : X / pow2 (E - e) == X * pow2 e / pow2 (fexp (X * pow2 e))).
  { rewrite HfE. pose proof (pow2_pos E) as PE. pose proof (pow2_pos (E - e)) as PEe.
    assert (K : pow2 E == pow2 (E - e) * pow2 e).
    { rewrite <- pow2_add. replace (E - e + e)%Z with E by lia. reflexivity. }
    rewrite K. field. split; lra. }
  rewrite (round_half_even_wd _ _ Hscale) in RN.
  pose proof (fround_pos_eq _ HV) as FR.
  set (M := round_half_even (X * pow2 e / pow2 (fexp (X * pow2 e)))) in *.
  rewrite HfE in FR.
  (* bounds on the rounded significand *)
  destruct (fexp_bracket _ HV) as [B1 B2]. rewrite HfE in B1, B2.
  pose proof (pow2_pos E) as PE.
  assert (HM : (0 <= M <= 2 ^ 53)%Z).
  { split.
    - unfold M. apply round_half_even_nonneg. apply Qlt_le_weak, scaled_pos, HV.
    - assert (L : X * pow2 e / pow2 (fexp (X * pow2 e)) <= inject_Z (2 ^ 53)).
      { rewrite HfE. apply Qle_shift_div_r; [exact PE |].
        rewrite <- pow2_inject by lia. rewrite <- pow2_add.
        replace (53 + E)%Z with (E + 53)%Z by lia. lra. }
      apply round_half_even_le in L. rewrite round_half_even_inject in L. exact L. }
  assert (Hnormal : (-1074 < E)%Z -> (2 ^ 52 <= M)%Z).
  { intros G. specialize (B2 G).
    assert (L : inject_Z (2 ^ 52) <= X * pow2 e / pow2 (fexp (X * pow2 e))).
    { rewrite HfE. apply Qle_shift_div_l; [exact PE |].
      rewrite <- pow2_inject by lia. rewrite <- pow2_add.
      replace (52 + E)%Z with (E + 52)%Z by lia. exact B2. }
    apply round_half_even_le in L. rewrite round_half_even_inject in L. exact L. }
  assert (Hfin' : inject_Z M * pow2 E < pow2 1024) by (rewrite <- FR; exact Hfin).
  pose proof (renormalize M E HM HEmin Hnormal Hfin') as [G V].
  assert (U : binary_round_aux 53 1024 false m e l =
    match shr_m (fst (shr_fexp 53 1024 M E loc_Exact)) with
    | Z0 => S754_zero false
    | Z.pos mm =>
        if (snd (shr_fexp 53 1024 M E loc_Exact) <=? 1024 - 53)%Z
        then S754_finite false mm (snd (shr_fexp 53 1024 M E loc_Exact))
        else S754_infinity false
    | Z.neg _ => S754_nan
    end).
  { unfold binary_round_aux. unfold shr_fexp at 1.
    fold (sfexp (Zdigits2 m + e)). fold E.
    destruct (shr (shr_record_of_loc m l) e (E - e)) as [mrs1 e1] eqn:Sh.
    cbn [fst snd] in S1, RN. subst e1. rewrite RN.
    replace (e + (E - e))%Z with E by lia.
    destruct (shr_fexp 53 1024 M E loc_Exact) as [mrs2 e2]. reflexivity. }
  rewrite U. split; [exact G |]. rewrite V, FR. reflexivity.
Qed.


Lemma fround_wd x y : 0 <= x -> x == y -> fround x == fround y.
Proof.
  intros H0 E. apply Qle_antisym; apply fround_le; lra.
Qed.

Lemma Zdigits2_Z_bounds m :
  (0 < m)%Z -> (2 ^ (Zdigits2 m - 1) <= m < 2 ^ Zdigits2 m)%Z /\ (0 < Zdigits2 m)%Z.
Proof.
  intros Hm. destruct m as [| p | p]; try lia. cbn [Zdigits2].
  split; [apply digits2_bounds | lia].
Qed.

Lemma Zdigits2_unique m k :
  (0 < k)%Z -> (2 ^ (k - 1) <= m < 2 ^ k)%Z -> Zdigits2 m = k.
Proof.
  intros Hk [L U].
  assert (Hm : (0 < m)%Z) by (pose proof (Z.pow_pos_nonneg 2 (k - 1)); lia).
  destruct (Zdigits2_Z_bounds m Hm) as [[L' U'] Hd].
  assert (A : (2 ^ (k - 1) < 2 ^ Zdigits2 m)%Z) by lia.
  assert (B : (2 ^ (Zdigits2 m - 1) < 2 ^ k)%Z) by lia.
  apply Z.pow_lt_mono_r_iff in A; [| lia | lia].
  apply Z.pow_lt_mono_r_iff in B; lia.
Qed.

Lemma Zdigits2_shift m d :
  (0 < m)%Z -> (0 <= d)%Z -> Zdigits2 (m * 2 ^ d) = (Zdigits2 m + d)%Z.
Proof.
  intros Hm Hd. destruct (Zdigits2_Z_bounds m Hm) as [[L U] H0].
  apply Zdigits2_unique; [lia |].
  replace (Zdigits2 m + d - 1)%Z with (Zdigits2 m - 1 + d)%Z by lia.
  rewrite !Z.pow_add_r by lia.
  pose proof (Z.pow_pos_nonneg 2 d ltac:(lia) Hd). nia.
Qed.

Lemma Zdigits2_le a b : (0 <= a <= b)%Z -> (Zdigits2 a <= Zdigits2 b)%Z.
Proof.
  intros [Ha Hab].
  destruct (Z.eq_dec a 0%Z) as [-> | N].
  - destruct b; cbn [Zdigits2]; lia.
  - destruct (Zdigits2_Z_bounds a ltac:(lia)) as [[La Ua] Da].
    destruct (Zdigits2_Z_bounds b ltac:(lia)) as [[Lb Ub] Db].
    assert (A : (2 ^ (Zdigits2 a - 1) < 2 ^ Zdigits2 b)%Z) by lia.
    apply Z.pow_lt_mono_r_iff in A; lia.
Qed.

Lemma iter_xO p d : Z.pos (Pos.iter xO p d) = (Z.pos p * 2 ^ Z.pos d)%Z.
Proof.
  rewrite (Pos.iter_swap_gen _ _ Z.pos xO (Z.mul 2)) by reflexivity.
  change (Pos.iter (Z.mul 2) (Z.pos p) d) with (Z.shiftl (Z.pos p) (Z.pos d)).
  apply Z.shiftl_mul_pow2. lia.
Qed.

(** A canonical float is a fixed point of the rounding. *)
Lemma fround_canonical m e :
  canonical_mantissa 53 1024 m e = true ->
  fround (inject_Z (Z.pos m) * pow2 e) == inject_Z (Z.pos m) * pow2 e.
Proof.
  intros C. unfold canonical_mantissa in C. apply Z.eqb_eq in C.
  fold (sfexp (Z.pos (digits2_pos m) + e)) in C.
  change (Z.pos (digits2_pos m)) with (Zdigits2 (Z.pos m)) in C.
  pose proof (pow2_pos e) as Pe.
  assert (H0 : 0 < inject_Z (Z.pos m)) by reflexivity.
  assert (HV : 0 < inject_Z (Z.pos m) * pow2 e) by (apply Qmult_lt_0_compat; assumption).
  pose proof (fexp_located (Z.pos m) loc_Exact (inject_Z (Z.pos m)) e
                ltac:(lia) ltac:(cbn [located]; reflexivity) H0 ltac:(lia)) as F.
  rewrite C in F.
  rewrite (fround_pos_eq _ HV), F.
  assert (K : inject_Z (Z.pos m) * pow2 e / pow2 e == inject_Z (Z.pos m))
    by (field; lra).
  rewrite (round_half_even_wd _ _ K), round_half_even_inject. reflexivity.
Qed.

Lemma good_value_nonneg f : good f -> 0 <= b64_value f.
Proof.
  intros [-> | (m & e & -> & _)]; cbn [b64_value]; [lra |].
  pose proof (pow2_pos e). apply Qmult_le_0_compat; [discriminate | lra].
Qed.

Lemma good_fround f : good f -> fround (b64_value f) == b64_value f.
Proof.
  intros [-> | (m & e & -> & C)]; cbn [b64_value].
  - reflexivity.
  - apply fround_canonical, C.
Qed.

(** [binary_round] and [binary_normalize]: rounding an integer multiple
    of a power of two. *)
Lemma round_correct p e :
  fround (inject_Z (Z.pos p) * pow2 e) < pow2 1024 ->
  good (binary_round 53 1024 false p e) /\
  b64_value (binary_round 53 1024 false p e)
  == fround (inject_Z (Z.pos p) * pow2 e).
Proof.
  intros Hfin. unfold binary_round, shl_align.
  fold (sfexp (Z.pos (digits2_pos p) + e)).
  change (Z.pos (digits2_pos p)) with (Zdigits2 (Z.pos p)).
  pose proof (pow2_pos e) as Pe.
  assert (HV : 0 < inject_Z (Z.pos p) * pow2 e)
    by (apply Qmult_lt_0_compat; [reflexivity | assumption]).
  destruct (sfexp (Zdigits2 (Z.pos p) + e) - e)%Z as [| d | d] eqn:D.
  - apply (round_aux_correct (Z.pos p) e loc_Exact (inject_Z (Z.pos p)));
      [lia | cbn [located]; reflexivity | reflexivity | lia | exact Hfin].
  - apply (round_aux_correct (Z.pos p) e loc_Exact (inject_Z (Z.pos p)));
      [lia | cbn [located]; reflexivity | reflexivity | lia | exact Hfin].
  - set (e' := sfexp (Zdigits2 (Z.pos p) + e)) in *.
    assert (Hd : e = (e' + Z.pos d)%Z) by lia.
    assert (K : inject_Z (Z.pos (Pos.iter xO p d)) * pow2 e'
                == inject_Z (Z.pos p) * pow2 e).
    { rewrite iter_xO, inject_Z_mult, <- pow2_inject by lia.
      rewrite Hd, (pow2_add e'). ring. }
    assert (Hdig : (Zdigits2 (Z.pos (Pos.iter xO p d)) + e'
                    = Zdigits2 (Z.pos p) + e)%Z).
    { rewrite iter_xO, Zdigits2_shift by lia. lia. }
    assert (HV' : 0 <= inject_Z (Z.pos (Pos.iter xO p d)) * pow2 e')
      by (rewrite K; lra).
    pose proof (fround_wd _ _ HV' K) as FK.
    destruct (round_aux_correct (Z.pos (Pos.iter xO p d)) e' loc_Exact
                (inject_Z (Z.pos (Pos.iter xO p d)))) as [G V];
      [lia | cbn [located]; reflexivity | reflexivity
      | rewrite Hdig; fold e'; lia
      | rewrite FK; exact Hfin |].
    split; [exact G |]. rewrite V. exact FK.
Qed.

Lemma normalize_correct n e :
  (0 <= n)%Z ->
  fround (inject_Z n * pow2 e) < pow2 1024 ->
  good (binary_normalize 53 1024 n e false) /\
  b64_value (binary_normalize 53 1024 n e false) == fround (inject_Z n * pow2 e).
Proof.
  intros Hn Hfin. destruct n as [| p | p]; [| | lia]; cbn [binary_normalize].
  - split; [left; reflexivity |]. cbn [b64_value].
    rewrite fround_zero; [reflexivity | ring].
  - apply round_correct, Hfin.
Qed.


Lemma sfexp_le a b : (a <= b)%Z -> (sfexp a <= sfexp b)%Z.
Proof. intros H. rewrite !sfexp_eq. lia. Qed.

Lemma canonical_inv m e :
  canonical_mantissa 53 1024 m e = true ->
  (-1074 <= e)%Z /\ (1 <= Zdigits2 (Z.pos m) <= 53)%Z /\
  (Zdigits2 (Z.pos m) = 53 \/ e = -1074)%Z.
Proof.
  intros C. unfold canonical_mantissa in C. apply Z.eqb_eq in C.
  fold (sfexp (Z.pos (digits2_pos m) + e)) in C. rewrite sfexp_eq in C.
  cbn [Zdigits2]. lia.
Qed.

(** The location that [SFdiv_core_binary] computes from a remainder. *)
Lemma new_location_located d q r :
  (0 < d)%Z -> (0 <= r < d)%Z ->
  located q (new_location d r) (inject_Z (q * d + r) / inject_Z d).
Proof.
  intros Hd Hr.
  assert (Dq : 0 < inject_Z d) by (change 0 with (inject_Z 0); rewrite <- Zlt_Qlt; lia).
  assert (K : inject_Z (q * d + r) / inject_Z d == inject_Z q + inject_Z r / inject_Z d).
  { rewrite inject_Z_plus, inject_Z_mult. field. lra. }
  apply (located_wd _ _ _ _ (Qeq_sym _ _ K)).
  assert (Half : forall c, (2 * r ?= d)%Z = c ->
            match c with
            | Eq => inject_Z r / inject_Z d == 1 # 2
            | Lt => inject_Z r / inject_Z d < 1 # 2
            | Gt => 1 # 2 < inject_Z r / inject_Z d
            end).
  { intros c <-. destruct (Z.compare_spec (2 * r) d) as [E | L | G].
    - rewrite <- E, inject_Z_mult. field.
      intros Z0. rewrite <- E, inject_Z_mult in Dq. change (inject_Z 2) with 2 in *. lra.
    - apply Qlt_shift_div_r; [exact Dq |].
      rewrite Zlt_Qlt, inject_Z_mult in L. change (inject_Z 2) with 2 in L. lra.
    - apply Qlt_shift_div_l; [exact Dq |].
      rewrite Zlt_Qlt, inject_Z_mult in G. change (inject_Z 2) with 2 in G. lra. }
  assert (Frac : 0 <= inject_Z r / inject_Z d < 1).
  { split.
    - apply Qle_shift_div_l; [exact Dq |]. rewrite Qmult_0_l.
      change 0 with (inject_Z 0). rewrite <- Zle_Qle. lia.
    - apply Qlt_shift_div_r; [exact Dq |]. rewrite Qmult_1_l.
      rewrite <- Zlt_Qlt. lia. }
  assert (Pos : r <> 0%Z -> 0 < inject_Z r / inject_Z d).
  { intros N. apply Qlt_shift_div_l; [exact Dq |]. rewrite Qmult_0_l.
    change 0 with (inject_Z 0). rewrite <- Zlt_Qlt. lia. }
  unfold new_location, new_location_even, new_location_odd.
  destruct (Z.even d) eqn:Ev; cbv beta;
    (destruct (Z.eqb_spec r 0) as [-> | N];
     [cbn [located]; change (inject_Z 0) with 0; field; lra | specialize (Pos N)]).
  - pose proof (Half _ eq_refl) as H.
    destruct (2 * r ?= d)%Z; cbn [located]; [rewrite H; reflexivity | lra | lra].
  - assert (Odd : d = (2 * (d / 2) + 1)%Z).
    { rewrite (Z.div_mod d 2) at 1 by lia.
      rewrite Zmod_even, Ev. reflexivity. }
    pose proof (Half _ eq_refl) as H.
    destruct (Z.compare_spec (2 * r + 1) d) as [E | L | G];
      destruct (Z.compare_spec (2 * r) d) as [E' | L' | G'];
      try lia; cbn [located]; lra.
Qed.

Lemma Zdigits2_pow2 j : (0 <= j)%Z -> Zdigits2 (2 ^ j) = (j + 1)%Z.
Proof.
  intros Hj. apply Zdigits2_unique; [lia |].
  replace (j + 1 - 1)%Z with j by lia. rewrite Z.pow_add_r by lia. 
  pose proof (Z.pow_pos_nonneg 2 j ltac:(lia) Hj). lia.
Qed.

Lemma Zdigits2_nonneg m : (0 <= Zdigits2 m)%Z.
Proof. destruct m; cbn [Zdigits2]; lia. Qed.


(** Division. *)
Lemma div_correct x y :
  good x -> good y -> 0 < b64_value y ->
  fround (b64_value x / b64_value y) < pow2 1024 ->
  good (b64_div x y) /\
  b64_value (b64_div x y) == fround (b64_value x / b64_value y).
Proof.
  intros Gx Gy Hy Hfin.
  destruct Gy as [-> | (my & ey & -> & Cy)]; [cbn [b64_value] in Hy; lra |].
  destruct Gx as [-> | (mx & ex & -> & Cx)].
  - split; [left; reflexivity |].
    cbn [b64_div SFdiv b64_value xorb]. rewrite fround_zero; [reflexivity |].
    unfold Qdiv. ring.
  - unfold b64_div, SFdiv, SFdiv_core_binary. cbn [xorb].
    fold (sfexp (Zdigits2 (Z.pos mx) + ex - (Zdigits2 (Z.pos my) + ey))).
    set (d1 := Zdigits2 (Z.pos mx)). set (d2 := Zdigits2 (Z.pos my)).
    set (e' := Z.min (sfexp (d1 + ex - (d2 + ey))) (ex - ey)).
    set (s := (ex - ey - e')%Z).
    assert (Hs : (0 <= s)%Z) by (unfold s, e'; lia).
    set (m' := match s with
               | 0%Z => Z.pos mx
               | Z.pos _ => Z.shiftl (Z.pos mx) s
               | Z.neg _ => 0%Z
               end).
    assert (Hm' : m' = (Z.pos mx * 2 ^ s)%Z).
    { unfold m'. destruct s as [| p | p] eqn:Es; [lia | | lia].
      apply Z.shiftl_mul_pow2. lia. }
    pose proof (Z.pow_pos_nonneg 2 s ltac:(lia) Hs) as P2s.
    pose proof (Z_div_mod m' (Z.pos my) ltac:(lia)) as DM.
    change (IntDef.Z.div_eucl m' (Z.pos my)) with (Z.div_eucl m' (Z.pos my)).
    destruct (Z.div_eucl m' (Z.pos my)) as [q r]. destruct DM as [DM Hr].
    assert (Hq : (0 <= q)%Z) by nia.
    pose proof (pow2_pos ex) as Pex. pose proof (pow2_pos ey) as Pey.
    pose proof (pow2_pos e') as Pe'.
    assert (Pmy : 0 < inject_Z (Z.pos my)) by reflexivity.
    assert (Pmx : 0 < inject_Z (Z.pos mx)) by reflexivity.
    set (X := inject_Z m' / inject_Z (Z.pos my)).
    assert (HX : located q (new_location (Z.pos my) r) X).
    { unfold X. rewrite DM. replace (Z.pos my * q)%Z with (q * Z.pos my)%Z by lia.
      apply new_location_located; lia. }
    assert (PX : 0 < X).
    { unfold X. apply Qlt_shift_div_l; [exact Pmy |]. rewrite Qmult_0_l.
      change 0 with (inject_Z 0). rewrite <- Zlt_Qlt. lia. }
    assert (K : X * pow2 e'
                == b64_value (S754_finite false mx ex)
                   / b64_value (S754_finite false my ey)).
    { unfold X. cbn [b64_value]. rewrite Hm', inject_Z_mult, <- pow2_inject by lia.
      assert (Kex : pow2 ex == pow2 s * pow2 e' * pow2 ey).
      { rewrite <- !pow2_add. replace (s + e' + ey)%Z with ex by (unfold s; lia).
        reflexivity. }
      rewrite Kex. field. split; lra. }
    assert (HV : 0 <= X * pow2 e') by (apply Qmult_le_0_compat; lra).
    pose proof (fround_wd _ _ HV K) as FK.
    assert (He : (e' <= sfexp (Zdigits2 q + e'))%Z).
    { apply Z.le_trans with (sfexp (d1 + ex - (d2 + ey))); [unfold e'; lia |].
      apply sfexp_le.
      assert (Hd : (d1 + s - d2 <= Zdigits2 q)%Z).
      { pose proof (Zdigits2_nonneg q).
        destruct (Z_le_gt_dec (d1 + s - d2) 0) as [L | G]; [lia |].
        destruct (Zdigits2_Z_bounds (Z.pos mx) ltac:(lia)) as [[L1 _] D1].
        destruct (Zdigits2_Z_bounds (Z.pos my) ltac:(lia)) as [[_ U2] D2].
        fold d1 in L1, D1. fold d2 in U2, D2.
        assert (A : (2 ^ (d1 + s - d2 - 1) <= q)%Z).
        { assert (B : (2 ^ (d1 + s - d2 - 1) * 2 ^ d2 <= m')%Z).
          { rewrite <- Z.pow_add_r by lia.
            replace (d1 + s - d2 - 1 + d2)%Z with (d1 - 1 + s)%Z by lia.
            rewrite Z.pow_add_r by lia. rewrite Hm'. nia. }
          pose proof (Z.pow_pos_nonneg 2 (d1 + s - d2 - 1) ltac:(lia) ltac:(lia)).
          nia. }
        pose proof (Zdigits2_le (2 ^ (d1 + s - d2 - 1)) q
                      ltac:(split; [apply Z.pow_nonneg; lia | exact A])) as Dl.
        rewrite Zdigits2_pow2 in Dl by lia. lia. }
      unfold s in Hd. lia. }
    destruct (round_aux_correct q e' (new_location (Z.pos my) r) X Hq HX PX He
                ltac:(rewrite FK; exact Hfin)) as [G V].
    split; [exact G |]. rewrite V. exact FK.
Qed.

(** Multiplication. *)
Lemma mul_correct x y :
  good x -> good y ->
  fround (b64_value x * b64_value y) < pow2 1024 ->
  good (b64_mul x y) /\
  b64_value (b64_mul x y) == fround (b64_value x * b64_value y).
Proof.
  intros Gx Gy Hfin.
  destruct Gx as [-> | (mx & ex & -> & Cx)];
    destruct Gy as [-> | (my & ey & -> & Cy)];
    try (split; [left; reflexivity |];
         cbn [b64_mul SFmul b64_value xorb]; rewrite fround_zero;
         [reflexivity | ring]).
  unfold b64_mul, SFmul. cbn [xorb].
  pose proof (pow2_pos ex) as Pex. pose proof (pow2_pos ey) as Pey.
  assert (K : inject_Z (Z.pos (mx * my)) * pow2 (ex + ey)
              == b64_value (S754_finite false mx ex)
                 * b64_value (S754_finite false my ey)).
  { cbn [b64_value]. rewrite Pos2Z.inj_mul, inject_Z_mult, pow2_add. ring. }
  assert (HV : 0 <= inject_Z (Z.pos (mx * my)) * pow2 (ex + ey)).
  { apply Qmult_le_0_compat; [discriminate | apply Qlt_le_weak, pow2_pos]. }
  pose proof (fround_wd _ _ HV K) as FK.
  assert (He : (ex + ey <= sfexp (Zdigits2 (Z.pos (mx * my)) + (ex + ey)))%Z).
  { destruct (canonical_inv _ _ Cx) as (Ex & Dx & Nx).
    destruct (canonical_inv _ _ Cy) as (Ey & Dy & Ny).
    destruct (Zdigits2_Z_bounds (Z.pos mx) ltac:(lia)) as [[Lx _] _].
    destruct (Zdigits2_Z_bounds (Z.pos my) ltac:(lia)) as [[Ly _] _].
    set (dx := Zdigits2 (Z.pos mx)) in *. set (dy := Zdigits2 (Z.pos my)) in *.
    assert (A : (2 ^ (dx + dy - 2) <= Z.pos (mx * my))%Z).
    { replace (dx + dy - 2)%Z with ((dx - 1) + (dy - 1))%Z by lia.
      rewrite Z.pow_add_r, Pos2Z.inj_mul by lia.
      pose proof (Z.pow_pos_nonneg 2 (dx - 1) ltac:(lia) ltac:(lia)).
      pose proof (Z.pow_pos_nonneg 2 (dy - 1) ltac:(lia) ltac:(lia)).
      nia. }
    pose proof (Zdigits2_le (2 ^ (dx + dy - 2)) (Z.pos (mx * my))
                  ltac:(split; [apply Z.pow_nonneg; lia | exact A])) as Dl.
    rewrite Zdigits2_pow2 in Dl by lia.
    rewrite sfexp_eq. lia. }
  destruct (round_aux_correct (Z.pos (mx * my)) (ex + ey) loc_Exact
              (inject_Z (Z.pos (mx * my))) ltac:(lia)
              ltac:(cbn [located]; reflexivity) ltac:(reflexivity) He
              ltac:(rewrite FK; exact Hfin)) as [G V].
  split; [exact G |]. rewrite V. exact FK.
Qed.

Lemma shl_align_value m e e' :
  (e' <= e)%Z ->
  inject_Z (Z.pos (fst (shl_align m e e'))) * pow2 e'
  == inject_Z (Z.pos m) * pow2 e.
Proof.
  intros H. unfold shl_align.
  destruct (e' - e)%Z as [| d | d] eqn:D; cbn [fst].
  - replace e' with e by lia. reflexivity.
  - lia.
  - rewrite iter_xO, inject_Z_mult, <- pow2_inject by lia.
    replace e with (Z.pos d + e')%Z by lia. rewrite pow2_add. ring.
Qed.

(** Addition. *)
Lemma add_correct x y :
  good x -> good y ->
  fround (b64_value x + b64_value y) < pow2 1024 ->
  good (b64_add x y) /\
  b64_value (b64_add x y) == fround (b64_value x + b64_value y).
Proof.
  intros Gx Gy Hfin.
  pose proof (good_value_nonneg _ Gx) as Nx.
  pose proof (good_value_nonneg _ Gy) as Ny.
  pose proof (good_fround _ Gx) as Fx. pose proof (good_fround _ Gy) as Fy.
  destruct Gx as [-> | (mx & ex & -> & Cx)];
    destruct Gy as [-> | (my & ey & -> & Cy)].
  - split; [left; reflexivity |]. cbn [b64_add SFadd b64_value].
    rewrite fround_zero; [reflexivity | ring].
  - split; [right; exists my, ey; split; [reflexivity | exact Cy] |].
    cbn [b64_add SFadd]. rewrite <- Fy at 1.
    apply fround_wd; [exact Ny |]. cbn [b64_value]. ring.
  - split; [right; exists mx, ex; split; [reflexivity | exact Cx] |].
    cbn [b64_add SFadd]. rewrite <- Fx at 1.
    apply fround_wd; [exact Nx |]. cbn [b64_value]. ring.
  - unfold b64_add, SFadd. cbn [cond_Zopp].
    set (ez := Z.min ex ey).
    pose proof (shl_align_value mx ex ez ltac:(unfold ez; lia)) as Ax.
    pose proof (shl_align_value my ey ez ltac:(unfold ez; lia)) as Ay.
    set (a := Z.pos (fst (shl_align mx ex ez))) in *.
    set (b := Z.pos (fst (shl_align my ey ez))) in *.
    assert (K : inject_Z (a + b) * pow2 ez
                == b64_value (S754_finite false mx ex)
                   + b64_value (S754_finite false my ey)).
    { cbn [b64_value]. rewrite inject_Z_plus, <- Ax, <- Ay. ring. }
    assert (HV : 0 <= inject_Z (a + b) * pow2 ez) by (rewrite K; lra).
    pose proof (fround_wd _ _ HV K) as FK.
    destruct (normalize_correct (a + b) ez ltac:(unfold a, b; lia)
                ltac:(rewrite FK; exact Hfin)) as [G V].
    split; [exact G |]. rewrite V. exact FK.
Qed.

Lemma of_Z_correct n :
  (0 <= n)%Z -> float_of_int n < pow2 1024 ->
  good (b64_of_Z n) /\ b64_value (b64_of_Z n) == float_of_int n.
Proof.
  intros Hn Hfin. unfold float_of_int in *.
  assert (K : inject_Z n * pow2 0 == inject_Z n)
    by (change (pow2 0) with 1; ring).
  assert (HV : 0 <= inject_Z n * pow2 0).
  { rewrite K. change 0 with (inject_Z 0). rewrite <- Zle_Qle. exact Hn. }
  pose proof (fround_wd _ _ HV K) as FK.
  destruct (normalize_correct n 0 Hn ltac:(rewrite FK; exact Hfin)) as [G V].
  split; [exact G |]. unfold b64_of_Z. rewrite V. exact FK.
Qed.


(** Integers below [2 ^ 53] are floats. *)
Lemma float_of_int_exact n :
  (0 <= n < 2 ^ 53)%Z -> float_of_int n == inject_Z n.
Proof.
  intros [H0 H1]. unfold float_of_int.
  destruct (Z.eq_dec n 0%Z) as [-> | N]; [reflexivity |].
  assert (Hn : 0 < inject_Z n)
    by (change 0 with (inject_Z 0); rewrite <- Zlt_Qlt; lia).
  rewrite (fround_pos_eq _ Hn).
  set (E := fexp (inject_Z n)).
  assert (HE : (E <= 0)%Z).
  { unfold E, fexp. change (Qabs (inject_Z n)) with (inject_Z (Z.abs n)).
    rewrite Z.abs_eq by exact H0.
    destruct (ilog2_spec (inject_Z n) Hn) as [L _].
    assert (A : pow2 (ilog2 (inject_Z n)) < pow2 53).
    { rewrite (pow2_inject 53) by lia.
      apply Qle_lt_trans with (inject_Z n); [exact L |].
      rewrite <- Zlt_Qlt. exact H1. }
    apply pow2_lt_inv in A. unfold prec, emin. lia. }
  pose proof (pow2_pos E) as PE. pose proof (pow2_pos (- E)) as PE'.
  assert (I : pow2 E * pow2 (- E) == 1).
  { rewrite <- pow2_add. replace (E + - E)%Z with 0%Z by lia. reflexivity. }
  assert (K : inject_Z n / pow2 E == inject_Z (n * 2 ^ (- E))).
  { rewrite inject_Z_mult, <- pow2_inject by lia.
    apply Qmult_inj_r with (pow2 E); [lra |].
    transitivity (inject_Z n); [field; lra |].
    rewrite <- Qmult_assoc, (Qmult_comm (pow2 (- E))), I. ring. }
  rewrite (round_half_even_wd _ _ K), round_half_even_inject.
  rewrite inject_Z_mult, <- pow2_inject by lia.
  rewrite <- Qmult_assoc, (Qmult_comm (pow2 (- E))), I. ring.
Qed.

Lemma hms_parts_upper h m s f :
  in_range h m s f ->
  float_of_int (h * 3600 + m * 60) <= 362340 /\
  fround (inject_Z (s * 100 + f) / inject_Z 100) <= 100.
Proof.
  intros (Hh & Hm & Hs & Hf). split.
  - apply Qle_trans with (float_of_int 362340).
    + apply fround_le; by_integers.
    + apply Qle_by_computation. vm_compute. reflexivity.
  - apply Qle_trans with (fround (inject_Z 9999 / inject_Z 100)).
    + apply fround_le; [apply hundredths_nonneg; lia |].
      apply Qmult_le_compat_r; [by_integers | discriminate].
    + apply Qle_by_computation. vm_compute. reflexivity.
Qed.

Lemma small_is_finite x : x <= 3624400100 -> x < pow2 1024.
Proof.
  intros H. assert (Hbig : 3624400100 < pow2 1024) by (vm_compute; reflexivity).
  lra.
Qed.

Lemma hundred_correct :
  good (b64_of_Z 100) /\ b64_value (b64_of_Z 100) == float_of_int 100.
Proof.
  apply of_Z_correct; [lia |]. apply small_is_finite.
  apply Qle_by_computation. vm_compute. reflexivity.
Qed.

(** The binary64 computation of a time stamp yields the float of
    [hms_seconds]. *)
Theorem seconds_agreement h m s f :
  in_range h m s f ->
  good (b64_seconds h m s f) /\
  b64_value (b64_seconds h m s f) == hms_seconds h m s f.
Proof.
  intros Hr. pose proof Hr as (Hh & Hm & Hs & Hf).
  destruct (hms_parts_upper _ _ _ _ Hr) as [U1 U2].
  pose proof (hms_seconds_upper _ _ _ _ Hr) as U3.
  destruct hundred_correct as [G100 V100].
  assert (E100 : float_of_int 100 == inject_Z 100)
    by (apply float_of_int_exact; lia).
  destruct (of_Z_correct (h * 3600 + m * 60) ltac:(lia)
              ltac:(apply small_is_finite; lra)) as [G1 V1].
  destruct (of_Z_correct (s * 100 + f) ltac:(lia)) as [G2 V2].
  { apply small_is_finite.
    apply Qle_trans with (float_of_int 9999).
    - apply fround_le; by_integers.
    - apply Qle_by_computation. vm_compute. reflexivity. }
  assert (E2 : float_of_int (s * 100 + f) == inject_Z (s * 100 + f))
    by (apply float_of_int_exact; lia).
  assert (K : b64_value (b64_of_Z (s * 100 + f)) / b64_value (b64_of_Z 100)
              == inject_Z (s * 100 + f) / inject_Z 100)
    by (rewrite V2, V100, E2, E100; reflexivity).
  assert (N : 0 <= b64_value (b64_of_Z (s * 100 + f)) / b64_value (b64_of_Z 100)).
  { rewrite K. apply hundredths_nonneg. lia. }
  pose proof (fround_wd _ _ N K) as FK.
  destruct (div_correct (b64_of_Z (s * 100 + f)) (b64_of_Z 100) G2 G100) as [G3 V3].
  { rewrite V100, E100. reflexivity. }
  { rewrite FK. apply small_is_finite. lra. }
  assert (K' : b64_value (b64_of_Z (h * 3600 + m * 60))
               + b64_value (b64_div (b64_of_Z (s * 100 + f)) (b64_of_Z 100))
               == float_of_int (h * 3600 + m * 60)
                  + fround (inject_Z (s * 100 + f) / inject_Z 100))
    by (rewrite V1, V3, FK; reflexivity).
  assert (N' : 0 <= b64_value (b64_of_Z (h * 3600 + m * 60))
               + b64_value (b64_div (b64_of_Z (s * 100 + f)) (b64_of_Z 100))).
  { pose proof (good_value_nonneg _ G1). pose proof (good_value_nonneg _ G3). lra. }
  pose proof (fround_wd _ _ N' K') as FK'.
  unfold b64_seconds.
  destruct (add_correct _ _ G1 G3) as [G4 V4].
  { rewrite FK'. apply small_is_finite.
    unfold hms_seconds, float_add in U3. lra. }
  split; [exact G4 |]. rewrite V4. exact FK'.
Qed.

(** The binary64 computation of line 88 yields the float whose integer
    part [progress_formula] takes. *)
Theorem percent_agreement h m s f h' m' s' f' :
  in_range h m s f -> in_range h' m' s' f' ->
  0 < hms_seconds h' m' s' f' ->
  b64_value (b64_percent (b64_seconds h m s f) (b64_seconds h' m' s' f'))
  == float_mul (fround (hms_seconds h m s f / hms_seconds h' m' s' f'))
               (float_of_int 100).
Proof.
  intros Hr Hr' Hpos.
  destruct (seconds_agreement _ _ _ _ Hr) as [Gt Vt].
  destruct (seconds_agreement _ _ _ _ Hr') as [Gd Vd].
  destruct hundred_correct as [G100 V100].
  pose proof (hms_seconds_upper _ _ _ _ Hr) as Ut.
  pose proof (hms_seconds_nonneg _ _ _ _ Hr) as Nt.
  pose proof (hms_seconds_lower _ _ _ _ Hr' Hpos) as Ld.
  destruct (percent_upper _ _ Nt Ut Ld) as [U1 U2].
  set (t := hms_seconds h m s f) in *. set (d := hms_seconds h' m' s' f') in *.
  assert (K : b64_value (b64_seconds h m s f) / b64_value (b64_seconds h' m' s' f')
              == t / d) by (rewrite Vt, Vd; reflexivity).
  assert (N : 0 <= b64_value (b64_seconds h m s f)
                   / b64_value (b64_seconds h' m' s' f')).
  { rewrite K. apply ratio_nonneg; assumption. }
  pose proof (fround_wd _ _ N K) as FK.
  destruct (div_correct _ _ Gt Gd) as [Gq Vq].
  { rewrite Vd. exact Hpos. }
  { rewrite FK. apply small_is_finite. lra. }
  assert (K' : b64_value (b64_div (b64_seconds h m s f) (b64_seconds h' m' s' f'))
               * b64_value (b64_of_Z 100)
               == fround (t / d) * float_of_int 100)
    by (rewrite Vq, FK, V100; reflexivity).
  assert (N' : 0 <= b64_value (b64_div (b64_seconds h m s f)
                                       (b64_seconds h' m' s' f'))
                    * b64_value (b64_of_Z 100)).
  { apply Qmult_le_0_compat; apply good_value_nonneg; assumption. }
  pose proof (fround_wd _ _ N' K') as FK'.
  unfold b64_percent.
  destruct (mul_correct _ _ Gq G100) as [Gp Vp].
  { rewrite FK'. apply small_is_finite. exact U2. }
  rewrite Vp. exact FK'.
Qed.

End Agreement.

(** Some values, computed in both. *)

Example float_of_field_agrees :
  forallb (fun n => let cs := 5 * n + n mod 5 in
                    Qeq_bool (fround (inject_Z cs / inject_Z 100))
                             (b64_value (b64_div (b64_of_Z cs) (b64_of_Z 100))))
          (seqZ 0 200) = true.
Proof. vm_compute. reflexivity. Qed.

Example seconds_agree :
  forallb (fun n => Qeq_bool (hms_seconds (n mod 100) (n * 7 mod 100)
                                          (n * 3 mod 100) (n * 37 mod 100))
                             (b64_value (b64_seconds (n mod 100) (n * 7 mod 100)
                                                     (n * 3 mod 100) (n * 37 mod 100))))
          (seqZ 0 40) = true.
Proof. vm_compute. reflexivity. Qed.

Example percent_agrees :
  forallb (fun n =>
             Qeq_bool
               (float_mul (fround (hms_seconds 0 (n / 10) (n * 7 mod 60) (n * 37 mod 100)
                                   / hms_seconds 0 (n mod 3) (n mod 60) (1 + n mod 99)))
                          (float_of_int 100))
               (b64_value
                  (b64_percent (b64_seconds 0 (n / 10) (n * 7 mod 60) (n * 37 mod 100))
                               (b64_seconds 0 (n mod 3) (n mod 60) (1 + n mod 99)))))
          (seqZ 0 40) = true.
Proof. vm_compute. reflexivity. Qed.

(** Binary64 is not exact arithmetic: the percentage of 0.29 seconds out
    of 1 second is 28.999999999999996, which [int] truncates to 28. *)
Example percent_is_rounded :
  progress_formula (hms_seconds 0 0 0 29) (hms_seconds 0 0 1 0) = 28
  /\ Qfloor (((29 # 100) / 1) * 100) = 29.
Proof. vm_compute. split; reflexivity. Qed.

(** ** The two loops *)

Section Loops.

Lemma time_of_line_cases key line :
  (re_search key line = None /\
   forall o, time_of_line key line o = (o, inr None)) \/
  (exists h m s f,
      in_range h m s f /\ re_search key line = Some (groups h m s f) /\
      forall o, time_of_line key line o = (o, inr (Some (hms_seconds h m s f)))).
Proof.
  unfold time_of_line. destruct (re_search key line) as [g |] eqn:E.
  - right. apply re_search_Some in E as (pre & h & m & s & f & (Hr & _) & ->).
    exists h, m, s, f. split; [exact Hr |]. split; [reflexivity |].
    intros o. rewrite (bind_ok _ _ o o _ (seconds_of_groups h m s f o Hr)).
    reflexivity.
  - left. split; [reflexivity |]. intros o. reflexivity.
Qed.

(** The parser raises nothing and emits nothing. *)
Lemma time_of_line_total key line o :
  time_of_line key line o = (o, inr (seconds_in key line)).
Proof.
  unfold seconds_in.
  destruct (time_of_line_cases key line) as [[_ H] | (h & m & s & f & _ & _ & H)];
    rewrite (H start), (H o); reflexivity.
Qed.

Lemma seconds_in_nonneg key line t :
  seconds_in key line = Some t -> (0 <= t)%Q.
Proof.
  unfold seconds_in.
  destruct (time_of_line_cases key line) as [[_ H] | (h & m & s & f & Hr & _ & H)];
    rewrite (H start); [discriminate |].
  intros [= <-]. apply hms_seconds_nonneg, Hr.
Qed.

Lemma seconds_in_None key line :
  seconds_in key line = None <-> re_search key line = None.
Proof.
  unfold seconds_in.
  destruct (time_of_line_cases key line) as [[E H] | (h & m & s & f & Hr & E & H)];
    rewrite (H start), E; split; (reflexivity || discriminate).
Qed.

Lemma seconds_of_search key line g o :
  re_search key line = Some g ->
  exists t, seconds_in key line = Some t /\
            ConverterThread.seconds_of g o = (o, inr t).
Proof.
  intros E. pose proof (time_of_line_total key line o) as H.
  unfold time_of_line in H. rewrite E in H.
  apply re_search_Some in E as (pre & h & m & s & f & (Hr & _) & ->).
  rewrite (bind_ok _ _ o o _ (seconds_of_groups h m s f o Hr)) in H.
  exists (hms_seconds h m s f). split.
  - unfold mret, Py_ret in H. congruence.
  - apply seconds_of_groups, Hr.
Qed.

(** One turn of the loop over [process.stderr]. *)
Lemma read_duration_cons line rest o :
  ConverterThread.read_duration (line :: rest) o =
  match seconds_in duration_key line with
  | Some d => (o, inr (Some d, rest))
  | None => ConverterThread.read_duration rest o
  end.
Proof.
  cbn [ConverterThread.read_duration].
  destruct (re_search duration_key line) as [g |] eqn:E.
  - destruct (seconds_of_search _ _ _ o E) as (t & -> & Ht).
    rewrite (bind_ok _ _ o o t Ht). reflexivity.
  - apply seconds_in_None in E. rewrite E. reflexivity.
Qed.

(** One turn of the loop over [process.stdout]. *)
Lemma report_progress_cons self d line rest o :
  (0 < d)%Q ->
  ConverterThread.report_progress self d (line :: rest) o =
  match seconds_in out_time_key line with
  | Some t =>
      ConverterThread.report_progress self d rest
        (mkOut (signals o ++
                  [progress_updated (ConverterThread.input_file self)
                                    (progress_formula t d)])
               (console o))
  | None => ConverterThread.report_progress self d rest o
  end.
Proof.
  intros Hd. cbn [ConverterThread.report_progress].
  destruct (re_search out_time_key line) as [g |] eqn:E.
  - destruct (seconds_of_search _ _ _ o E) as (t & Et & Ht). rewrite Et.
    apply seconds_in_nonneg in Et.
    unfold mbind at 1. unfold Py_bind at 1.
    rewrite (bind_ok _ _ o o t Ht).
    rewrite (bind_ok _ _ o o _ (progress_of_formula t d o Et Hd)).
    reflexivity.
  - apply seconds_in_None in E. rewrite E. reflexivity.
Qed.

Lemma report_progress_signals self d lines : forall o,
  (0 < d)%Q ->
  ConverterThread.report_progress self d lines o =
  (mkOut (signals o ++
            map (fun t => progress_updated (ConverterThread.input_file self)
                                           (progress_formula t d))
                (current_times lines))
         (console o), inr tt).
Proof.
  induction lines as [| line rest IH]; intros o Hd.
  - cbn. rewrite app_nil_r. destruct o; reflexivity.
  - rewrite report_progress_cons by exact Hd. unfold current_times.
    cbn [omap list_omap]. fold (current_times rest).
    destruct (seconds_in out_time_key line) as [t |].
    + rewrite IH by exact Hd. cbn [signals console map].
      rewrite <- app_assoc. reflexivity.
    + apply IH, Hd.
Qed.

Lemma finish_signals self rc o :
  ConverterThread.finish self rc o =
  (mkOut (signals o ++ terminal_signals self rc)
         (console o ++ terminal_console self rc), inr tt).
Proof.
  unfold ConverterThread.finish, terminal_signals, terminal_console.
  unfold mbind, Py_bind, emit, print.
  destruct (rc =? 0); cbn [signals console];
    rewrite <- ?app_assoc, ?app_nil_r; reflexivity.
Qed.

End Loops.

(** ** The worker as a whole *)

Section Worker.

Lemma read_duration_first lines o :
  ConverterThread.read_duration lines o = (o, inr (first_duration lines)).
Proof.
  induction lines as [| line rest IH]; [reflexivity |].
  rewrite read_duration_cons. cbn [first_duration].
  destruct (seconds_in duration_key line); [reflexivity | exact IH].
Qed.

Lemma first_duration_nonneg lines d :
  fst (first_duration lines) = Some d -> (0 <= d)%Q.
Proof.
  induction lines as [| line rest IH]; [discriminate |].
  cbn [first_duration].
  destruct (seconds_in duration_key line) as [t |] eqn:E; [| exact IH].
  intros [= <-]. apply (seconds_in_nonneg _ _ _ E).
Qed.

(** Without a match the loop reads the whole stream and finds nothing. *)
Lemma first_duration_none lines :
  Forall (fun l => re_search duration_key l = None) lines ->
  first_duration lines = (None, []).
Proof.
  induction 1 as [| line rest H _ IH]; [reflexivity |].
  cbn [first_duration]. apply seconds_in_None in H. rewrite H. exact IH.
Qed.

(** The loop stops at the first line with a match. *)
Lemma first_duration_app pre line post d :
  Forall (fun l => re_search duration_key l = None) pre ->
  seconds_in duration_key line = Some d ->
  first_duration (pre ++ line :: post) = (Some d, post).
Proof.
  intros Hpre Hd. induction Hpre as [| l pre' H _ IH].
  - cbn [app first_duration]. rewrite Hd. reflexivity.
  - cbn [app first_duration]. apply seconds_in_None in H. rewrite H. exact IH.
Qed.

Lemma running_trace self p o :
  ConverterThread.running self p o =
  (mkOut (signals o ++
            running_signals self (fst (first_duration (stderr p))) (stdout p))
         (console o), inr tt).
Proof.
  unfold ConverterThread.running, running_signals.
  unfold mbind at 1. unfold Py_bind at 1. unfold emit at 1.
  rewrite (bind_ok _ _ _ _ _ (read_duration_first (stderr p) _)).
  pose proof (first_duration_nonneg (stderr p)) as Hnn.
  destruct (first_duration (stderr p)) as [[d |] rest]; cbn [fst] in *.
  - destruct (truthy (Some d)) eqn:Ht.
    + pose proof (truthy_positive d (Hnn d eq_refl) Ht) as Hd.
      unfold mbind, Py_bind, emit.
      rewrite report_progress_signals by exact Hd. cbn [signals console].
      rewrite <- !app_assoc. reflexivity.
    + unfold mret, Py_ret. cbn [signals console]. reflexivity.
  - unfold mret, Py_ret. cbn [signals console]. reflexivity.
Qed.

(** [run] never raises; its signals are those of the Running phase
    followed by those of the terminal transition. *)
Lemma run_trace self p o :
  ConverterThread.run self p o =
  (mkOut (signals o ++
            running_signals self (fst (first_duration (stderr p))) (stdout p)
            ++ terminal_signals self (returncode p))
         (console o ++ terminal_console self (returncode p)), inr tt).
Proof.
  unfold ConverterThread.run.
  rewrite (bind_ok _ _ _ _ _ (running_trace self p o)).
  rewrite finish_signals. cbn [signals console].
  rewrite <- app_assoc. reflexivity.
Qed.

Lemma progress_values_app (a b : list signal) :
  progress_values (a ++ b) = progress_values a ++ progress_values b.
Proof. unfold progress_values. apply omap_app. Qed.

Lemma progress_values_map self (f : Q -> Z) (ts : list Q) :
  progress_values
    (map (fun t => progress_updated (ConverterThread.input_file self) (f t)) ts)
  = map f ts.
Proof.
  induction ts as [| t ts IH]; [reflexivity |].
  cbn. unfold progress_values in IH. rewrite IH. reflexivity.
Qed.

Lemma progress_values_running self d lines :
  progress_values (running_signals self d lines) =
  match d with
  | Some x => if truthy d then map (fun t => progress_formula t x)
                                   (current_times lines)
              else []
  | None => []
  end.
Proof.
  unfold running_signals. destruct d as [x |]; [| reflexivity].
  destruct (truthy (Some x)); [| reflexivity].
  change (progress_values (?a :: ?b :: ?l)) with (progress_values l).
  apply progress_values_map.
Qed.

Lemma progress_values_terminal self rc :
  progress_values (terminal_signals self rc) =
  if rc =? 0 then [100] else [].
Proof. unfold terminal_signals. destruct (rc =? 0); reflexivity. Qed.

Lemma current_times_nonneg lines :
  Forall (fun t => (0 <= t)%Q) (current_times lines).
Proof.
  induction lines as [| line rest IH]; [constructor |].
  unfold current_times. cbn [omap list_omap]. fold (current_times rest).
  destruct (seconds_in out_time_key line) as [t |] eqn:E; [| exact IH].
  constructor; [apply (seconds_in_nonneg _ _ _ E) | exact IH].
Qed.

End Worker.

(** ** Claims about the worker *)

Section WorkerClaims.

Lemma progress_sorted d ts :
  (0 < d)%Q ->
  Forall (fun t => (0 <= t)%Q) ts ->
  StronglySorted Qle ts ->
  StronglySorted Z.le (map (fun t => progress_formula t d) ts).
Proof.
  intros Hd Hnn Hs. induction Hs as [| a l Hs IH Ha]; [constructor |].
  inversion Hnn as [| ? ? Ha0 Hl]; subst. cbn [map]. constructor.
  - apply IH, Hl.
  - clear IH Hs Hnn. induction Ha as [| b l Hab _ IHl]; [constructor |].
    inversion Hl; subst. cbn [map]. constructor.
    + apply progress_formula_le; assumption.
    + apply IHl. assumption.
Qed.

Lemma progress_in_range d ts :
  (0 < d)%Q ->
  Forall (fun t => (0 <= t)%Q) ts ->
  Forall (fun v => 0 <= v <= 99) (map (fun t => progress_formula t d) ts).
Proof.
  intros Hd Hnn. induction Hnn as [| t l Ht _ IH]; [constructor |].
  cbn [map]. constructor; [apply progress_formula_range; assumption | exact IH].
Qed.

Lemma first_duration_of_read lines o d rest :
  ConverterThread.read_duration lines o = (o, inr (Some d, rest)) ->
  first_duration lines = (Some d, rest).
Proof. rewrite read_duration_first. congruence. Qed.

End WorkerClaims.



Section ParserFacts.

Lemma seconds_in_leftmost key line pre h m s f :
  leftmost key line pre h m s f ->
  seconds_in key line = Some (hms_seconds h m s f).
Proof.
  intros [Hocc Hleft].
  pose proof (re_search_leftmost key pre line h m s f Hocc Hleft) as E.
  pose proof (time_of_line_total key line start) as H.
  unfold time_of_line in H. rewrite E in H.
  rewrite (bind_ok _ _ _ _ _ (seconds_of_groups h m s f start (proj1 Hocc))) in H.
  unfold mret, Py_ret in H. congruence.
Qed.

Lemma seconds_in_no_match key line :
  ~ matches key line -> seconds_in key line = None.
Proof. intros H. apply seconds_in_None, re_search_None, H. Qed.

Lemma report_progress_skip self d line rest o :
  re_search out_time_key line = None ->
  ConverterThread.report_progress self d (line :: rest) o =
  ConverterThread.report_progress self d rest o.
Proof.
  intros E. cbn [ConverterThread.report_progress]. rewrite E. reflexivity.
Qed.

End ParserFacts.

(** ** How far a rounded time stamp is from the exact one *)

Section Accuracy.

Local Open Scope Q_scope.

(** Rounding to the nearest integer moves a number by a half at most. *)
Lemma round_half_even_error y :
  Qabs (inject_Z (round_half_even y) - y) <= 1 # 2.
Proof.
  pose proof (Qfloor_le y) as Lo. pose proof (Qlt_floor y) as Hi.
  rewrite inject_Z_plus in Hi. change (inject_Z 1) with 1 in Hi.
  apply Qabs_Qle_condition. unfold round_half_even.
  destruct (Qcompare_spec (y - inject_Z (Qfloor y)) (1 # 2)) as [E | L | G].
  - destruct (Z.even (Qfloor y)); rewrite ?inject_Z_plus;
      change (inject_Z 1) with 1; split; lra.
  - split; lra.
  - rewrite inject_Z_plus. change (inject_Z 1) with 1. split; lra.
Qed.

(** Rounding to binary64 moves a number by half a unit in the last
    place at most. *)
Lemma fround_error x :
  0 < x -> Qabs (fround x - x) <= (1 # 2) * pow2 (fexp x).
Proof.
  intros Hx. pose proof (pow2_pos (fexp x)) as P.
  pose proof (fround_pos_eq x Hx) as E.
  pose proof (round_half_even_error (x / pow2 (fexp x))) as R.
  apply Qabs_Qle_condition in R as [R1 R2].
  set (r := inject_Z (round_half_even (x / pow2 (fexp x)))) in *.
  assert (Ex : x == x / pow2 (fexp x) * pow2 (fexp x)) by (field; lra).
  set (y := x / pow2 (fexp x)) in *. set (p := pow2 (fexp x)) in *.
  apply Qabs_Qle_condition. rewrite E.
  assert (A : (r - y) * p <= (1 # 2) * p)
    by (apply Qmult_le_compat_r; lra).
  assert (B : - (1 # 2) * p <= (r - y) * p)
    by (apply Qmult_le_compat_r; lra).
  split; lra.
Qed.

(** The exponent of the last place below a power of two. *)
Lemma fexp_upper x k :
  0 < x -> x < pow2 k -> (emin <= k - 53)%Z -> (fexp x <= k - 53)%Z.
Proof.
  intros Hx Hk He. destruct (fexp_bracket x Hx) as [_ B].
  destruct (Z_le_gt_dec (fexp x) (k - 53)) as [L | G]; [exact L | exfalso].
  specialize (B ltac:(lia)).
  assert (A : pow2 (fexp x + 52) < pow2 k) by lra.
  apply pow2_lt_inv in A. lia.
Qed.

Lemma fround_error_below x k :
  0 <= x -> x < pow2 k -> (emin <= k - 53)%Z ->
  Qabs (fround x - x) <= pow2 (k - 54).
Proof.
  intros H0 Hk He.
  destruct (Qlt_le_dec 0 x) as [Hx | Hz].
  - apply Qle_trans with ((1 # 2) * pow2 (fexp x)); [apply fround_error, Hx |].
    pose proof (pow2_le _ _ (fexp_upper x k Hx Hk He)) as M.
    assert (S : pow2 (k - 53) == 2 * pow2 (k - 54)).
    { rewrite <- pow2_succ. replace (k - 54 + 1)%Z with (k - 53)%Z by lia.
      reflexivity. }
    lra.
  - assert (E : x == 0) by lra. rewrite (fround_zero x E).
    pose proof (pow2_pos (k - 54)) as P.
    apply Qabs_Qle_condition. split; lra.
Qed.

(** The seconds of a time stamp are within [2 ^ -34] of
    [hours*3600 + minutes*60 + SS.ff]. *)
Lemma seconds_accuracy h m s f :
  in_range h m s f ->
  Qabs (hms_seconds h m s f - exact_seconds h m s f) <= 1 # 2 ^ 34.
Proof.
  intros Hr. pose proof Hr as (Hh & Hm & Hs & Hf).
  destruct (hms_parts_upper h m s f Hr) as [Ua Ub].
  pose proof (float_of_int_nonneg (h * 3600 + m * 60) ltac:(lia)) as Na.
  pose proof (float_of_field_nonneg (s * 100 + f) ltac:(lia)) as Nb.
  pose proof (float_of_int_exact (h * 3600 + m * 60) ltac:(lia)) as Ea.
  pose proof (hundredths_nonneg (s * 100 + f) ltac:(lia)) as Nq.
  assert (Uq : inject_Z (s * 100 + f) / inject_Z 100 < pow2 7).
  { apply Qlt_shift_div_r; [reflexivity |].
    change (pow2 7 * inject_Z 100) with (inject_Z 12800).
    rewrite <- Zlt_Qlt. lia. }
  pose proof (fround_error_below _ 7 Nq Uq ltac:(unfold emin; lia)) as Eb.
  unfold hms_seconds, float_add, exact_seconds.
  set (a := float_of_int (h * 3600 + m * 60)) in *.
  set (q := inject_Z (s * 100 + f) / inject_Z 100) in *.
  set (b := fround q) in *.
  assert (Us : a + b < pow2 19).
  { assert (K : pow2 19 == 524288) by reflexivity. lra. }
  pose proof (fround_error_below (a + b) 19 ltac:(lra) Us
                ltac:(unfold emin; lia)) as Es.
  apply Qabs_Qle_condition in Eb as [Eb1 Eb2].
  apply Qabs_Qle_condition in Es as [Es1 Es2].
  assert (K1 : pow2 (7 - 54) == 1 # 2 ^ 47) by reflexivity.
  assert (K2 : pow2 (19 - 54) == 1 # 2 ^ 35) by reflexivity.
  assert (K3 : (1 # 2 ^ 35) + (1 # 2 ^ 47) <= 1 # 2 ^ 34) by (vm_compute; discriminate).
  apply Qabs_Qle_condition. split; lra.
Qed.

(** A time stamp of whole seconds is worth exactly its seconds. *)
Lemma seconds_whole h m s :
  in_range h m s 0 ->
  hms_seconds h m s 0 == inject_Z (h * 3600 + m * 60 + s).
Proof.
  intros (Hh & Hm & Hs & _). unfold hms_seconds, float_add.
  assert (Eq : inject_Z (s * 100 + 0) / inject_Z 100 == inject_Z s).
  { rewrite Z.add_0_r, inject_Z_mult. field. }
  pose proof (fround_wd _ _ (hundredths_nonneg (s * 100 + 0) ltac:(lia)) Eq) as Eb.
  pose proof (float_of_int_exact s ltac:(lia)) as Es. unfold float_of_int in Es.
  pose proof (float_of_int_exact (h * 3600 + m * 60) ltac:(lia)) as Ea.
  pose proof (float_of_int_nonneg (h * 3600 + m * 60) ltac:(lia)) as Na.
  pose proof (float_of_field_nonneg (s * 100 + 0) ltac:(lia)) as Nb.
  assert (E : float_of_int (h * 3600 + m * 60)
              + fround (inject_Z (s * 100 + 0) / inject_Z 100)
              == inject_Z (h * 3600 + m * 60 + s)).
  { rewrite Ea, Eb, Es, <- inject_Z_plus. reflexivity. }
  assert (N : 0 <= float_of_int (h * 3600 + m * 60)
                   + fround (inject_Z (s * 100 + 0) / inject_Z 100)) by lra.
  rewrite (fround_wd _ _ N E).
  apply (float_of_int_exact (h * 3600 + m * 60 + s)). lia.
Qed.

End Accuracy.

Section Extracted.

Local Open Scope Q_scope.

(** The seconds that the loops extract, against binary64 as the Standard
    Library has it and against exact arithmetic. *)
Lemma hms_seconds_pinned h m s f :
  in_range h m s f ->
  hms_seconds h m s f == b64_value (b64_seconds h m s f)
  /\ Qabs (hms_seconds h m s f - exact_seconds h m s f) <= 1 # 2 ^ 34
  /\ (f = 0%Z -> hms_seconds h m s f == inject_Z (h * 3600 + m * 60 + s)).
Proof.
  intros Hr. split; [| split].
  - destruct (seconds_agreement h m s f Hr) as [_ E]. rewrite E. reflexivity.
  - apply seconds_accuracy, Hr.
  - intros ->. apply seconds_whole, Hr.
Qed.

End Extracted.

(** C6: from a line that carries [Duration: HH:MM:SS.ff], or
    [out_time=HH:MM:SS.ff], the loops extract the seconds of the leftmost
    such time stamp, as [re.search] finds it.  The value is
    [hours*3600 + minutes*60 + float("SS.ff")] in binary64: it is the
    number that the Standard Library's binary64 addition and division
    give, it lies within [2 ^ -34] of [hours*3600 + minutes*60 + SS.ff]
    in exact arithmetic, and it is that number exactly when the fraction
    is [00].  A line that carries neither pattern is passed over: no
    event, no exception. *)
Theorem time_stamp_to_seconds (line : string) :
  (forall pre h m s f rest o,
      leftmost duration_key line pre h m s f ->
      exists duration : Q,
        ConverterThread.read_duration (line :: rest) o =
        (o, inr (Some duration, rest))
        /\ (duration == b64_value (b64_seconds h m s f))%Q
        /\ (Qabs (duration - exact_seconds h m s f) <= 1 # 2 ^ 34)%Q
        /\ (f = 0 ->
            (duration == inject_Z (h * 3600 + m * 60 + s))%Q))
  /\ (forall pre h m s f self d rest o,
      leftmost out_time_key line pre h m s f ->
      (0 < d)%Q ->
      exists current_time : Q,
        ConverterThread.report_progress self d (line :: rest) o =
        ConverterThread.report_progress self d rest
          (mkOut (signals o ++
                    [progress_updated (ConverterThread.input_file self)
                       (progress_formula current_time d)])
                 (console o))
        /\ (current_time == b64_value (b64_seconds h m s f))%Q
        /\ (Qabs (current_time - exact_seconds h m s f) <= 1 # 2 ^ 34)%Q
        /\ (f = 0 ->
            (current_time == inject_Z (h * 3600 + m * 60 + s))%Q))
  /\ (~ matches duration_key line ->
      forall rest o,
        ConverterThread.read_duration (line :: rest) o =
        ConverterThread.read_duration rest o)
  /\ (~ matches out_time_key line ->
      forall self d rest o,
        ConverterThread.report_progress self d (line :: rest) o =
        ConverterThread.report_progress self d rest o).
Proof.
  split; [| split; [| split]].
  - intros pre h m s f rest o Hl. exists (hms_seconds h m s f). split.
    + rewrite read_duration_cons.
      rewrite (seconds_in_leftmost _ _ _ _ _ _ _ Hl). reflexivity.
    + apply hms_seconds_pinned. exact (proj1 (proj1 Hl)).
  - intros pre h m s f self d rest o Hl Hd. exists (hms_seconds h m s f). split.
    + rewrite report_progress_cons by exact Hd.
      rewrite (seconds_in_leftmost _ _ _ _ _ _ _ Hl). reflexivity.
    + apply hms_seconds_pinned. exact (proj1 (proj1 Hl)).
  - intros Hno rest o. rewrite read_duration_cons.
    rewrite (seconds_in_no_match _ _ Hno). reflexivity.
  - intros Hno self d rest o. apply report_progress_skip, re_search_None, Hno.
Qed.

Lemma time_stamp_to_seconds_witness :
  leftmost duration_key "Duration: 01:02:03.45, start: 0.000000" "" 1 2 3 45
  /\ exists duration : Q,
       ConverterThread.read_duration
         ["Duration: 01:02:03.45, start: 0.000000"; "Stream #0:0"] start =
       (start, inr (Some duration, ["Stream #0:0"]))
       /\ (duration == 4093976570442547 # 1099511627776)%Q
       /\ (Qabs (duration - (372345 # 100)) <= 1 # 2 ^ 34)%Q.
Proof.
  assert (H : leftmost duration_key "Duration: 01:02:03.45, start: 0.000000"
                "" 1 2 3 45).
  { split.
    - split; [unfold in_range; lia |]. exists ", start: 0.000000". reflexivity.
    - intros pre' h' m' s' f' _. simpl. lia. }
  split; [exact H |].
  destruct (proj1 (time_stamp_to_seconds "Duration: 01:02:03.45, start: 0.000000")
              "" 1 2 3 45 ["Stream #0:0"] start H)
    as (duration & Hread & Hb64 & Hexact & _).
  exists duration. split; [exact Hread |]. split.
  - rewrite Hb64. vm_compute. reflexivity.
  - assert (E : (exact_seconds 1 2 3 45 == 372345 # 100)%Q)
      by (vm_compute; reflexivity).
    rewrite <- E. exact Hexact.
Defined.

(** C7: the duration is read once, from the first diagnostic line with a
    match; the lines after it are left unread and have no influence on the
    job, and every progress value of the job is computed from that one
    duration. *)
Theorem duration_read_once
    (pre : list string) (line : string) (post : list string)
    (g : string * string * string) :
  Forall (fun l => re_search duration_key l = None) pre ->
  re_search duration_key line = Some g ->
  exists d,
    (forall o, ConverterThread.seconds_of g o = (o, inr d))
    /\ (forall o, ConverterThread.read_duration (pre ++ line :: post) o =
                  (o, inr (Some d, post)))
    /\ (forall self out rc o,
          ConverterThread.run self (mkProcess (pre ++ line :: post) out rc) o =
          ConverterThread.run self (mkProcess (pre ++ [line]) out rc) o)
    /\ (forall self out rc,
          truthy (Some d) = true ->
          progress_values
            (signals (fst (ConverterThread.running self
                             (mkProcess (pre ++ line :: post) out rc) start))) =
          map (fun t => progress_formula t d) (current_times out)).
Proof.
  intros Hpre Hline.
  destruct (seconds_of_search _ _ _ start Hline) as (d & Ed & _).
  exists d. repeat split.
  - intros o. destruct (seconds_of_search _ _ _ o Hline) as (d' & Ed' & H).
    congruence.
  - intros o. rewrite read_duration_first.
    rewrite (first_duration_app pre line post d Hpre Ed). reflexivity.
  - intros self out rc o. rewrite !run_trace. cbn [stderr stdout returncode].
    rewrite (first_duration_app pre line post d Hpre Ed).
    rewrite (first_duration_app pre line [] d Hpre Ed). reflexivity.
  - intros self out rc Ht. rewrite running_trace.
    cbn [signals fst app stderr stdout start].
    rewrite (first_duration_app pre line post d Hpre Ed). cbn [fst].
    rewrite progress_values_running, Ht. reflexivity.
Qed.

Lemma duration_read_once_witness :
  exists d,
    (forall o, ConverterThread.seconds_of ("00", "02", "00.00") o = (o, inr d))
    /\ (forall o, ConverterThread.read_duration sample_stderr o =
                  (o, inr (Some d, [later_line])))
    /\ (forall self out rc o,
          ConverterThread.run self (mkProcess sample_stderr out rc) o =
          ConverterThread.run self
            (mkProcess [input_line;
                        duration_line]
                       out rc) o)
    /\ (forall self out rc,
          truthy (Some d) = true ->
          progress_values
            (signals (fst (ConverterThread.running self
                             (mkProcess sample_stderr out rc) start))) =
          map (fun t => progress_formula t d) (current_times out)).
Proof.
  apply (duration_read_once
           [input_line]
           duration_line
           [later_line]
           ("00", "02", "00.00")).
  - repeat constructor.
  - vm_compute. reflexivity.
Defined.

(** C8: when no diagnostic line carries a duration, no progress
    percentage is ever computed: the Running phase emits its opening
    status and nothing else, and the job goes directly from Running to its
    terminal state when the process exits.  The only progress value of
    such a job is the 100 that belongs to the terminal transition after
    exit code 0 (line 93); after another exit code there is none. *)
Theorem no_duration_no_progress (self : ConverterThread.t) (p : Process) :
  Forall (fun l => re_search duration_key l = None) (stderr p) ->
  ConverterThread.running self p start =
    (mkOut [status_updated (ConverterThread.input_file self)
                           "Starting conversion..."] [], inr tt)
  /\ progress_values (signals (fst (ConverterThread.running self p start))) = []
  /\ ConverterThread.run self p start =
       (mkOut (status_updated (ConverterThread.input_file self)
                              "Starting conversion..."
               :: terminal_signals self (returncode p))
              (terminal_console self (returncode p)), inr tt)
  /\ progress_values (signals (fst (ConverterThread.run self p start))) =
     (if returncode p =? 0 then [100] else []).
Proof.
  intros Hno. pose proof (first_duration_none _ Hno) as E.
  rewrite running_trace, run_trace, E. cbn [fst signals console start app].
  unfold running_signals. repeat split; try reflexivity.
  change (progress_values (?a :: ?l)) with (progress_values l).
  apply progress_values_terminal.
Qed.

Lemma no_duration_no_progress_witness :
  Forall (fun l => re_search duration_key l = None)
         ["Input #0, matroska, from 'pipe:':"; "Duration: N/A, bitrate: N/A"]
  /\ ConverterThread.run sample_thread
       (mkProcess ["Input #0, matroska, from 'pipe:':";
                   "Duration: N/A, bitrate: N/A"] sample_stdout 1) start =
     (mkOut [status_updated "foo.mp4" "Starting conversion...";
             status_updated "foo.mp4" "Error"]
            ["Error converting foo.mp4"], inr tt).
Proof.
  assert (H : Forall (fun l => re_search duration_key l = None)
                ["Input #0, matroska, from 'pipe:':";
                 "Duration: N/A, bitrate: N/A"])
    by (repeat constructor).
  split; [exact H |].
  exact (proj1 (proj2 (proj2 (no_duration_no_progress sample_thread
           (mkProcess ["Input #0, matroska, from 'pipe:':";
                       "Duration: N/A, bitrate: N/A"] sample_stdout 1) H)))).
Defined.

(** C9: the progress values of the Running phase lie in [0, 99]; they do
    not decrease when the [CurrentTime] values of the progress stream do
    not decrease; and the only further progress value of the job is the
    100 of the terminal transition after exit code 0. *)
Theorem progress_monotone_and_clamped (self : ConverterThread.t) (p : Process) :
  let running :=
    progress_values (signals (fst (ConverterThread.running self p start))) in
  Forall (fun v => 0 <= v <= 99) running
  /\ (StronglySorted Qle (current_times (stdout p)) ->
      StronglySorted Z.le running)
  /\ progress_values (signals (fst (ConverterThread.run self p start))) =
     running ++ (if returncode p =? 0 then [100] else []).
Proof.
  cbv zeta. rewrite running_trace, run_trace.
  cbn [signals fst app start].
  rewrite !progress_values_app, progress_values_running, progress_values_terminal.
  pose proof (first_duration_nonneg (stderr p)) as Hnn.
  pose proof (current_times_nonneg (stdout p)) as Hts.
  destruct (fst (first_duration (stderr p))) as [d |];
    [destruct (truthy (Some d)) eqn:Ht |].
  - pose proof (truthy_positive d (Hnn d eq_refl) Ht) as Hd.
    split; [apply progress_in_range; assumption |].
    split; [intros Hs; apply progress_sorted; assumption | reflexivity].
  - split; [constructor |]. split; [constructor | reflexivity].
  - split; [constructor |]. split; [constructor | reflexivity].
Qed.

Lemma progress_monotone_and_clamped_witness :
  StronglySorted Qle (current_times (stdout (sample_process 0)))
  /\ StronglySorted Z.le
       (progress_values
          (signals (fst (ConverterThread.running sample_thread
                           (sample_process 0) start)))).
Proof.
  assert (H : StronglySorted Qle (current_times (stdout (sample_process 0)))).
  { vm_compute current_times.
    repeat (constructor; try (unfold Qle; simpl; lia)). }
  split; [exact H |].
  apply (proj1 (proj2 (progress_monotone_and_clamped sample_thread
                         (sample_process 0))) H).
Defined.

(** C10: a first match [Duration: 00:00:00.00] is a duration of zero,
    which the guard of line 79 treats as no duration at all: the job runs
    as if the diagnostic stream had no match.  The guard lets only
    positive durations through, and [run] raises no exception, so no
    division by zero happens. *)
Theorem zero_duration_is_no_duration :
  (forall self pre line post out rc,
      Forall (fun l => re_search duration_key l = None) pre ->
      re_search duration_key line = Some (groups 0 0 0 0) ->
      ConverterThread.run self (mkProcess (pre ++ line :: post) out rc) start =
      ConverterThread.run self (mkProcess [] out rc) start
      /\ progress_values
           (signals (fst (ConverterThread.running self
                            (mkProcess (pre ++ line :: post) out rc) start)))
         = [])
  /\ (forall lines o d rest,
      ConverterThread.read_duration lines o = (o, inr (Some d, rest)) ->
      truthy (Some d) = true -> (0 < d)%Q)
  /\ (forall self p o, snd (ConverterThread.run self p o) = inr tt)
  /\ (forall t d o,
      (0 < d)%Q ->
      ConverterThread.progress_of t d o <> (o, inl ZeroDivisionError)).
Proof.
  repeat split.
  - rewrite !run_trace. cbn [stderr stdout returncode].
    assert (E : seconds_in duration_key line = Some (hms_seconds 0 0 0 0)).
    { destruct (seconds_of_search _ _ _ start H0) as (t & Et & Hs).
      rewrite seconds_of_groups in Hs by (unfold in_range; lia). congruence. }
    rewrite (first_duration_app pre line post _ H E). reflexivity.
  - rewrite running_trace. cbn [signals fst app stderr stdout start].
    assert (E : seconds_in duration_key line = Some (hms_seconds 0 0 0 0)).
    { destruct (seconds_of_search _ _ _ start H0) as (t & Et & Hs).
      rewrite seconds_of_groups in Hs by (unfold in_range; lia). congruence. }
    rewrite (first_duration_app pre line post _ H E). reflexivity.
  - intros lines o d rest Hread Ht.
    apply first_duration_of_read in Hread.
    apply truthy_positive; [| exact Ht].
    apply (first_duration_nonneg lines). rewrite Hread. reflexivity.
  - intros self p o. rewrite run_trace. reflexivity.
  - intros t d o Hd. unfold ConverterThread.progress_of, float_div.
    destruct (Qeq_bool d 0) eqn:E.
    { apply Qeq_bool_iff in E. lra. }
    unfold mbind, Py_bind, mret, Py_ret. discriminate.
Qed.

Lemma zero_duration_is_no_duration_witness :
  ConverterThread.run sample_thread
    (mkProcess ["Input #0"; "  Duration: 00:00:00.00, bitrate: N/A";
                "  Duration: 00:02:00.00"] sample_stdout 0) start =
  ConverterThread.run sample_thread (mkProcess [] sample_stdout 0) start.
Proof.
  apply (proj1 zero_duration_is_no_duration sample_thread ["Input #0"]
           "  Duration: 00:00:00.00, bitrate: N/A" ["  Duration: 00:02:00.00"]
           sample_stdout 0).
  - repeat constructor.
  - vm_compute. reflexivity.
Defined.

(** ** The slots of the window *)

Section Slots.

Import MainWindow.

Lemma update_progress_files filename progress w :
  disk (update_progress filename progress w) = disk w /\
  log_file (update_progress filename progress w) = log_file w.
Proof.
  unfold update_progress. destruct (progress_frames w !! filename); split; reflexivity.
Qed.

Lemma update_status_files filename status w :
  disk (update_status filename status w) = disk w /\
  log_file (update_status filename status w) = log_file w.
Proof.
  unfold update_status. destruct (progress_frames w !! filename); split; reflexivity.
Qed.

(** Signals other than [conversion_finished] leave the files alone. *)
Lemma deliver_all_files clock ss : forall i w,
  completions ss = [] ->
  disk (deliver_all clock i ss w) = disk w /\
  log_file (deliver_all clock i ss w) = log_file w.
Proof.
  induction ss as [| s ss IH]; intros i w Hc; [split; reflexivity |].
  cbn [deliver_all]. destruct s as [fn pr | a b | fn st]; cbn in Hc.
  - destruct (IH (S i) (deliver (clock i) (progress_updated fn pr) w) Hc) as [-> ->].
    apply update_progress_files.
  - discriminate Hc.
  - destruct (IH (S i) (deliver (clock i) (status_updated fn st) w) Hc) as [-> ->].
    apply update_status_files.
Qed.

Lemma deliver_all_app clock a b : forall i w,
  deliver_all clock i (a ++ b) w =
  deliver_all clock (i + length a) b (deliver_all clock i a w).
Proof.
  induction a as [| s a IH]; intros i w.
  - cbn. rewrite Nat.add_0_r. reflexivity.
  - cbn [app deliver_all length]. rewrite IH. f_equal. lia.
Qed.

Lemma completions_app (a b : list signal) :
  completions (a ++ b) = completions a ++ completions b.
Proof. unfold completions. apply omap_app. Qed.

Lemma completions_running self d lines :
  completions (running_signals self d lines) = [].
Proof.
  unfold running_signals. destruct d as [x |]; [| reflexivity].
  destruct (truthy (Some x)); [| reflexivity].
  change (completions (?a :: ?b :: ?l)) with (completions l).
  induction (current_times lines) as [| t ts IH]; [reflexivity | exact IH].
Qed.

End Slots.

(** C3: after exit code 0 the worker ends with progress 100, the status
    "Completed" and the completion signal for (source, destination), its
    only completion signal; the window then appends the one line
    [<timestamp>: <source> -> <destination>] to its log file. *)
Theorem completed_job_is_logged
    (clock : nat -> string) (self : ConverterThread.t) (p : Process)
    (w : MainWindow.t) :
  returncode p = 0 ->
  exists before,
    ConverterThread.run self p start =
      (mkOut (before ++
                [progress_updated (ConverterThread.input_file self) 100;
                 status_updated (ConverterThread.input_file self) "Completed";
                 conversion_finished (ConverterThread.input_file self)
                                     (ConverterThread.output_file self)])
             [], inr tt)
    /\ completions before = []
    /\ exists w',
        MainWindow.job clock self p w = inr w'
        /\ MainWindow.log_file w' = MainWindow.log_file w
        /\ MainWindow.disk w' =
           <[MainWindow.log_file w :=
               default "" (MainWindow.disk w !! MainWindow.log_file w)
               +:+ log_line (clock (length before + 2)%nat)
                            (ConverterThread.input_file self)
                            (ConverterThread.output_file self)]>
             (MainWindow.disk w).
Proof.
  intros Hrc.
  exists (running_signals self (fst (first_duration (stderr p))) (stdout p)).
  pose proof (completions_running self (fst (first_duration (stderr p))) (stdout p))
    as Hc.
  assert (Hrun : ConverterThread.run self p start =
    (mkOut (running_signals self (fst (first_duration (stderr p))) (stdout p) ++
              [progress_updated (ConverterThread.input_file self) 100;
               status_updated (ConverterThread.input_file self) "Completed";
               conversion_finished (ConverterThread.input_file self)
                                   (ConverterThread.output_file self)])
           [], inr tt)).
  { rewrite run_trace. unfold terminal_signals, terminal_console.
    rewrite Hrc. reflexivity. }
  split; [exact Hrun |]. split; [exact Hc |].
  unfold MainWindow.job. rewrite Hrun. cbn [signals].
  eexists. split; [reflexivity |].
  rewrite deliver_all_app. cbn [MainWindow.deliver_all MainWindow.deliver Nat.add].
  set (w1 := MainWindow.deliver_all clock 0 _ w).
  destruct (deliver_all_files clock _ 0 w Hc) as [Hd Hl]. fold w1 in Hd, Hl.
  set (w2 := MainWindow.update_progress _ _ w1).
  destruct (update_progress_files (ConverterThread.input_file self) 100 w1)
    as [Hd2 Hl2]. fold w2 in Hd2, Hl2.
  set (w3 := MainWindow.update_status _ _ w2).
  destruct (update_status_files (ConverterThread.input_file self) "Completed" w2)
    as [Hd3 Hl3]. fold w3 in Hd3, Hl3.
  cbn [MainWindow.on_thread_finished MainWindow.on_conversion_finished
       MainWindow.log_file MainWindow.disk].
  rewrite Hl3, Hd3, Hl2, Hd2, Hl, Hd. split; [reflexivity |].
  unfold log_line. rewrite (Nat.add_comm _ 2). reflexivity.
Qed.

Lemma completed_job_is_logged_witness :
  exists before,
    ConverterThread.run sample_thread (sample_process 0) start =
      (mkOut (before ++
                [progress_updated "foo.mp4" 100;
                 status_updated "foo.mp4" "Completed";
                 conversion_finished "foo.mp4" "foo.mkv"]) [], inr tt)
    /\ completions before = []
    /\ exists w',
        MainWindow.job (fun i => pretty i) sample_thread (sample_process 0)
          (MainWindow.mk [] (MainWindow.mkCombo [] (-1))
             (MainWindow.mkCombo [] (-1)) ∅ ∅ (Some "ffmpeg") "logs/today.log"
             ∅ [] [] []) = inr w'
        /\ MainWindow.log_file w' = "logs/today.log"
        /\ MainWindow.disk w' =
           <["logs/today.log" :=
               default "" ((∅ : gmap string string) !! "logs/today.log")
               +:+ log_line (pretty (length before + 2)%nat) "foo.mp4" "foo.mkv"]>
             ∅.
Proof.
  apply (completed_job_is_logged (fun i => pretty i) sample_thread
           (sample_process 0)
           (MainWindow.mk [] (MainWindow.mkCombo [] (-1))
              (MainWindow.mkCombo [] (-1)) ∅ ∅ (Some "ffmpeg") "logs/today.log"
              ∅ [] [] [])).
  reflexivity.
Defined.

(** C4: after a non-zero exit code the worker ends with the status
    "Error", returns without an exception, emits no completion signal, and
    the window writes nothing: the log file is as it was. *)
Theorem failed_job_is_not_logged
    (clock : nat -> string) (self : ConverterThread.t) (p : Process)
    (w : MainWindow.t) :
  returncode p <> 0 ->
  exists before,
    ConverterThread.run self p start =
      (mkOut (before ++
                [status_updated (ConverterThread.input_file self) "Error"])
             ["Error converting " +:+ ConverterThread.input_file self], inr tt)
    /\ completions
         (before ++ [status_updated (ConverterThread.input_file self) "Error"])
       = []
    /\ exists w',
        MainWindow.job clock self p w = inr w'
        /\ MainWindow.log_file w' = MainWindow.log_file w
        /\ MainWindow.disk w' = MainWindow.disk w.
Proof.
  intros Hrc. apply Z.eqb_neq in Hrc.
  exists (running_signals self (fst (first_duration (stderr p))) (stdout p)).
  assert (Hc : completions
            (running_signals self (fst (first_duration (stderr p))) (stdout p) ++
             [status_updated (ConverterThread.input_file self) "Error"]) = []).
  { rewrite completions_app, completions_running. reflexivity. }
  assert (Hrun : ConverterThread.run self p start =
    (mkOut (running_signals self (fst (first_duration (stderr p))) (stdout p) ++
              [status_updated (ConverterThread.input_file self) "Error"])
           ["Error converting " +:+ ConverterThread.input_file self], inr tt)).
  { rewrite run_trace. unfold terminal_signals, terminal_console.
    rewrite Hrc. reflexivity. }
  split; [exact Hrun |]. split; [exact Hc |].
  unfold MainWindow.job. rewrite Hrun. cbn [signals].
  eexists. split; [reflexivity |].
  destruct (deliver_all_files clock _ 0 w Hc) as [Hd Hl].
  cbn [MainWindow.on_thread_finished MainWindow.log_file MainWindow.disk].
  split; assumption.
Qed.

Lemma failed_job_is_not_logged_witness :
  exists before,
    ConverterThread.run sample_thread (sample_process 1) start =
      (mkOut (before ++ [status_updated "foo.mp4" "Error"])
             ["Error converting foo.mp4"], inr tt)
    /\ completions (before ++ [status_updated "foo.mp4" "Error"]) = []
    /\ exists w',
        MainWindow.job (fun i => pretty i) sample_thread (sample_process 1)
          (MainWindow.mk [] (MainWindow.mkCombo [] (-1))
             (MainWindow.mkCombo [] (-1)) ∅ ∅ (Some "ffmpeg") "logs/today.log"
             {["logs/today.log" := "earlier"]} [] [] []) = inr w'
        /\ MainWindow.log_file w' = "logs/today.log"
        /\ MainWindow.disk w' = {["logs/today.log" := "earlier"]}.
Proof.
  assert (H : returncode (sample_process 1) <> 0) by discriminate.
  exact (failed_job_is_not_logged (fun i => pretty i) sample_thread
           (sample_process 1)
           (MainWindow.mk [] (MainWindow.mkCombo [] (-1))
              (MainWindow.mkCombo [] (-1)) ∅ ∅ (Some "ffmpeg") "logs/today.log"
              {["logs/today.log" := "earlier"]} [] [] []) H).
Defined.

(** ** Destination names *)

Section Destinations.

Import MainWindow.

Lemma append_inj_r (s1 s2 t : string) : s1 +:+ t = s2 +:+ t -> s1 = s2.
Proof.
  revert s2. induction s1 as [| a s1 IH]; intros [| b s2] H.
  - reflexivity.
  - apply (f_equal String.length) in H.
    rewrite append_cons, ?append_nil_l in H. cbn [String.length] in H.
    rewrite append_length in H. cbn [String.length] in H. lia.
  - apply (f_equal String.length) in H.
    rewrite append_cons, ?append_nil_l in H. cbn [String.length] in H.
    rewrite append_length in H. cbn [String.length] in H. lia.
  - rewrite !append_cons in H. injection H as -> H. f_equal. apply IH, H.
Qed.

Lemma candidate_inj base ext j k :
  candidate base ext j = candidate base ext k -> j = k.
Proof.
  unfold candidate. intros H.
  apply String.app_inj in H. apply (String.app_inj "_") in H.
  apply append_inj_r in H. apply pretty_Z_inj in H. exact H.
Qed.

Lemma rsplit1_head_no_dot s :
  contains "." s = false -> rsplit1_head "." s = None.
Proof.
  induction s as [| a s IH]; [reflexivity |]. cbn [contains rsplit1_head].
  intros H. apply orb_false_iff in H as [Ha Hs].
  rewrite (IH Hs), Ha. reflexivity.
Qed.

Lemma rsplit1_stem stem e :
  contains "." e = false -> rsplit1 "." (stem +:+ "." +:+ e) = stem.
Proof.
  intros He. unfold rsplit1.
  assert (H : rsplit1_head "." (stem +:+ "." +:+ e) = Some stem).
  { induction stem as [| a stem IH].
    - rewrite append_nil_l, append_cons, append_nil_l. cbn [rsplit1_head].
      rewrite (rsplit1_head_no_dot e He). reflexivity.
    - rewrite append_cons. cbn [rsplit1_head]. rewrite IH. reflexivity. }
  rewrite H. reflexivity.
Qed.

Lemma lstrip_ext x : contains "." x = false -> lstrip "." ("." +:+ x) = x.
Proof.
  intros H. rewrite append_cons, append_nil_l. cbn [lstrip].
  rewrite Ascii.eqb_refl. destruct x as [| a x]; [reflexivity |].
  cbn [contains] in H. apply orb_false_iff in H as [Ha _].
  cbn [lstrip]. rewrite Ha. reflexivity.
Qed.

(** With an extension [.x], the names tried are [stem.x], [stem_1.x],
    [stem_2.x], ... *)
Lemma candidate_numbered stem x k :
  contains "." x = false -> k <> 0 ->
  candidate (stem +:+ "." +:+ x) ("." +:+ x) k = numbered stem x k.
Proof.
  intros Hx Hk. unfold candidate, numbered.
  rewrite (rsplit1_stem stem x Hx), (lstrip_ext x Hx).
  apply Z.eqb_neq in Hk. rewrite Hk. reflexivity.
Qed.

(** What the loop returns, when it returns. *)
Lemma free_name_Some fuel disk base ext : forall cur c d,
  free_name fuel disk base ext cur c = Some d ->
  (d = cur /\ disk !! cur = None) \/
  (is_Some (disk !! cur) /\
   exists k, c <= k /\ d = candidate base ext k /\ disk !! d = None /\
             forall j, c <= j < k -> is_Some (disk !! candidate base ext j)).
Proof.
  induction fuel as [| fuel IH]; intros cur c d; cbn [free_name].
  - destruct (decide (is_Some (disk !! cur))) as [Hin | Hout]; [discriminate |].
    intros [= <-]. left. split; [reflexivity |].
    destruct (disk !! cur) eqn:E; [exfalso; apply Hout; eauto | reflexivity].
  - destruct (decide (is_Some (disk !! cur))) as [Hin | Hout].
    + intros H. right. split; [exact Hin |].
      apply IH in H as [[-> Hfree] | (Hc & k & Hk & -> & Hfree & Hbelow)].
      * exists c. split; [lia |]. split; [reflexivity |]. split; [exact Hfree |].
        intros j Hj. lia.
      * exists k. split; [lia |]. split; [reflexivity |]. split; [exact Hfree |].
        intros j Hj. destruct (Z.eq_dec j c) as [-> | Hne]; [exact Hc |].
        apply Hbelow. lia.
    + intros [= <-]. left. split; [reflexivity |].
      destruct (disk !! cur) eqn:E; [exfalso; apply Hout; eauto | reflexivity].
Qed.

(** When the fuel runs out, every name tried exists. *)
Lemma free_name_None fuel disk base ext : forall cur c,
  free_name fuel disk base ext cur c = None ->
  forall j, c <= j < c + Z.of_nat fuel ->
            is_Some (disk !! candidate base ext j).
Proof.
  induction fuel as [| fuel IH]; intros cur c; cbn [free_name].
  - intros _ j Hj. lia.
  - destruct (decide (is_Some (disk !! cur))) as [Hin | Hout]; [| discriminate].
    intros H j Hj.
    destruct (Z.eq_dec j c) as [-> | Hne].
    + destruct fuel as [| fuel']; cbn [free_name] in H;
        destruct (decide (is_Some (disk !! candidate base ext c)));
        (assumption || discriminate).
    + apply (IH _ _ H). lia.
Qed.

(** A disk cannot hold more distinct names than it has files. *)
Lemma names_exceed_disk (disk : gmap string string) base ext c :
  ~ forall j, c <= j < c + Z.of_nat (S (size disk)) ->
              is_Some (disk !! candidate base ext j).
Proof.
  intros H.
  set (l := candidate base ext <$> seqZ c (Z.of_nat (S (size disk)))).
  assert (Hnd : NoDup l).
  { apply NoDup_fmap_2_strong; [| apply NoDup_seqZ].
    intros j k _ _. apply candidate_inj. }
  assert (Hsub : (list_to_set l : gset string) ⊆ dom disk).
  { intros n Hn. apply elem_of_list_to_set in Hn.
    apply list_elem_of_fmap in Hn as (j & -> & Hj).
    apply elem_of_seqZ in Hj. apply elem_of_dom, H. lia. }
  apply subseteq_size in Hsub.
  rewrite size_list_to_set in Hsub by exact Hnd.
  rewrite size_dom in Hsub. unfold l in Hsub.
  rewrite length_fmap, length_seqZ in Hsub. lia.
Qed.

(** The loop of lines 254-256 ends on every disk. *)
Lemma destination_total disk input_file output_ext :
  exists d, destination disk input_file output_ext = Some d.
Proof.
  unfold destination.
  destruct (free_name _ _ _ _ _ _) as [d |] eqn:E; [eauto |].
  exfalso. eapply (names_exceed_disk disk _ _ 1).
  apply (free_name_None _ _ _ _ _ _ E).
Qed.

Lemma convert_file_total input_file output_ext w :
  exists w', convert_file input_file output_ext w = Some w'.
Proof.
  unfold convert_file.
  destruct (destination_total (disk w) input_file output_ext) as [d ->].
  eexists. reflexivity.
Qed.

Lemma convert_items_total its output_ext : forall w,
  exists w', convert_items its output_ext w = Some w'.
Proof.
  induction its as [| [index input_file] its IH]; intros w.
  - exists w. reflexivity.
  - cbn [convert_items].
    destruct (convert_file_total input_file output_ext w) as [w1 ->].
    apply IH.
Qed.

(** A Convert request always comes to an end. *)
Lemma handle_convert_total w : exists w', handle_convert w = Some w'.
Proof.
  unfold handle_convert.
  destruct (decide (currentText (output_combo_box w) = ""));
    [eexists; reflexivity |].
  destruct (decide (currentText (input_combo_box w) = ""));
    [eexists; reflexivity |].
  destruct (ffmpeg_path w); [| eexists; reflexivity].
  destruct (convert_items_total
              (reverse (items_to_remove (currentText (input_combo_box w))
                                        (list_widget w)))
              (currentText (output_combo_box w)) w) as [w1 ->].
  eexists. reflexivity.
Qed.

End Destinations.

(** C2, as the code has it: the destination is the source with its
    extension replaced when that name is free, and otherwise the first of
    [name_1.ext], [name_2.ext], ... that does not exist on the disk as it
    is when [convert_file] runs.  The job is started with that name, and
    the name is not reserved: the disk is left as it was.  When [foo.mkv]
    exists, [foo.mp4] goes to [foo_1.mkv]; a second submission goes to
    [foo_2.mkv] provided [foo_1.mkv] exists by then. *)
Theorem destination_is_first_free_name
    (disk : gmap string string) (stem e x : string) :
  contains "." e = false ->
  contains "." x = false ->
  (exists k,
      0 <= k
      /\ MainWindow.destination disk (stem +:+ "." +:+ e) ("." +:+ x)
         = Some (numbered stem x k)
      /\ disk !! numbered stem x k = None
      /\ (forall j, 0 <= j < k -> is_Some (disk !! numbered stem x j))
      /\ forall w,
          MainWindow.disk w = disk ->
          exists w',
            MainWindow.convert_file (stem +:+ "." +:+ e) ("." +:+ x) w = Some w'
            /\ MainWindow.started w' =
               MainWindow.started w ++
               [ConverterThread.mk (stem +:+ "." +:+ e) (numbered stem x k)
                                   (MainWindow.ffmpeg_path w)]
            /\ MainWindow.disk w' = disk)
  /\ (stem = "foo" -> x = "mkv" ->
      is_Some (disk !! "foo.mkv") -> disk !! "foo_1.mkv" = None ->
      MainWindow.destination disk (stem +:+ "." +:+ e) ("." +:+ x)
      = Some "foo_1.mkv")
  /\ (stem = "foo" -> x = "mkv" ->
      is_Some (disk !! "foo.mkv") -> is_Some (disk !! "foo_1.mkv") ->
      disk !! "foo_2.mkv" = None ->
      MainWindow.destination disk (stem +:+ "." +:+ e) ("." +:+ x)
      = Some "foo_2.mkv").
Proof.
  intros He Hx.
  assert (Hgen : exists k,
      0 <= k
      /\ MainWindow.destination disk (stem +:+ "." +:+ e) ("." +:+ x)
         = Some (numbered stem x k)
      /\ disk !! numbered stem x k = None
      /\ (forall j, 0 <= j < k -> is_Some (disk !! numbered stem x j))).
  { destruct (destination_total disk (stem +:+ "." +:+ e) ("." +:+ x)) as [d Hd].
    pose proof Hd as Hd'. unfold MainWindow.destination in Hd'.
    rewrite (rsplit1_stem stem e He) in Hd'.
    apply free_name_Some in Hd'
      as [[-> Hfree] | (Hbase & k & Hk & -> & Hfree & Hbelow)].
    - exists 0. split; [lia |]. split; [exact Hd |]. split; [exact Hfree |].
      intros j Hj. lia.
    - rewrite candidate_numbered in Hfree, Hd by (assumption || lia).
      exists k. split; [lia |]. split; [exact Hd |]. split; [exact Hfree |].
      intros j Hj. destruct (Z.eq_dec j 0) as [-> | Hne]; [exact Hbase |].
      rewrite <- candidate_numbered by (assumption || lia). apply Hbelow. lia. }
  split; [| split].
  - destruct Hgen as (k & Hk & Hd & Hfree & Hbelow). exists k.
    repeat (split; [assumption |]).
    intros w <-. unfold MainWindow.convert_file. rewrite Hd.
    eexists. split; [reflexivity |]. split; reflexivity.
  - intros -> -> H0 H1. destruct Hgen as (k & Hk & Hd & Hfree & Hbelow).
    rewrite Hd. f_equal.
    destruct (Z.eq_dec k 0) as [-> | N0].
    { exfalso. change (numbered "foo" "mkv" 0) with "foo.mkv" in Hfree.
      rewrite Hfree in H0. destruct H0; discriminate. }
    destruct (Z.eq_dec k 1) as [-> | N1]; [reflexivity |].
    exfalso. specialize (Hbelow 1 ltac:(lia)).
    change (numbered "foo" "mkv" 1) with "foo_1.mkv" in Hbelow.
    rewrite H1 in Hbelow. destruct Hbelow; discriminate.
  - intros -> -> H0 H1 H2. destruct Hgen as (k & Hk & Hd & Hfree & Hbelow).
    rewrite Hd. f_equal.
    destruct (Z.eq_dec k 0) as [-> | N0].
    { exfalso. change (numbered "foo" "mkv" 0) with "foo.mkv" in Hfree.
      rewrite Hfree in H0. destruct H0; discriminate. }
    destruct (Z.eq_dec k 1) as [-> | N1].
    { exfalso. change (numbered "foo" "mkv" 1) with "foo_1.mkv" in Hfree.
      rewrite Hfree in H1. destruct H1; discriminate. }
    destruct (Z.eq_dec k 2) as [-> | N2]; [reflexivity |].
    exfalso. specialize (Hbelow 2 ltac:(lia)).
    change (numbered "foo" "mkv" 2) with "foo_2.mkv" in Hbelow.
    rewrite H2 in Hbelow. destruct Hbelow; discriminate.
Qed.

Lemma destination_is_first_free_name_witness :
  MainWindow.destination {["foo.mkv" := "earlier"; "foo_1.mkv" := "first"]}
    "foo.mp4" ".mkv" = Some "foo_2.mkv".
Proof.
  apply (proj2 (proj2 (destination_is_first_free_name
                         {["foo.mkv" := "earlier"; "foo_1.mkv" := "first"]}
                         "foo" "mp4" "mkv" eq_refl eq_refl))
           eq_refl eq_refl).
  - vm_compute. eexists. reflexivity.
  - vm_compute. eexists. reflexivity.
  - vm_compute. reflexivity.
Defined.

(** C2 as stated fails: two submissions of [foo.mp4] made while only
    [foo.mkv] exists, as when the source is queued twice and Convert is
    pressed once, both get [foo_1.mkv]; the second does not get
    [foo_2.mkv]. *)
Lemma second_submission_reuses_name :
  is_Some (MainWindow.disk resubmitted_window !! "foo.mkv")
  /\ (w1 ← MainWindow.convert_file "foo.mp4" ".mkv" resubmitted_window;
      w2 ← MainWindow.convert_file "foo.mp4" ".mkv" w1;
      Some (ConverterThread.output_file <$> MainWindow.started w2))
     = Some ["foo_1.mkv"; "foo_1.mkv"]
  /\ (fun w => ConverterThread.output_file <$> MainWindow.started w)
       <$> MainWindow.handle_convert resubmitted_window
     = Some ["foo_1.mkv"; "foo_1.mkv"]
  /\ ~ (forall w w1 w2,
         is_Some (MainWindow.disk w !! "foo.mkv") ->
         MainWindow.disk w !! "foo_1.mkv" = None ->
         MainWindow.disk w !! "foo_2.mkv" = None ->
         MainWindow.convert_file "foo.mp4" ".mkv" w = Some w1 ->
         MainWindow.convert_file "foo.mp4" ".mkv" w1 = Some w2 ->
         ConverterThread.output_file <$> MainWindow.started w2 =
         (ConverterThread.output_file <$> MainWindow.started w)
         ++ ["foo_1.mkv"; "foo_2.mkv"]).
Proof.
  split; [vm_compute; eexists; reflexivity |].
  split; [vm_compute; reflexivity |].
  split; [vm_compute; reflexivity |].
  intros H.
  assert (D : MainWindow.destination (MainWindow.disk resubmitted_window)
                "foo.mp4" ".mkv" = Some "foo_1.mkv")
    by (vm_compute; reflexivity).
  destruct (MainWindow.convert_file "foo.mp4" ".mkv" resubmitted_window)
    as [w1 |] eqn:E1;
    [| unfold MainWindow.convert_file in E1; rewrite D in E1; discriminate].
  assert (H1 : MainWindow.disk w1 = MainWindow.disk resubmitted_window
               /\ ConverterThread.output_file <$> MainWindow.started w1
                  = ["foo_1.mkv"]).
  { unfold MainWindow.convert_file in E1. rewrite D in E1.
    cbn [mbind option_bind] in E1. injection E1 as <-. split; reflexivity. }
  destruct H1 as [Hd1 Hs1].
  destruct (MainWindow.convert_file "foo.mp4" ".mkv" w1) as [w2 |] eqn:E2;
    [| unfold MainWindow.convert_file in E2; rewrite Hd1, D in E2; discriminate].
  assert (Hs2 : ConverterThread.output_file <$> MainWindow.started w2
                = ["foo_1.mkv"; "foo_1.mkv"]).
  { unfold MainWindow.convert_file in E2. rewrite Hd1, D in E2.
    cbn [mbind option_bind] in E2. injection E2 as <-.
    cbn [MainWindow.started]. rewrite fmap_app, Hs1. reflexivity. }
  specialize (H resubmitted_window w1 w2).
  rewrite Hs2 in H.
  assert (Hbad : ["foo_1.mkv"; "foo_1.mkv"] =
                 (ConverterThread.output_file
                    <$> MainWindow.started resubmitted_window)
                 ++ ["foo_1.mkv"; "foo_2.mkv"]).
  { apply H; [| vm_compute; reflexivity | vm_compute; reflexivity
               | exact E1 | exact E2].
    vm_compute. eexists. reflexivity. }
  vm_compute in Hbad. discriminate Hbad.
Qed.

(** C5: with no tool path, a Convert request starts no worker, creates
    no job and no progress frame, and leaves the queue, the selections and
    the files as they were; all it does is show one message box.  A
    submission, that is a request with an output and an input format
    selected, is answered by the "FFmpeg Error" box.  A request with a
    format missing submits nothing, with or without the tool: the checks
    of lines 277-283 answer it with the warning that asks for the
    format. *)
Theorem unresolved_tool_starts_nothing (w : MainWindow.t) :
  MainWindow.ffmpeg_path w = None ->
  exists w' d,
    MainWindow.handle_convert w = Some w'
    /\ MainWindow.started w' = MainWindow.started w
    /\ MainWindow.converter_threads w' = MainWindow.converter_threads w
    /\ MainWindow.progress_frames w' = MainWindow.progress_frames w
    /\ MainWindow.list_widget w' = MainWindow.list_widget w
    /\ MainWindow.input_combo_box w' = MainWindow.input_combo_box w
    /\ MainWindow.output_combo_box w' = MainWindow.output_combo_box w
    /\ MainWindow.disk w' = MainWindow.disk w
    /\ MainWindow.dialogs w' = MainWindow.dialogs w ++ [d]
    /\ d = (if decide (MainWindow.currentText (MainWindow.output_combo_box w) = "")
            then MainWindow.warning "Output Format"
                                    "Please select an output format!"
            else if decide (MainWindow.currentText (MainWindow.input_combo_box w) = "")
            then MainWindow.warning "Input Format"
                                    "Please select an input format!"
            else MainWindow.critical "FFmpeg Error"
                   "FFmpeg is not available, conversion failed.")
    /\ (MainWindow.currentText (MainWindow.output_combo_box w) <> "" ->
        MainWindow.currentText (MainWindow.input_combo_box w) <> "" ->
        MainWindow.dialogs w' =
          MainWindow.dialogs w ++
          [MainWindow.critical "FFmpeg Error"
             "FFmpeg is not available, conversion failed."]).
Proof.
  intros Hnone. unfold MainWindow.handle_convert. rewrite Hnone.
  destruct (decide (MainWindow.currentText (MainWindow.output_combo_box w) = ""));
    [| destruct (decide (MainWindow.currentText (MainWindow.input_combo_box w) = ""))];
    eexists; eexists; (split; [reflexivity |]);
    repeat (split; [reflexivity |]);
    intros Ho Hi; (contradiction || reflexivity).
Qed.

Lemma unresolved_tool_starts_nothing_witness :
  exists w',
    MainWindow.handle_convert
      (MainWindow.mk ["foo.mp4"] (MainWindow.mkCombo [".mp4"] 0)
         (MainWindow.mkCombo [".mkv"] 0) ∅ ∅ None "logs/2024-05-01.log"
         {["foo.mp4" := "source"]} [] [] []) = Some w'
    /\ MainWindow.started w' = []
    /\ MainWindow.converter_threads w' = ∅
    /\ MainWindow.progress_frames w' = ∅
    /\ MainWindow.list_widget w' = ["foo.mp4"]
    /\ MainWindow.input_combo_box w' = MainWindow.mkCombo [".mp4"] 0
    /\ MainWindow.output_combo_box w' = MainWindow.mkCombo [".mkv"] 0
    /\ MainWindow.disk w' = {["foo.mp4" := "source"]}
    /\ MainWindow.dialogs w' =
       [MainWindow.critical "FFmpeg Error"
          "FFmpeg is not available, conversion failed."].
Proof.
  destruct (unresolved_tool_starts_nothing
              (MainWindow.mk ["foo.mp4"] (MainWindow.mkCombo [".mp4"] 0)
                 (MainWindow.mkCombo [".mkv"] 0) ∅ ∅ None "logs/2024-05-01.log"
                 {["foo.mp4" := "source"]} [] [] []) eq_refl)
    as (w' & d & H & H1 & H2 & H3 & H4 & H5 & H6 & H7 & _ & _ & Hbox).
  exists w'. repeat (split; [assumption |]).
  apply Hbox; discriminate.
Defined.

(** ** Extensions of file names *)

Section Extensions.

Lemma lower_char_idem c : lower_char (lower_char c) = lower_char c.
Proof. destruct c as [[] [] [] [] [] [] [] []]; reflexivity. Qed.

Lemma lower_char_dot c : Ascii.eqb (lower_char c) "." = Ascii.eqb c ".".
Proof. destruct c as [[] [] [] [] [] [] [] []]; reflexivity. Qed.

Lemma lower_idem s : lower (lower s) = lower s.
Proof.
  induction s as [| c s IH]; [reflexivity |].
  cbn [lower]. rewrite lower_char_idem, IH. reflexivity.
Qed.

Lemma contains_lower s : contains "." (lower s) = contains "." s.
Proof.
  induction s as [| c s IH]; [reflexivity |].
  cbn [lower contains]. rewrite lower_char_dot, IH. reflexivity.
Qed.

Lemma lower_length s : String.length (lower s) = String.length s.
Proof. induction s as [| c s IH]; [reflexivity |]. cbn. rewrite IH. reflexivity. Qed.

Lemma split_cons sep s : exists h t, split sep s = h :: t.
Proof.
  destruct s as [| c s]; [exists "", []; reflexivity |].
  cbn [split]. destruct (Ascii.eqb c sep); [eauto |].
  destruct (split sep s) as [| h t]; eauto.
Qed.

(** A string without the separator is one piece. *)
Lemma split_whole sep s : contains sep s = false -> split sep s = [s].
Proof.
  induction s as [| c s IH]; [reflexivity |].
  cbn [contains split]. intros H. apply orb_false_iff in H as [Hc Hs].
  rewrite Hc, (IH Hs). reflexivity.
Qed.

Lemma split_app sep stem e :
  exists p ps, split sep (stem +:+ String sep e) = p :: ps ++ split sep e.
Proof.
  induction stem as [| c stem (p & ps & IH)].
  - exists "", []. rewrite append_nil_l. cbn [split]. rewrite Ascii.eqb_refl.
    reflexivity.
  - rewrite append_cons. cbn [split]. rewrite IH.
    destruct (Ascii.eqb c sep); [exists "", (p :: ps) | exists (String c p), ps];
      reflexivity.
Qed.

(** [s.split(sep)[-1]]: what stands after the last separator. *)
Lemma last_split_app sep stem e :
  contains sep e = false ->
  last (split sep (stem +:+ String sep e)) = Some e.
Proof.
  intros He. destruct (split_app sep stem e) as (p & ps & ->).
  rewrite (split_whole sep e He).
  change (p :: ps ++ [e]) with ((p :: ps) ++ [e]). apply last_snoc.
Qed.

Lemma last_split_clean sep s :
  exists e, last (split sep s) = Some e /\ contains sep e = false.
Proof.
  induction s as [| c s (e & IH & He)]; [exists ""; split; reflexivity |].
  cbn [split]. destruct (split_cons sep s) as (h & t & E).
  destruct (Ascii.eqb c sep) eqn:Hc.
  - exists e. rewrite E in *. split; [exact IH | exact He].
  - rewrite E in *. destruct t as [| t1 t2].
    + cbn in IH. injection IH as <-. exists (String c h). split; [reflexivity |].
      cbn [contains]. rewrite Hc, He. reflexivity.
    + exists e. split; [exact IH | exact He].
Qed.

Lemma file_ext_stem stem e :
  contains "." e = false -> file_ext (stem +:+ "." +:+ e) = "." +:+ lower e.
Proof.
  intros He. unfold file_ext. change ("." +:+ e) with (String "." e).
  rewrite (last_split_app "." stem e He). reflexivity.
Qed.

End Extensions.

(** X1: the extension that the window computes for a path is a dot
    followed by the lower-case form of what stands after the last dot of
    the path; a path without a dot is its own extension; the result never
    holds a second dot or a capital letter. *)
Theorem extension_of_a_path :
  (forall stem e, contains "." e = false ->
                  file_ext (stem +:+ "." +:+ e) = "." +:+ lower e)
  /\ (forall p, contains "." p = false -> file_ext p = "." +:+ lower p)
  /\ (forall p, exists e, file_ext p = "." +:+ e
                          /\ contains "." e = false /\ lower e = e).
Proof.
  split; [| split].
  - apply file_ext_stem.
  - intros p Hp. unfold file_ext. rewrite (split_whole "." p Hp). reflexivity.
  - intros p. unfold file_ext.
    destruct (last_split_clean "." p) as (e & -> & He).
    exists (lower e). split; [reflexivity |].
    split; [rewrite contains_lower; exact He | apply lower_idem].
Qed.

Lemma extension_of_a_path_witness :
  file_ext "clips/Holiday.2019.MP4" = ".mp4" /\ file_ext "Makefile" = ".makefile".
Proof.
  split.
  - apply (proj1 extension_of_a_path "clips/Holiday.2019" "MP4"). reflexivity.
  - apply (proj1 (proj2 extension_of_a_path) "Makefile"). reflexivity.
Defined.

(** ** Starting jobs from the queue *)

Section Starting.

Import MainWindow.

Lemma destination_free disk input_file output_ext d :
  destination disk input_file output_ext = Some d -> disk !! d = None.
Proof.
  unfold destination. intros H.
  apply free_name_Some in H as [[-> H] | (_ & k & _ & -> & H & _)]; exact H.
Qed.

(** The window after [convert_file]. *)
Lemma convert_file_Some input_file output_ext w w' :
  convert_file input_file output_ext w = Some w' ->
  exists d,
    destination (disk w) input_file output_ext = Some d
    /\ w' = mk (list_widget w) (input_combo_box w) (output_combo_box w)
              (<[input_file := mkFrame 0 "Waiting..."]> (progress_frames w))
              (<[input_file := ConverterThread.mk input_file d (ffmpeg_path w)]>
                 (converter_threads w))
              (ffmpeg_path w) (log_file w) (disk w)
              (started w ++ [ConverterThread.mk input_file d (ffmpeg_path w)])
              (dialogs w) (printed w).
Proof.
  unfold convert_file. intros H.
  destruct (destination (disk w) input_file output_ext) as [d |] eqn:E;
    [| discriminate].
  cbn [mbind option_bind] in H. injection H as <-. exists d. split; reflexivity.
Qed.

Lemma items_to_remove_snoc input_ext queue x :
  items_to_remove input_ext (queue ++ [x]) =
  items_to_remove input_ext queue ++
  (if endswith x input_ext then [(length queue, x)] else []).
Proof.
  unfold items_to_remove. rewrite imap_app, filter_app. f_equal.
  cbn [imap]. rewrite Nat.add_0_r.
  destruct (endswith x input_ext) eqn:E.
  - rewrite filter_cons_True by exact E. reflexivity.
  - rewrite filter_cons_False by (cbn; rewrite E; discriminate). reflexivity.
Qed.

(** Lines 297-299 on the items of a front part [q] of the queue: the
    matching items leave the queue from the back, the others stay in
    place, and a worker is started for each item that leaves. *)
Lemma convert_items_effect input_ext output_ext q : forall tl w,
  list_widget w = q ++ tl ->
  exists w' threads,
    convert_items (reverse (items_to_remove input_ext q)) output_ext w = Some w'
    /\ list_widget w' = filter (fun f => endswith f input_ext = false) q ++ tl
    /\ input_combo_box w' = input_combo_box w
    /\ output_combo_box w' = output_combo_box w
    /\ dialogs w' = dialogs w /\ printed w' = printed w
    /\ disk w' = disk w /\ ffmpeg_path w' = ffmpeg_path w
    /\ log_file w' = log_file w
    /\ started w' = started w ++ threads
    /\ map ConverterThread.input_file threads
       = reverse (filter (fun f => endswith f input_ext = true) q)
    /\ Forall (fun th => ConverterThread.ffmpeg_path th = ffmpeg_path w
                         /\ disk w !! ConverterThread.output_file th = None)
              threads.
Proof.
  induction q as [| x q IH] using rev_ind; intros tl w Hq.
  - exists w, []. cbn. rewrite app_nil_r. repeat split; try reflexivity.
    + exact Hq.
    + constructor.
  - rewrite items_to_remove_snoc, !filter_app.
    destruct (endswith x input_ext) eqn:E.
    + rewrite reverse_app. cbn [reverse app]. 
      change (reverse [(length q, x)]) with [(length q, x)]. cbn [app convert_items].
      destruct (convert_file_total x output_ext w) as [w1 H1]. rewrite H1.
      cbn [mbind option_bind].
      destruct (convert_file_Some _ _ _ _ H1) as (d & Hd & ->).
      set (th := ConverterThread.mk x d (ffmpeg_path w)).
      set (w1 := takeItem (length q) _).
      assert (Hq1 : list_widget w1 = q ++ tl).
      { unfold w1. cbn [takeItem list_widget]. rewrite Hq, <- app_assoc.
        cbn [app]. rewrite delete_middle. reflexivity. }
      destruct (IH tl w1 Hq1)
        as (w' & threads & Hc & Hl & Hi & Ho & Hdi & Hp & Hdk & Hf & Hlg & Hs & Hm & Hall).
      exists w', (th :: threads). split; [exact Hc |].
      rewrite filter_cons_False by (cbn; rewrite E; discriminate).
      rewrite filter_cons_True by exact E.
      rewrite filter_nil, !app_nil_r.
      repeat split; try assumption.
      * rewrite Hs. unfold w1. cbn [takeItem started]. rewrite <- app_assoc.
        reflexivity.
      * cbn [map]. rewrite Hm, reverse_app. reflexivity.
      * constructor; [| exact Hall].
        split; [reflexivity |]. cbn [ConverterThread.output_file th].
        apply (destination_free _ _ _ _ Hd).
    + cbn [app]. rewrite app_nil_r.
      rewrite filter_cons_True by exact E.
      rewrite filter_cons_False by (cbn; rewrite E; discriminate).
      rewrite filter_nil, app_nil_r.
      rewrite <- app_assoc in Hq. cbn [app] in Hq.
      destruct (IH (x :: tl) w Hq)
        as (w' & threads & Hc & Hl & Hrest).
      exists w', threads. split; [exact Hc |]. split; [| exact Hrest].
      rewrite Hl, <- app_assoc. reflexivity.
Qed.

End Starting.

(** X2: [convert_file] never picks a name that exists on the disk,
    whatever the source and the extension are, so it never directs a
    job at an existing file, the source included; it changes neither the
    disk nor the queue, and it leaves a fresh progress frame. *)
Theorem destination_is_never_taken
    (input_file output_ext : string) (w : MainWindow.t) :
  exists w' d,
    MainWindow.convert_file input_file output_ext w = Some w'
    /\ MainWindow.disk w !! d = None
    /\ (is_Some (MainWindow.disk w !! input_file) -> d <> input_file)
    /\ MainWindow.started w' =
       MainWindow.started w ++
       [ConverterThread.mk input_file d (MainWindow.ffmpeg_path w)]
    /\ MainWindow.converter_threads w' !! input_file =
       Some (ConverterThread.mk input_file d (MainWindow.ffmpeg_path w))
    /\ MainWindow.progress_frames w' !! input_file =
       Some (MainWindow.mkFrame 0 "Waiting...")
    /\ MainWindow.disk w' = MainWindow.disk w
    /\ MainWindow.list_widget w' = MainWindow.list_widget w.
Proof.
  destruct (convert_file_total input_file output_ext w) as [w' H].
  destruct (convert_file_Some _ _ _ _ H) as (d & Hd & ->).
  pose proof (destination_free _ _ _ _ Hd) as Hfree.
  eexists; exists d. split; [exact H |]. split; [exact Hfree |].
  split; [intros [x Hx] ->; congruence |].
  cbn [MainWindow.started MainWindow.converter_threads
       MainWindow.progress_frames MainWindow.disk MainWindow.list_widget].
  rewrite !lookup_insert_eq. repeat split; reflexivity.
Qed.

(** X3: with both formats selected and the tool resolved, a Convert
    request takes out of the queue exactly the items that end with the
    selected input extension and leaves the others in their order; it
    starts one worker per item taken, from the last such item of the queue
    to the first, each with the tool and a destination that is not on the
    disk; the input selector is emptied exactly when the queue ends up
    empty; the output selector, the disk and the message boxes are as
    before. *)
Theorem convert_takes_the_matching_items (w : MainWindow.t) (tool : string) :
  MainWindow.currentText (MainWindow.output_combo_box w) <> "" ->
  MainWindow.currentText (MainWindow.input_combo_box w) <> "" ->
  MainWindow.ffmpeg_path w = Some tool ->
  let input_ext := MainWindow.currentText (MainWindow.input_combo_box w) in
  exists w' threads,
    MainWindow.handle_convert w = Some w'
    /\ MainWindow.list_widget w' =
       filter (fun f => endswith f input_ext = false) (MainWindow.list_widget w)
    /\ MainWindow.started w' = MainWindow.started w ++ threads
    /\ map ConverterThread.input_file threads =
       reverse (filter (fun f => endswith f input_ext = true)
                       (MainWindow.list_widget w))
    /\ Forall (fun th =>
                 ConverterThread.ffmpeg_path th = Some tool
                 /\ MainWindow.disk w !! ConverterThread.output_file th = None)
              threads
    /\ MainWindow.input_combo_box w' =
       (if decide (MainWindow.list_widget w' = [])
        then MainWindow.clear (MainWindow.input_combo_box w)
        else MainWindow.input_combo_box w)
    /\ MainWindow.output_combo_box w' = MainWindow.output_combo_box w
    /\ MainWindow.disk w' = MainWindow.disk w
    /\ MainWindow.dialogs w' = MainWindow.dialogs w.
Proof.
  intros Hout Hin Htool input_ext. unfold MainWindow.handle_convert.
  destruct (decide (MainWindow.currentText (MainWindow.output_combo_box w) = ""))
    as [E | _]; [contradiction |].
  destruct (decide (MainWindow.currentText (MainWindow.input_combo_box w) = ""))
    as [E | _]; [contradiction |].
  rewrite Htool.
  destruct (convert_items_effect input_ext
              (MainWindow.currentText (MainWindow.output_combo_box w))
              (MainWindow.list_widget w) [] w ltac:(rewrite app_nil_r; reflexivity))
    as (w1 & threads & Hc & Hl & Hi & Ho & Hdi & Hp & Hdk & Hf & Hlg & Hs & Hm & Hall).
  fold input_ext. rewrite Hc. cbn [mbind option_bind].
  rewrite app_nil_r in Hl. rewrite Htool in Hall.
  destruct (decide (MainWindow.list_widget w1 = [])) as [Hempty | Hsome].
  - exists (MainWindow.clear_input_combo_box w1), threads.
    split; [reflexivity |].
    cbn [MainWindow.clear_input_combo_box MainWindow.list_widget
         MainWindow.started MainWindow.input_combo_box
         MainWindow.output_combo_box MainWindow.disk MainWindow.dialogs].
    rewrite decide_True by exact Hempty.
    repeat split; assumption || reflexivity.
  - exists w1, threads. split; [reflexivity |].
    rewrite decide_False by exact Hsome.
    repeat split; assumption.
Qed.

Lemma convert_takes_the_matching_items_witness :
  exists w' threads,
    MainWindow.handle_convert
      (MainWindow.mk ["a.mp4"; "b.mp3"; "c.mp4"]
         (MainWindow.mkCombo [".mp4"; ".mp3"] 0)
         (MainWindow.mkCombo [".mkv"; ".avi"] 0)
         ∅ ∅ (Some "ffmpeg") "logs/2024-05-01.log" ∅ [] [] []) = Some w'
    /\ MainWindow.list_widget w' = ["b.mp3"]
    /\ MainWindow.started w' = threads
    /\ map ConverterThread.input_file threads = ["c.mp4"; "a.mp4"].
Proof.
  destruct (convert_takes_the_matching_items
              (MainWindow.mk ["a.mp4"; "b.mp3"; "c.mp4"]
                 (MainWindow.mkCombo [".mp4"; ".mp3"] 0)
                 (MainWindow.mkCombo [".mkv"; ".avi"] 0)
                 ∅ ∅ (Some "ffmpeg") "logs/2024-05-01.log" ∅ [] [] [])
              "ffmpeg" ltac:(discriminate) ltac:(discriminate) eq_refl)
    as (w' & threads & H & Hl & Hs & Hm & _).
  exists w', threads. split; [exact H |]. split; [exact Hl |].
  split; [exact Hs |]. exact Hm.
Defined.

(** ** The selectors *)

Section Selectors.

Import MainWindow Intake.

Lemma addItems_app a b c : addItems (a ++ b) c = addItems b (addItems a c).
Proof.
  unfold addItems.
  destruct a as [| x a]; [reflexivity |].
  destruct b as [| y b].
  - rewrite app_nil_r. reflexivity.
  - cbn [app items currentIndex].
    rewrite (decide_False (P := (x :: a ++ y :: b = []))) by discriminate.
    rewrite (decide_False (P := (x :: a = []))) by discriminate.
    rewrite (decide_False (P := (y :: b = []))) by discriminate.
    rewrite (decide_False (P := (items c ++ x :: a = [])))
      by (destruct (items c); discriminate).
    cbn [items currentIndex]. rewrite <- app_assoc. reflexivity.
Qed.

Lemma addItems_clear l c :
  addItems l (clear c) = if decide (l = []) then clear c else mkCombo l 0.
Proof. unfold addItems, clear. destruct (decide (l = [])); reflexivity. Qed.

(** The loop of lines 243-245, when no key is missing on its way. *)
Lemma add_convertible_inr ext formats : forall c c',
  add_convertible ext formats c = inr c' ->
  c' = addItems (targets formats ext) c.
Proof.
  induction formats as [| [name data] formats IH]; intros c c' H.
  - injection H as <-. reflexivity.
  - cbn [add_convertible] in H. cbn [targets flat_map snd].
    destruct (data !! "extensions") as [exts |] eqn:Ee; [| discriminate].
    cbn [from_option id]. destruct (decide (ext ∈ exts)) as [Hin | Hout].
    + destruct (data !! "convertible_to") as [tg |] eqn:Ec; [| discriminate].
      cbn [from_option id]. rewrite addItems_app. apply IH, H.
    + change (addItems ([] ++ ?l) c) with (addItems l c). apply IH, H.
Qed.

Lemma add_convertible_well_formed ext formats : forall c,
  well_formed formats -> exists c', add_convertible ext formats c = inr c'.
Proof.
  induction formats as [| [name data] formats IH]; intros c Hwf.
  - eexists. reflexivity.
  - apply Forall_cons in Hwf as [[[exts He] [tg Hc]] Hwf]. cbn [snd] in He, Hc.
    cbn [add_convertible]. rewrite He, Hc.
    destruct (decide (ext ∈ exts)); apply IH, Hwf.
Qed.

(** The one kind of [KeyError] left once [__init__] has read the
    extensions of every format. *)
Lemma add_convertible_inl ext formats : forall c e,
  Forall (fun f => is_Some (f.2 !! "extensions")) formats ->
  add_convertible ext formats c = inl e ->
  e = KeyError "convertible_to" /\ lacks_targets formats ext.
Proof.
  induction formats as [| [name data] formats IH]; intros c e Hk H.
  - discriminate.
  - apply Forall_cons in Hk as [[exts He] Hk]. cbn [snd] in He.
    cbn [add_convertible] in H. rewrite He in H.
    destruct (decide (ext ∈ exts)) as [Hin | Hout].
    + destruct (data !! "convertible_to") as [tg |] eqn:Ec.
      * destruct (IH _ _ Hk H) as [-> Hex]. split; [reflexivity |].
        apply Exists_cons_tl, Hex.
      * injection H as <-. split; [reflexivity |].
        apply Exists_cons_hd. cbn [snd]. rewrite He. split; assumption.
    + destruct (IH _ _ Hk H) as [-> Hex]. split; [reflexivity |].
      apply Exists_cons_tl, Hex.
Qed.

Lemma add_convertible_raises ext formats : forall c,
  Forall (fun f => is_Some (f.2 !! "extensions")) formats ->
  lacks_targets formats ext ->
  add_convertible ext formats c = inl (KeyError "convertible_to").
Proof.
  induction formats as [| [name data] formats IH]; intros c Hk Hex.
  - inversion Hex.
  - apply Forall_cons in Hk as [[exts He] Hk]. cbn [snd] in He.
    cbn [add_convertible]. rewrite He.
    apply Exists_cons in Hex as [[Hin Hnone] | Hex].
    + cbn [snd] in Hin, Hnone. rewrite He in Hin. cbn [from_option id] in Hin.
      rewrite decide_True by exact Hin. rewrite Hnone. reflexivity.
    + destruct (decide (ext ∈ exts)).
      * destruct (data !! "convertible_to"); [apply IH; assumption | reflexivity].
      * apply IH; assumption.
Qed.

(** The output selector after lines 239-248. *)
Lemma update_output_combo_box_inr formats input_file w w' :
  update_output_combo_box formats input_file w = inr w' ->
  w' = set_output_combo_box
         (mkCombo (offer (targets formats (file_ext input_file))) 0) w.
Proof.
  unfold update_output_combo_box. intros H.
  destruct (add_convertible _ _ _) as [e | c] eqn:E; [discriminate |].
  injection H as <-. apply add_convertible_inr in E. subst c.
  rewrite addItems_clear. f_equal.
  destruct (targets formats (file_ext input_file)) as [| x l]; reflexivity.
Qed.

End Selectors.

(** ** Files entering the queue *)

Section Entering.

Import MainWindow Intake.

Variable s : Settings.

(** A file of a supported format, taken in without a [KeyError]. *)
Lemma accept_inr file w w' :
  accept s file w = inr w' ->
  list_widget w' = list_widget w ++ [file]
  /\ input_combo_box w' = note_extension (input_combo_box w) file
  /\ output_combo_box w' =
     mkCombo (offer (targets (media_formats s) (file_ext file))) 0
  /\ dialogs w' = dialogs w /\ printed w' = printed w
  /\ same_jobs w w'.
Proof.
  unfold accept. intros H. apply update_output_combo_box_inr in H. subst w'.
  destruct w. unfold update_input_combo_box, note_extension, same_jobs.
  cbn [set_list_widget input_combo_box].
  destruct (decide (file_ext file ∈ items input_combo_box0));
    cbn; repeat split; reflexivity.
Qed.

(** Whether a file is taken in or raises depends on the settings alone. *)
Lemma accept_inl file w e :
  accept s file w = inl e ->
  add_convertible (file_ext file) (media_formats s) (mkCombo [] (-1)) = inl e.
Proof.
  unfold accept, update_output_combo_box, clear. intros H.
  destruct (add_convertible _ _ _) as [e' | c]; [congruence | discriminate].
Qed.

Lemma accept_cases file w :
  match add_convertible (file_ext file) (media_formats s) (mkCombo [] (-1)) with
  | inl e => accept s file w = inl e
  | inr _ => exists w', accept s file w = inr w'
  end.
Proof.
  unfold accept, update_output_combo_box, clear.
  destruct (add_convertible _ _ _) as [e | c]; [reflexivity | eauto].
Qed.

(** The two loops, lines 224-232 and 318-329, differ by what they do
    with a file that is turned down: [reject], which shows the boxes
    [boxes file] and prints the lines [lines file]. *)
Variable reject : string -> t -> t.
Variable boxes : string -> list dialog.
Variable lines : string -> list string.

Hypothesis reject_spec : forall file w,
  same_queue (reject file w) w /\ same_jobs w (reject file w)
  /\ dialogs (reject file w) = dialogs w ++ boxes file
  /\ printed (reject file w) = printed w ++ lines file.

Lemma same_jobs_trans a b c : same_jobs a b -> same_jobs b c -> same_jobs a c.
Proof.
  unfold same_jobs. intros (A1 & A2 & A3 & A4 & A5 & A6) (B1 & B2 & B3 & B4 & B5 & B6).
  repeat split; congruence.
Qed.

Lemma same_jobs_refl a : same_jobs a a.
Proof. unfold same_jobs. repeat split; reflexivity. Qed.

Lemma loop_effect files : forall w w',
  for_each (take s reject) files w = inr w' ->
  list_widget w' =
    list_widget w ++ filter (fun f => file_ext f ∈ supported_extensions s) files
  /\ input_combo_box w' =
     fold_left note_extension
       (filter (fun f => file_ext f ∈ supported_extensions s) files)
       (input_combo_box w)
  /\ output_combo_box w' =
     match last (filter (fun f => file_ext f ∈ supported_extensions s) files) with
     | Some f => mkCombo (offer (targets (media_formats s) (file_ext f))) 0
     | None => output_combo_box w
     end
  /\ dialogs w' =
     dialogs w ++
     flat_map boxes (filter (fun f => file_ext f ∉ supported_extensions s) files)
  /\ printed w' =
     printed w ++
     flat_map lines (filter (fun f => file_ext f ∉ supported_extensions s) files)
  /\ same_jobs w w'.
Proof.
  induction files as [| f files IH]; intros w w' H.
  - injection H as <-. cbn. rewrite !app_nil_r.
    repeat split; reflexivity.
  - cbn [for_each] in H. unfold take at 1 in H.
    destruct (decide (file_ext f ∈ supported_extensions s)) as [Hin | Hout].
    + destruct (accept s f w) as [e | w1] eqn:E; [discriminate |].
      destruct (accept_inr _ _ _ E) as (A1 & A2 & A3 & A4 & A5 & A6).
      destruct (IH _ _ H) as (B1 & B2 & B3 & B4 & B5 & B6).
      rewrite filter_cons_True by exact Hin.
      rewrite filter_cons_False by (intros N; exact (N Hin)).
      rewrite last_cons. cbn [fold_left].
      rewrite B1, B2, B3, B4, B5, A1, A2, A3, A4, A5, <- app_assoc.
      repeat split; try reflexivity;
        try (destruct (last _); reflexivity);
        try (eapply same_jobs_trans; eassumption).
    + destruct (reject_spec f w) as ((R1 & R2 & R3) & R4 & R5 & R6).
      destruct (IH _ _ H) as (B1 & B2 & B3 & B4 & B5 & B6).
      rewrite filter_cons_False by exact Hout.
      rewrite filter_cons_True by exact Hout.
      cbn [flat_map].
      rewrite B1, B2, B3, B4, B5, R1, R2, R3, R5, R6, <- !app_assoc.
      repeat split; try reflexivity;
        try (eapply same_jobs_trans; eassumption).
Qed.

(** The loop raises exactly when it meets a supported file whose
    format has no targets to offer, and then with that key. *)
Lemma loop_inl files : forall w e,
  Forall (fun f => is_Some (f.2 !! "extensions")) (media_formats s) ->
  for_each (take s reject) files w = inl e ->
  e = KeyError "convertible_to"
  /\ Exists (fun f => file_ext f ∈ supported_extensions s
                      /\ lacks_targets (media_formats s) (file_ext f)) files.
Proof.
  induction files as [| f files IH]; intros w e Hk H; [discriminate |].
  cbn [for_each] in H. unfold take at 1 in H.
  destruct (decide (file_ext f ∈ supported_extensions s)) as [Hin | Hout].
  - destruct (accept s f w) as [e' | w1] eqn:E.
    + injection H as <-. apply accept_inl in E.
      destruct (add_convertible_inl _ _ _ _ Hk E) as [-> Hl].
      split; [reflexivity |]. apply Exists_cons_hd. split; assumption.
    + destruct (IH _ _ Hk H) as [-> Hex]. split; [reflexivity |].
      apply Exists_cons_tl, Hex.
  - destruct (IH _ _ Hk H) as [-> Hex]. split; [reflexivity |].
    apply Exists_cons_tl, Hex.
Qed.

Lemma loop_raises files : forall w,
  Forall (fun f => is_Some (f.2 !! "extensions")) (media_formats s) ->
  Exists (fun f => file_ext f ∈ supported_extensions s
                   /\ lacks_targets (media_formats s) (file_ext f)) files ->
  for_each (take s reject) files w = inl (KeyError "convertible_to").
Proof.
  induction files as [| f files IH]; intros w Hk Hex; [inversion Hex |].
  cbn [for_each]. unfold take at 1.
  destruct (decide (file_ext f ∈ supported_extensions s)) as [Hin | Hout].
  - pose proof (accept_cases f w) as C.
    destruct (add_convertible _ _ _) as [e | c] eqn:E.
    + rewrite C. destruct (add_convertible_inl _ _ _ _ Hk E) as [-> _].
      reflexivity.
    + destruct C as [w1 ->]. apply IH; [exact Hk |].
      apply Exists_cons in Hex as [[_ Hl] | Hex]; [| exact Hex].
      rewrite (add_convertible_raises _ _ _ Hk Hl) in E. discriminate.
  - apply IH; [exact Hk |].
    apply Exists_cons in Hex as [[Hin _] | Hex]; [contradiction | exact Hex].
Qed.

Lemma loop_total files : forall w,
  well_formed (media_formats s) -> exists w', for_each (take s reject) files w = inr w'.
Proof.
  induction files as [| f files IH]; intros w Hwf; [eexists; reflexivity |].
  cbn [for_each]. unfold take at 1.
  destruct (decide (file_ext f ∈ supported_extensions s)); [| apply IH, Hwf].
  pose proof (accept_cases f w) as C.
  destruct (add_convertible_well_formed (file_ext f) _ (mkCombo [] (-1)) Hwf)
    as [c E].
  rewrite E in C. destruct C as [w1 ->]. apply IH, Hwf.
Qed.

End Entering.

Section Ways.

Import MainWindow Intake.

Lemma show_rejects file w :
  same_queue (show (unsupported_format file) w) w
  /\ same_jobs w (show (unsupported_format file) w)
  /\ dialogs (show (unsupported_format file) w)
     = dialogs w ++ [unsupported_format file]
  /\ printed (show (unsupported_format file) w) = printed w ++ [].
Proof.
  unfold same_queue, same_jobs. cbn. rewrite app_nil_r.
  repeat split; reflexivity.
Qed.

Lemma say_rejects file w :
  same_queue (say (not_supported file) w) w
  /\ same_jobs w (say (not_supported file) w)
  /\ dialogs (say (not_supported file) w) = dialogs w ++ []
  /\ printed (say (not_supported file) w) = printed w ++ [not_supported file].
Proof.
  unfold same_queue, same_jobs. cbn. rewrite app_nil_r.
  repeat split; reflexivity.
Qed.

Lemma flat_map_singleton {A B} (g : A -> B) l :
  flat_map (fun x => [g x]) l = map g l.
Proof. induction l as [| x l IH]; [reflexivity |]. cbn. rewrite IH. reflexivity. Qed.

Lemma flat_map_nothing {A B} (l : list A) :
  flat_map (fun _ => @nil B) l = [].
Proof. induction l as [| x l IH]; [reflexivity | exact IH]. Qed.

Lemma take_in s r f w :
  file_ext f ∈ supported_extensions s -> take s r f w = accept s f w.
Proof. intros H. unfold take. rewrite decide_True by exact H. reflexivity. Qed.

Lemma take_out s r f w :
  file_ext f ∉ supported_extensions s -> take s r f w = inr (r f w).
Proof. intros H. unfold take. rewrite decide_False by exact H. reflexivity. Qed.

(** Whether the loop raises, and what, does not depend on the window
    nor on what is done with the files turned down. *)
Lemma loops_agree s r1 r2 files : forall w1 w2,
  match for_each (take s r1) files w1, for_each (take s r2) files w2 with
  | inl e1, inl e2 => e1 = e2
  | inr _, inr _ => True
  | _, _ => False
  end.
Proof.
  induction files as [| f files IH]; intros w1 w2; [exact I |].
  cbn [for_each].
  destruct (decide (file_ext f ∈ supported_extensions s)) as [Hin | Hout];
    [rewrite !take_in by exact Hin | rewrite !take_out by exact Hout; apply IH].
  pose proof (accept_cases s f w1) as C1. pose proof (accept_cases s f w2) as C2.
  destruct (add_convertible _ _ _) as [e | c].
  - rewrite C1, C2. reflexivity.
  - destruct C1 as [a ->], C2 as [b ->]. apply IH.
Qed.

Lemma note_extension_items c file :
  items (note_extension c file) =
  if decide (file_ext file ∈ items c) then items c
  else items c ++ [file_ext file].
Proof.
  unfold note_extension. destruct (decide (file_ext file ∈ items c)); reflexivity.
Qed.

Lemma noted_NoDup files : forall c,
  NoDup (items c) -> NoDup (items (fold_left note_extension files c)).
Proof.
  induction files as [| f files IH]; intros c H; [exact H |].
  cbn [fold_left]. apply IH. rewrite note_extension_items.
  destruct (decide (file_ext f ∈ items c)) as [Hin | Hout]; [exact H |].
  apply NoDup_app. split; [exact H |]. split.
  - intros x Hx Hx'. apply list_elem_of_singleton in Hx'. subst x. contradiction.
  - apply NoDup_singleton.
Qed.

Lemma noted_keeps files : forall c x,
  x ∈ items c -> x ∈ items (fold_left note_extension files c).
Proof.
  induction files as [| f files IH]; intros c x H; [exact H |].
  cbn [fold_left]. apply IH. rewrite note_extension_items.
  destruct (decide (file_ext f ∈ items c)); [exact H |].
  apply elem_of_app. left. exact H.
Qed.

Lemma noted_lists files : forall c f,
  f ∈ files -> file_ext f ∈ items (fold_left note_extension files c).
Proof.
  induction files as [| g files IH]; intros c f H; [inversion H |].
  cbn [fold_left]. apply elem_of_cons in H as [-> | H]; [| apply IH, H].
  apply noted_keeps. rewrite note_extension_items.
  destruct (decide (file_ext g ∈ items c)) as [Hin | Hout]; [exact Hin |].
  apply elem_of_app. right. apply list_elem_of_singleton. reflexivity.
Qed.

(** A selection that is made stays as it is. *)
Lemma noted_current files : forall c,
  currentText c <> "" ->
  currentText (fold_left note_extension files c) = currentText c.
Proof.
  induction files as [| f files IH]; intros c H; [reflexivity |].
  cbn [fold_left].
  assert (E : currentText (note_extension c f) = currentText c).
  { unfold note_extension. destruct (decide (file_ext f ∈ items c)); [reflexivity |].
    unfold currentText, addItem in *. cbn [items currentIndex].
    destruct (decide (items c = [])) as [Hnil | Hsome].
    - exfalso. apply H. rewrite Hnil. destruct (currentIndex c <? 0); [reflexivity |].
      rewrite lookup_nil. reflexivity.
    - destruct (currentIndex c <? 0); [reflexivity |].
      destruct (items c !! Z.to_nat (currentIndex c)) as [x |] eqn:L.
      + rewrite (lookup_app_l_Some _ _ _ _ L). reflexivity.
      + exfalso. apply H. reflexivity. }
  rewrite IH by (rewrite E; exact H). exact E.
Qed.

(** The first file noted on an empty selector becomes the selection. *)
Lemma noted_first f files c :
  items c = [] ->
  currentText (fold_left note_extension (f :: files) c) = file_ext f.
Proof.
  intros Hnil. cbn [fold_left].
  assert (E : currentText (note_extension c f) = file_ext f).
  { unfold note_extension. rewrite Hnil.
    rewrite decide_False by (apply not_elem_of_nil).
    unfold currentText, addItem. rewrite Hnil. reflexivity. }
  rewrite noted_current; [exact E |].
  rewrite E. unfold file_ext. rewrite append_cons. discriminate.
Qed.

End Ways.

Section Adding.

Import MainWindow Intake.

(** The window after [add_files], and after [dropEvent]. *)
Lemma add_files_inr s files w w' :
  add_files s (Some files) w = inr w' ->
  list_widget w' =
    list_widget w ++ filter (fun f => file_ext f ∈ supported_extensions s) files
  /\ input_combo_box w' =
     fold_left note_extension
       (filter (fun f => file_ext f ∈ supported_extensions s) files)
       (input_combo_box w)
  /\ output_combo_box w' =
     match last (filter (fun f => file_ext f ∈ supported_extensions s) files) with
     | Some f => mkCombo (offer (targets (media_formats s) (file_ext f))) 0
     | None => output_combo_box w
     end
  /\ dialogs w' =
     dialogs w ++
     map unsupported_format
         (filter (fun f => file_ext f ∉ supported_extensions s) files)
  /\ printed w' = printed w
  /\ same_jobs w w'.
Proof.
  intros H.
  destruct (loop_effect s (fun f => show (unsupported_format f))
              (fun f => [unsupported_format f]) (fun _ => [])
              show_rejects files w w' H) as (A1 & A2 & A3 & A4 & A5 & A6).
  rewrite flat_map_singleton in A4. rewrite flat_map_nothing, app_nil_r in A5.
  repeat (split; [assumption |]); assumption.
Qed.

Lemma dropEvent_inr s urls w w' :
  dropEvent s (Some urls) w = inr w' ->
  list_widget w' =
    list_widget w ++ filter (fun f => file_ext f ∈ supported_extensions s) urls
  /\ input_combo_box w' =
     fold_left note_extension
       (filter (fun f => file_ext f ∈ supported_extensions s) urls)
       (input_combo_box w)
  /\ output_combo_box w' =
     match last (filter (fun f => file_ext f ∈ supported_extensions s) urls) with
     | Some f => mkCombo (offer (targets (media_formats s) (file_ext f))) 0
     | None => output_combo_box w
     end
  /\ dialogs w' = dialogs w
  /\ printed w' =
     printed w ++
     map not_supported
         (filter (fun f => file_ext f ∉ supported_extensions s) urls)
  /\ same_jobs w w'.
Proof.
  intros H.
  destruct (loop_effect s (fun f => say (not_supported f))
              (fun _ => []) (fun f => [not_supported f])
              say_rejects urls w w' H) as (A1 & A2 & A3 & A4 & A5 & A6).
  rewrite flat_map_singleton in A5. rewrite flat_map_nothing, app_nil_r in A4.
  repeat (split; [assumption |]); assumption.
Qed.

(** What a Convert request does to the queue and the input selector. *)
Lemma handle_convert_queue w w' :
  handle_convert w = Some w' ->
  (forall f, f ∈ list_widget w' -> f ∈ list_widget w)
  /\ (input_combo_box w' = input_combo_box w
      \/ list_widget w' = [] /\ input_combo_box w' = clear (input_combo_box w)).
Proof.
  unfold handle_convert. intros H.
  destruct (decide (currentText (output_combo_box w) = ""));
    [injection H as <-; split; [intros f Hf; exact Hf | left; reflexivity] |].
  destruct (decide (currentText (input_combo_box w) = ""));
    [injection H as <-; split; [intros f Hf; exact Hf | left; reflexivity] |].
  destruct (ffmpeg_path w);
    [| injection H as <-; split; [intros f Hf; exact Hf | left; reflexivity]].
  destruct (convert_items_effect (currentText (input_combo_box w))
              (currentText (output_combo_box w)) (list_widget w) [] w
              ltac:(rewrite app_nil_r; reflexivity))
    as (w1 & threads & Hc & Hl & Hi & _).
  rewrite Hc in H. cbn [mbind option_bind] in H. rewrite app_nil_r in Hl.
  assert (Hsub : forall f, f ∈ list_widget w1 -> f ∈ list_widget w).
  { intros f Hf. rewrite Hl in Hf. apply list_elem_of_filter in Hf as [_ Hf].
    exact Hf. }
  destruct (decide (list_widget w1 = [])) as [Hnil | Hsome]; injection H as <-.
  - split.
    + intros f Hf. cbn in Hf. rewrite Hnil in Hf. inversion Hf.
    + right. cbn. rewrite Hi. split; [exact Hnil | reflexivity].
  - split; [exact Hsub | left; exact Hi].
Qed.

End Adding.

(** X4: [add_files] appends to the queue the selected files whose
    extension is supported, in their order, and shows one warning for each
    of the others; it starts no job and touches neither the disk nor the
    console.  With both keys in every format it never raises. *)
Theorem add_files_queues_the_supported
    (s : Settings) (files : list string) (w : MainWindow.t) :
  well_formed (media_formats s) ->
  exists w',
    Intake.add_files s (Some files) w = inr w'
    /\ MainWindow.list_widget w' =
       MainWindow.list_widget w ++
       filter (fun f => file_ext f ∈ supported_extensions s) files
    /\ MainWindow.dialogs w' =
       MainWindow.dialogs w ++
       map unsupported_format
           (filter (fun f => file_ext f ∉ supported_extensions s) files)
    /\ MainWindow.printed w' = MainWindow.printed w
    /\ same_jobs w w'.
Proof.
  intros Hwf.
  destruct (loop_total s (fun f => MainWindow.show (unsupported_format f))
              files w Hwf) as [w' H].
  exists w'. split; [exact H |].
  destruct (add_files_inr s files w w' H) as (A1 & _ & _ & A4 & A5 & A6).
  repeat (split; [assumption |]); assumption.
Qed.

Lemma add_files_queues_the_supported_witness :
  exists w',
    Intake.add_files sample_settings
      (Some ["a.mp4"; "notes.txt"; "B.MKV"; "c"]) empty_window = inr w'
    /\ MainWindow.list_widget w' = ["a.mp4"; "B.MKV"]
    /\ MainWindow.dialogs w' =
       [MainWindow.warning "Unsupported Format"
          "The file format '.txt' is not supported.";
        MainWindow.warning "Unsupported Format"
          "The file format '.c' is not supported."].
Proof.
  assert (Hwf : well_formed (media_formats sample_settings)).
  { repeat constructor; cbn; eexists; vm_compute; reflexivity. }
  destruct (add_files_queues_the_supported sample_settings
              ["a.mp4"; "notes.txt"; "B.MKV"; "c"] empty_window Hwf)
    as (w' & H & Hl & Hd & _).
  exists w'. split; [exact H |]. split; [exact Hl | exact Hd].
Defined.

(** X5: a drop and the file dialog do the same to the queue and to the
    two selectors, raise the same [KeyError] if any, and start no job;
    they differ in how a file is turned down: the drop prints a line and
    shows no box, the dialog shows a box and prints nothing. *)
Theorem drop_and_dialog_agree
    (s : Settings) (files : list string) (w : MainWindow.t) :
  match Intake.add_files s (Some files) w, Intake.dropEvent s (Some files) w with
  | inr a, inr b =>
      same_queue a b /\ same_jobs a b
      /\ MainWindow.printed a = MainWindow.printed w
      /\ MainWindow.dialogs b = MainWindow.dialogs w
      /\ exists turned_down,
           MainWindow.dialogs a =
             MainWindow.dialogs w ++ map unsupported_format turned_down
           /\ MainWindow.printed b =
              MainWindow.printed w ++ map not_supported turned_down
  | inl e, inl e' => e = e'
  | _, _ => False
  end.
Proof.
  pose proof (loops_agree s (fun f => MainWindow.show (unsupported_format f))
                (fun f => Intake.say (not_supported f)) files w w) as Hag.
  unfold Intake.add_files, Intake.dropEvent.
  change (fun file => MainWindow.show (MainWindow.warning _ _))
    with (fun f => MainWindow.show (unsupported_format f)).
  change (fun file_path => Intake.say _)
    with (fun f => Intake.say (not_supported f)).
  destruct (Intake.for_each (Intake.take s (fun f => MainWindow.show _)) files w)
    as [e | a] eqn:Ea;
    destruct (Intake.for_each (Intake.take s (fun f => Intake.say _)) files w)
    as [e' | b] eqn:Eb; try exact Hag.
  destruct (add_files_inr s files w a Ea) as (A1 & A2 & A3 & A4 & A5 & A6).
  destruct (dropEvent_inr s files w b Eb) as (B1 & B2 & B3 & B4 & B5 & B6).
  unfold same_queue, same_jobs in *.
  destruct A6 as (-> & -> & -> & -> & -> & ->).
  destruct B6 as (-> & -> & -> & -> & -> & ->).
  rewrite A1, A2, A3, A5, B1, B2, B3, B4.
  split; [repeat split; reflexivity |].
  split; [repeat split; reflexivity |].
  split; [reflexivity |]. split; [reflexivity |].
  exists (filter (fun f => file_ext f ∉ supported_extensions s) files).
  split; assumption.
Qed.

(** X6: the input selector never lists an extension twice and lists the
    extension of every queued file: the file dialog, a drop and a Convert
    request all keep it so. *)
Theorem queue_stays_listed
    (s : Settings) (files : option (list string)) (w w' : MainWindow.t) :
  listed w ->
  Intake.add_files s files w = inr w'
  \/ Intake.dropEvent s files w = inr w'
  \/ MainWindow.handle_convert w = Some w' ->
  listed w'.
Proof.
  intros [Hnd Hall] H.
  assert (Hin : forall l,
    MainWindow.list_widget w' =
      MainWindow.list_widget w ++
      filter (fun f => file_ext f ∈ supported_extensions s) l ->
    MainWindow.input_combo_box w' =
      fold_left note_extension
        (filter (fun f => file_ext f ∈ supported_extensions s) l)
        (MainWindow.input_combo_box w) ->
    listed w').
  { intros l Hl Hi. unfold listed. rewrite Hl, Hi. split.
    - apply noted_NoDup, Hnd.
    - intros f Hf. apply elem_of_app in Hf as [Hf | Hf].
      + apply noted_keeps, Hall, Hf.
      + apply noted_lists, Hf. }
  destruct H as [H | [H | H]].
  - destruct files as [files |]; [| injection H as <-; split; assumption].
    destruct (add_files_inr _ _ _ _ H) as (A1 & A2 & _). exact (Hin _ A1 A2).
  - destruct files as [files |]; [| injection H as <-; split; assumption].
    destruct (dropEvent_inr _ _ _ _ H) as (A1 & A2 & _). exact (Hin _ A1 A2).
  - destruct (handle_convert_queue _ _ H) as [Hsub [Hi | [Hnil Hi]]].
    + unfold listed. rewrite Hi. split; [exact Hnd |].
      intros f Hf. apply Hall, Hsub, Hf.
    + unfold listed. rewrite Hi, Hnil. split; [apply NoDup_nil_2 |].
      intros f Hf. inversion Hf.
Qed.

Lemma queue_stays_listed_witness :
  listed empty_window
  /\ exists w',
       Intake.add_files sample_settings (Some ["a.mp4"; "b.MP4"; "c.srt"])
         empty_window = inr w'
       /\ listed w'.
Proof.
  assert (H0 : listed empty_window).
  { split; [apply NoDup_nil_2 | intros f Hf; inversion Hf]. }
  split; [exact H0 |].
  eexists. split; [vm_compute; reflexivity |].
  apply (queue_stays_listed sample_settings
           (Some ["a.mp4"; "b.MP4"; "c.srt"]) empty_window _ H0).
  left. vm_compute. reflexivity.
Defined.

(** X7: after files are added, the output selector offers the formats
    of the last file taken in, whatever was added before, and has its first
    entry selected; the input selector keeps a selection that was made, and
    an empty one selects the extension of the first file taken in.  So the
    two selections can belong to different files. *)
Theorem selectors_after_adding
    (s : Settings) (files : list string) (w w' : MainWindow.t)
    (first : string) (others : list string) :
  Intake.add_files s (Some files) w = inr w' ->
  filter (fun f => file_ext f ∈ supported_extensions s) files = first :: others ->
  MainWindow.output_combo_box w' =
    MainWindow.mkCombo
      (offer (targets (media_formats s)
                      (file_ext (default first (last others))))) 0
  /\ (MainWindow.items (MainWindow.input_combo_box w) = [] ->
      MainWindow.currentText (MainWindow.input_combo_box w') = file_ext first)
  /\ (MainWindow.currentText (MainWindow.input_combo_box w) <> "" ->
      MainWindow.currentText (MainWindow.input_combo_box w')
      = MainWindow.currentText (MainWindow.input_combo_box w)).
Proof.
  intros H Hf. destruct (add_files_inr _ _ _ _ H) as (_ & A2 & A3 & _).
  rewrite Hf in A2, A3. split; [| split].
  - rewrite A3. 
    assert (E : last (first :: others) = Some (default first (last others))).
    { rewrite last_cons. destruct (last others); reflexivity. }
    rewrite E. reflexivity.
  - intros Hnil. rewrite A2. apply noted_first, Hnil.
  - intros Hsel. rewrite A2. apply noted_current, Hsel.
Qed.

Lemma selectors_after_adding_witness :
  exists w',
    Intake.add_files sample_settings (Some ["a.mp4"; "notes.txt"; "b.mp3"])
      empty_window = inr w'
    /\ MainWindow.currentText (MainWindow.input_combo_box w') = ".mp4"
    /\ MainWindow.output_combo_box w' = MainWindow.mkCombo [".ogg"] 0.
Proof.
  eexists. split; [vm_compute; reflexivity |].
  destruct (selectors_after_adding sample_settings
              ["a.mp4"; "notes.txt"; "b.mp3"] empty_window _ "a.mp4" ["b.mp3"]
              ltac:(vm_compute; reflexivity) ltac:(vm_compute; reflexivity))
    as (Ho & Hi & _).
  split; [exact (Hi eq_refl) |]. rewrite Ho. vm_compute. reflexivity.
Defined.

(** X8: the output selector after [update_output_combo_box] holds the
    ["convertible_to"] lists of the formats that list the extension of the
    file, in the order of the settings, or the one entry "No available
    formats" when there is none; the first entry is selected; what the
    selector held before plays no part.  With both keys in every format
    the method does not raise. *)
Theorem output_selector_is_rebuilt
    (formats : list (string * format_data)) (input_file : string)
    (w : MainWindow.t) :
  well_formed formats ->
  exists w',
    Intake.update_output_combo_box formats input_file w = inr w'
    /\ MainWindow.output_combo_box w' =
       MainWindow.mkCombo (offer (targets formats (file_ext input_file))) 0
    /\ MainWindow.items (MainWindow.output_combo_box w') <> []
    /\ same_queue w' (Intake.set_output_combo_box
                        (MainWindow.output_combo_box w') w)
    /\ same_jobs w w'.
Proof.
  intros Hwf. unfold Intake.update_output_combo_box.
  destruct (add_convertible_well_formed (file_ext input_file) formats
              (MainWindow.clear (MainWindow.output_combo_box w)) Hwf) as [c E].
  pose proof (update_output_combo_box_inr formats input_file w) as Hw.
  unfold Intake.update_output_combo_box in Hw. rewrite E in *.
  eexists. split; [reflexivity |]. rewrite (Hw _ eq_refl).
  cbn [Intake.set_output_combo_box MainWindow.output_combo_box MainWindow.items].
  split; [reflexivity |]. split.
  - destruct (targets formats (file_ext input_file)); discriminate.
  - split; unfold same_queue, same_jobs; cbn; repeat split; reflexivity.
Qed.

Lemma output_selector_is_rebuilt_witness :
  exists w',
    Intake.update_output_combo_box sample_formats "film.MKV"
      (Intake.set_output_combo_box (MainWindow.mkCombo [".ogg"] 0) empty_window)
    = inr w'
    /\ MainWindow.output_combo_box w' = MainWindow.mkCombo [".mkv"; ".avi"] 0.
Proof.
  assert (Hwf : well_formed sample_formats).
  { repeat constructor; cbn; eexists; vm_compute; reflexivity. }
  destruct (output_selector_is_rebuilt sample_formats "film.MKV"
              (Intake.set_output_combo_box (MainWindow.mkCombo [".ogg"] 0)
                                           empty_window) Hwf)
    as (w' & H & Ho & _).
  exists w'. split; [exact H |]. rewrite Ho. vm_compute. reflexivity.
Defined.

(** ** The settings *)

Section Loading.

Lemma load_supported_extensions_inr formats : forall S0 S,
  load_supported_extensions formats S0 = inr S ->
  Forall (fun f => is_Some (f.2 !! "extensions")) formats
  /\ forall ext,
       ext ∈ S <->
       ext ∈ S0 \/ Exists (fun f => ext ∈ default [] (f.2 !! "extensions")) formats.
Proof.
  induction formats as [| [name data] formats IH]; intros S0 S H.
  - injection H as <-. split; [constructor |].
    intros ext. split; [intros Hx; left; exact Hx |].
    intros [Hx | Hx]; [exact Hx | inversion Hx].
  - cbn [load_supported_extensions] in H.
    destruct (data !! "extensions") as [exts |] eqn:E; [| discriminate].
    destruct (IH _ _ H) as [Hk Hiff]. split.
    + constructor; [cbn [snd]; rewrite E; eauto | exact Hk].
    + intros ext. rewrite Hiff, elem_of_union, elem_of_list_to_set, Exists_cons.
      cbn [snd]. rewrite E. cbn [from_option id]. tauto.
Qed.

Lemma load_supported_extensions_inl formats : forall S0 e,
  load_supported_extensions formats S0 = inl e ->
  e = KeyError "extensions"
  /\ Exists (fun f => f.2 !! "extensions" = None) formats.
Proof.
  induction formats as [| [name data] formats IH]; intros S0 e H; [discriminate |].
  cbn [load_supported_extensions] in H.
  destruct (data !! "extensions") as [exts |] eqn:E.
  - destruct (IH _ _ H) as [-> Hex]. split; [reflexivity |].
    apply Exists_cons_tl, Hex.
  - injection H as <-. split; [reflexivity |]. apply Exists_cons_hd, E.
Qed.

Lemma filter_none {A} (P : A -> Prop) (HP : forall x, Decision (P x))
    (l : list A) :
  (forall x, ~ P x) -> filter P l = [].
Proof.
  intros H. induction l as [| x l IH]; [reflexivity |].
  rewrite filter_cons_False by apply H. exact IH.
Qed.

Lemma filter_all {A} (P : A -> Prop) (HP : forall x, Decision (P x))
    (HN : forall x, Decision (~ P x)) (l : list A) :
  (forall x, ~ P x) -> filter (fun x => ~ P x) l = l.
Proof.
  intros H. induction l as [| x l IH]; [reflexivity |].
  rewrite filter_cons_True by apply H. rewrite IH. reflexivity.
Qed.

Lemma lacks_targets_listed formats ext :
  lacks_targets formats ext ->
  Exists (fun f => ext ∈ default [] (f.2 !! "extensions")) formats.
Proof.
  unfold lacks_targets. intros H. eapply Exists_impl; [exact H |].
  intros f [Hin _]. exact Hin.
Qed.

End Loading.

(** X9: [load_supported_extensions] collects the extensions of all the
    formats: an extension is supported exactly when some format lists it.
    It raises [KeyError] for "extensions" exactly when some format has no
    such key. *)
Theorem supported_means_listed (formats : list (string * format_data)) :
  match load_supported_extensions formats ∅ with
  | inr supported =>
      Forall (fun f => is_Some (f.2 !! "extensions")) formats
      /\ forall ext,
           ext ∈ supported <->
           Exists (fun f => ext ∈ default [] (f.2 !! "extensions")) formats
  | inl e =>
      e = KeyError "extensions"
      /\ Exists (fun f => f.2 !! "extensions" = None) formats
  end.
Proof.
  destruct (load_supported_extensions formats ∅) as [e | S] eqn:E.
  - apply (load_supported_extensions_inl _ _ _ E).
  - destruct (load_supported_extensions_inr _ _ _ E) as [Hk Hiff].
    split; [exact Hk |]. intros ext. rewrite Hiff.
    split; [intros [H | H]; [set_solver | exact H] | intros H; right; exact H].
Qed.

(** X10: once [__init__] has collected the supported extensions without
    a [KeyError], the only exception that adding files can raise is the
    [KeyError] for "convertible_to", and it is raised exactly when the
    extension of one of the files is listed by a format without that
    key. *)
Theorem missing_targets_raise
    (formats : list (string * format_data)) (supported : gset string)
    (files : list string) (w : MainWindow.t) :
  load_supported_extensions formats ∅ = inr supported ->
  (forall e,
      Intake.add_files (mkSettings formats supported) (Some files) w = inl e ->
      e = KeyError "convertible_to")
  /\ ((exists e,
        Intake.add_files (mkSettings formats supported) (Some files) w = inl e)
      <-> Exists (fun f => lacks_targets formats (file_ext f)) files).
Proof.
  intros Hload.
  destruct (load_supported_extensions_inr _ _ _ Hload) as [Hk Hiff].
  set (s := mkSettings formats supported).
  set (r := fun f => MainWindow.show (unsupported_format f)).
  assert (Hex : Exists (fun f => lacks_targets formats (file_ext f)) files <->
                Exists (fun f => file_ext f ∈ supported_extensions s
                                 /\ lacks_targets (media_formats s) (file_ext f))
                       files).
  { split; intros H; (eapply Exists_impl; [exact H |]); cbn.
    - intros f Hl. split; [| exact Hl]. apply Hiff. right.
      apply lacks_targets_listed, Hl.
    - intros f [_ Hl]. exact Hl. }
  split.
  - intros e H. apply (loop_inl s r files w e Hk H).
  - rewrite Hex. split.
    + intros [e H]. apply (loop_inl s r files w e Hk H).
    + intros H. exists (KeyError "convertible_to").
      apply (loop_raises s r files w Hk H).
Qed.

Lemma missing_targets_raise_witness :
  Intake.add_files
    (mkSettings [("video", {["extensions" := [".mp4"]]})] {[".mp4"]})
    (Some ["notes.txt"; "a.mp4"]) empty_window
  = inl (KeyError "convertible_to").
Proof.
  assert (Hload : load_supported_extensions
                    [("video", {["extensions" := [".mp4"]]})] ∅
                  = inr ({[".mp4"]} : gset string)).
  { vm_compute. reflexivity. }
  destruct (missing_targets_raise _ _ ["notes.txt"; "a.mp4"] empty_window Hload)
    as [Hkey [_ Hraise]].
  destruct Hraise as [e He].
  - apply Exists_cons_tl, Exists_cons_hd.
    apply Exists_cons_hd. cbn. split; [| reflexivity].
    vm_compute. apply list_elem_of_here.
  - rewrite He. f_equal. apply (Hkey e He).
Defined.

(** X11: settings that cannot be read, or that have no key
    "media_formats", leave the window without a supported extension: the
    file dialog then turns every file down with a warning, and the queue
    and the selectors stay as they are. *)
Theorem unreadable_settings_take_nothing
    (loaded : string + gmap string (list (string * format_data)))
    (files : list string) (w : MainWindow.t) :
  (forall data, loaded = inr data -> data !! "media_formats" = None) ->
  let formats := fst (load_media_formats loaded) in
  snd (load_media_formats loaded) =
    match loaded with
    | inl e => ["Error loading settings: " +:+ e]
    | inr _ => []
    end
  /\ load_supported_extensions formats ∅ = inr ∅
  /\ exists w',
       Intake.add_files (mkSettings formats ∅) (Some files) w = inr w'
       /\ same_queue w' w
       /\ MainWindow.dialogs w' =
          MainWindow.dialogs w ++ map unsupported_format files.
Proof.
  intros Hmiss formats.
  assert (E : formats = []).
  { unfold formats, load_media_formats. destruct loaded as [e | data];
      [reflexivity |]. rewrite (Hmiss data eq_refl). reflexivity. }
  rewrite E. split; [destruct loaded; reflexivity |].
  split; [reflexivity |].
  destruct (loop_total (mkSettings [] ∅)
              (fun f => MainWindow.show (unsupported_format f)) files w
              ltac:(constructor)) as [w' H].
  exists w'. split; [exact H |].
  destruct (add_files_inr _ _ _ _ H) as (A1 & A2 & A3 & A4 & _).
  assert (Hno : forall f : string,
             ~ file_ext f ∈ supported_extensions (mkSettings [] ∅))
    by (intros f; cbn; set_solver).
  rewrite (filter_none _ _ files Hno) in A1, A2, A3.
  rewrite (filter_all _ _ _ files Hno) in A4.
  rewrite app_nil_r in A1.
  split; [repeat split; assumption | exact A4].
Qed.

Lemma unreadable_settings_take_nothing_witness :
  exists w',
    Intake.add_files
      (mkSettings (fst (load_media_formats (inl "Expecting value"))) ∅)
      (Some ["a.mp4"]) empty_window = inr w'
    /\ MainWindow.list_widget w' = []
    /\ MainWindow.dialogs w' =
       [MainWindow.warning "Unsupported Format"
          "The file format '.mp4' is not supported."].
Proof.
  destruct (unreadable_settings_take_nothing (inl "Expecting value") ["a.mp4"]
              empty_window ltac:(discriminate))
    as (_ & _ & w' & H & (Hl & _) & Hd).
  exists w'. split; [exact H |]. split; [exact Hl | exact Hd].
Defined.

(** ** From the file dialog to a job *)

Section Suffixes.

Import MainWindow Intake.

Lemma substring_whole b : substring 0 (String.length b) b = b.
Proof. induction b as [| c b IH]; [reflexivity |]. cbn. rewrite IH. reflexivity. Qed.

Lemma substring_tail a b k : substring (String.length a) k (a +:+ b) = substring 0 k b.
Proof.
  induction a as [| c a IH]; [rewrite append_nil_l; reflexivity |].
  rewrite append_cons. cbn [String.length substring]. exact IH.
Qed.

Lemma endswith_spec a b b' :
  String.length b' = String.length b ->
  endswith (a +:+ b) b' = String.eqb b b'.
Proof.
  intros Hlen. unfold endswith. rewrite append_length, Hlen.
  replace (String.length a + String.length b - String.length b)%nat
    with (String.length a) by lia.
  rewrite substring_tail, substring_whole.
  replace (String.length b <=? String.length a + String.length b)%nat with true
    by (symmetry; apply Nat.leb_le; lia).
  reflexivity.
Qed.

(** The first name tried is taken when it is free. *)
Lemma destination_base disk input_file output_ext :
  disk !! (rsplit1 "." input_file +:+ output_ext) = None ->
  destination disk input_file output_ext
  = Some (rsplit1 "." input_file +:+ output_ext).
Proof.
  intros H. unfold destination. cbn [free_name].
  rewrite decide_False; [reflexivity |].
  rewrite H. intros [x Hx]. discriminate.
Qed.

(** A Convert request that finds no queued file with the selected
    extension starts nothing and leaves the queue alone. *)
Lemma handle_convert_no_match w w' :
  Forall (fun f => endswith f (currentText (input_combo_box w)) = false)
         (list_widget w) ->
  handle_convert w = Some w' ->
  list_widget w' = list_widget w /\ started w' = started w.
Proof.
  intros Hall. unfold handle_convert. intros H.
  destruct (decide (currentText (output_combo_box w) = ""));
    [injection H as <-; split; reflexivity |].
  destruct (decide (currentText (input_combo_box w) = ""));
    [injection H as <-; split; reflexivity |].
  destruct (ffmpeg_path w); [| injection H as <-; split; reflexivity].
  destruct (convert_items_effect (currentText (input_combo_box w))
              (currentText (output_combo_box w)) (list_widget w) [] w
              ltac:(rewrite app_nil_r; reflexivity))
    as (w1 & threads & Hc & Hl & _ & _ & _ & _ & _ & _ & _ & Hs & Hm & _).
  rewrite Hc in H. cbn [mbind option_bind] in H. rewrite app_nil_r in Hl.
  assert (F1 : filter (fun f => endswith f (currentText (input_combo_box w)) = false)
                      (list_widget w) = list_widget w).
  { clear - Hall. induction Hall as [| f l Hf _ IH]; [reflexivity |].
    rewrite filter_cons_True by exact Hf. rewrite IH. reflexivity. }
  assert (F2 : filter (fun f => endswith f (currentText (input_combo_box w)) = true)
                      (list_widget w) = []).
  { clear - Hall. induction Hall as [| f l Hf _ IH]; [reflexivity |].
    rewrite filter_cons_False by (rewrite Hf; discriminate). exact IH. }
  rewrite F1 in Hl. rewrite F2 in Hm.
  destruct threads; [| discriminate]. rewrite app_nil_r in Hs.
  destruct (decide (list_widget w1 = [])); injection H as <-; cbn;
    split; assumption.
Qed.

(** A Convert request on a queue of one file that carries the selected
    extension. *)
Lemma handle_convert_single w f tool d :
  list_widget w = [f] ->
  currentText (output_combo_box w) <> "" ->
  currentText (input_combo_box w) <> "" ->
  endswith f (currentText (input_combo_box w)) = true ->
  ffmpeg_path w = Some tool ->
  destination (disk w) f (currentText (output_combo_box w)) = Some d ->
  exists w',
    handle_convert w = Some w'
    /\ started w' = started w ++ [ConverterThread.mk f d (Some tool)]
    /\ list_widget w' = [].
Proof.
  intros Hl Ho Hi He Ht Hd. unfold handle_convert.
  rewrite decide_False by exact Ho. rewrite decide_False by exact Hi.
  rewrite Ht, Hl. unfold items_to_remove. cbn [imap].
  rewrite filter_cons_True by exact He. rewrite filter_nil.
  change (reverse [(0%nat, f)]) with [(0%nat, f)]. cbn [convert_items].
  unfold convert_file. rewrite Hd, Ht. cbn [mbind option_bind].
  cbn [takeItem list_widget]. rewrite Hl. cbn [delete].
  eexists. split; [reflexivity |]. split; reflexivity.
Qed.

End Suffixes.

(** X12: the entry "No available formats", which the output selector
    shows when no format is on offer, is taken for an extension like any
    other: after such a file is added, a Convert request starts a job whose
    destination is the source's stem followed by that text. *)
Theorem placeholder_is_converted
    (s : Settings) (stem e tool : string) (w : MainWindow.t) :
  contains "." e = false -> lower e = e ->
  well_formed (media_formats s) ->
  "." +:+ e ∈ supported_extensions s ->
  targets (media_formats s) ("." +:+ e) = [] ->
  MainWindow.list_widget w = [] ->
  MainWindow.items (MainWindow.input_combo_box w) = [] ->
  MainWindow.ffmpeg_path w = Some tool ->
  MainWindow.disk w !! (stem +:+ "No available formats") = None ->
  exists w1 w2,
    Intake.add_files s (Some [stem +:+ "." +:+ e]) w = inr w1
    /\ MainWindow.currentText (MainWindow.output_combo_box w1)
       = "No available formats"
    /\ MainWindow.handle_convert w1 = Some w2
    /\ MainWindow.started w2 =
       MainWindow.started w ++
       [ConverterThread.mk (stem +:+ "." +:+ e)
                           (stem +:+ "No available formats") (Some tool)]
    /\ MainWindow.list_widget w2 = [].
Proof.
  intros He Hlow Hwf Hsup Htg Hq Hin Htool Hfree.
  set (f := stem +:+ "." +:+ e).
  assert (Hext : file_ext f = "." +:+ e).
  { unfold f. rewrite (file_ext_stem stem e He), Hlow.
    reflexivity. }
  destruct (loop_total s (fun f => MainWindow.show (unsupported_format f))
              [f] w Hwf) as [w1 H1].
  destruct (add_files_inr s [f] w w1 H1) as (A1 & A2 & A3 & _ & _ & A6).
  rewrite filter_cons_True in A1, A2, A3 by (rewrite Hext; exact Hsup).
  rewrite filter_nil in A1, A2, A3. rewrite Hq in A1. cbn [app last] in A1, A3.
  rewrite Hext, Htg in A3.
  destruct A6 as (S1 & _ & _ & S4 & S5 & _).
  assert (Ho : MainWindow.currentText (MainWindow.output_combo_box w1)
               = "No available formats") by (rewrite A3; reflexivity).
  assert (Hi : MainWindow.currentText (MainWindow.input_combo_box w1) = "." +:+ e).
  { rewrite A2, (noted_first f [] _ Hin). exact Hext. }
  destruct (handle_convert_single w1 f tool (stem +:+ "No available formats"))
    as (w2 & H2 & Hs & Hl).
  - exact A1.
  - rewrite Ho. discriminate.
  - rewrite Hi, append_cons. discriminate.
  - rewrite Hi. unfold f.
    rewrite endswith_spec by reflexivity. apply String.eqb_refl.
  - rewrite S5. exact Htool.
  - rewrite Ho, S4.
    pose proof (destination_base (MainWindow.disk w) f "No available formats") as D.
    unfold f in *. rewrite (rsplit1_stem stem e He) in D. apply D, Hfree.
  - exists w1, w2. split; [exact H1 |]. split; [exact Ho |].
    split; [exact H2 |]. rewrite Hs, S1. split; [reflexivity | exact Hl].
Qed.

Lemma placeholder_is_converted_witness :
  exists w1 w2,
    Intake.add_files sample_settings (Some ["talk.srt"]) empty_window = inr w1
    /\ MainWindow.handle_convert w1 = Some w2
    /\ MainWindow.started w2 =
       [ConverterThread.mk "talk.srt" "talkNo available formats" (Some "ffmpeg")].
Proof.
  assert (Hwf : well_formed (media_formats sample_settings)).
  { repeat constructor; cbn; eexists; vm_compute; reflexivity. }
  destruct (placeholder_is_converted sample_settings "talk" "srt" "ffmpeg"
              empty_window eq_refl eq_refl Hwf)
    as (w1 & w2 & H1 & _ & H2 & Hs & _);
    try (vm_compute; reflexivity).
  exists w1, w2. split; [exact H1 |]. split; [exact H2 | exact Hs].
Defined.

(** X13: extensions are lowered for the selectors but not for the
    match of line 293: a file whose extension holds a capital letter is
    queued and its lower-case extension is selected, yet no Convert
    request ever takes it out of the queue or starts a job for it. *)
Theorem capital_extension_is_never_converted
    (s : Settings) (stem e : string) (w : MainWindow.t) :
  contains "." e = false -> lower e <> e ->
  well_formed (media_formats s) ->
  "." +:+ lower e ∈ supported_extensions s ->
  MainWindow.list_widget w = [] ->
  MainWindow.items (MainWindow.input_combo_box w) = [] ->
  exists w1,
    Intake.add_files s (Some [stem +:+ "." +:+ e]) w = inr w1
    /\ MainWindow.list_widget w1 = [stem +:+ "." +:+ e]
    /\ MainWindow.currentText (MainWindow.input_combo_box w1) = "." +:+ lower e
    /\ forall w2,
         MainWindow.handle_convert w1 = Some w2 ->
         MainWindow.list_widget w2 = [stem +:+ "." +:+ e]
         /\ MainWindow.started w2 = MainWindow.started w.
Proof.
  intros He Hcap Hwf Hsup Hq Hin.
  set (f := stem +:+ "." +:+ e).
  assert (Hext : file_ext f = "." +:+ lower e).
  { unfold f. apply (file_ext_stem stem e He). }
  destruct (loop_total s (fun f => MainWindow.show (unsupported_format f))
              [f] w Hwf) as [w1 H1].
  destruct (add_files_inr s [f] w w1 H1) as (A1 & A2 & _ & _ & _ & A6).
  rewrite filter_cons_True in A1, A2 by (rewrite Hext; exact Hsup).
  rewrite filter_nil in A1, A2. rewrite Hq in A1. cbn [app] in A1.
  destruct A6 as (S1 & _).
  assert (Hi : MainWindow.currentText (MainWindow.input_combo_box w1)
               = "." +:+ lower e).
  { rewrite A2, (noted_first f [] _ Hin). exact Hext. }
  exists w1. split; [exact H1 |]. split; [exact A1 |]. split; [exact Hi |].
  intros w2 H2.
  destruct (handle_convert_no_match w1 w2) as [Hl Hs]; [| exact H2 |].
  - rewrite A1, Hi. constructor; [| constructor].
    unfold f.
    rewrite endswith_spec
      by (rewrite !append_cons, !append_nil_l; cbn [String.length];
          rewrite lower_length; reflexivity).
    apply String.eqb_neq. rewrite !append_cons, !append_nil_l.
    intros [= E]. apply Hcap. symmetry. exact E.
  - rewrite Hl, Hs, A1, S1. split; reflexivity.
Qed.

Lemma capital_extension_is_never_converted_witness :
  exists w1,
    Intake.add_files sample_settings (Some ["Holiday.MP4"]) empty_window = inr w1
    /\ MainWindow.list_widget w1 = ["Holiday.MP4"]
    /\ MainWindow.currentText (MainWindow.input_combo_box w1) = ".mp4"
    /\ MainWindow.handle_convert w1 = Some w1.
Proof.
  assert (Hwf : well_formed (media_formats sample_settings)).
  { repeat constructor; cbn; eexists; vm_compute; reflexivity. }
  destruct (capital_extension_is_never_converted sample_settings "Holiday" "MP4"
              empty_window eq_refl ltac:(discriminate) Hwf)
    as (w1 & H1 & Hl & Hi & _);
    try (vm_compute; reflexivity).
  exists w1. split; [exact H1 |]. split; [exact Hl |]. split; [exact Hi |].
  assert (E : inr w1 = Intake.add_files sample_settings (Some ["Holiday.MP4"])
                         empty_window) by (symmetry; exact H1).
  vm_compute in E. injection E as ->. vm_compute. reflexivity.
Defined.

(** ** A job seen from the window *)

Section Frames.

Import MainWindow.

(** The slots write the frames, the disk and the console only. *)
Lemma deliver_static now s w :
  list_widget (deliver now s w) = list_widget w
  /\ input_combo_box (deliver now s w) = input_combo_box w
  /\ output_combo_box (deliver now s w) = output_combo_box w
  /\ converter_threads (deliver now s w) = converter_threads w
  /\ started (deliver now s w) = started w
  /\ dialogs (deliver now s w) = dialogs w
  /\ ffmpeg_path (deliver now s w) = ffmpeg_path w.
Proof.
  destruct s as [fn v | a b | fn st]; cbn [deliver];
    unfold update_progress, update_status;
    try destruct (progress_frames w !! fn); cbn; repeat split; reflexivity.
Qed.

Lemma deliver_all_static clock ss : forall i w,
  list_widget (deliver_all clock i ss w) = list_widget w
  /\ input_combo_box (deliver_all clock i ss w) = input_combo_box w
  /\ output_combo_box (deliver_all clock i ss w) = output_combo_box w
  /\ converter_threads (deliver_all clock i ss w) = converter_threads w
  /\ started (deliver_all clock i ss w) = started w
  /\ dialogs (deliver_all clock i ss w) = dialogs w
  /\ ffmpeg_path (deliver_all clock i ss w) = ffmpeg_path w.
Proof.
  induction ss as [| s ss IH]; intros i w; [repeat split; reflexivity |].
  cbn [deliver_all].
  destruct (IH (S i) (deliver (clock i) s w)) as (A1 & A2 & A3 & A4 & A5 & A6 & A7).
  destruct (deliver_static (clock i) s w) as (B1 & B2 & B3 & B4 & B5 & B6 & B7).
  repeat split; congruence.
Qed.

(** A signal about [f] leaves the frames of the other files alone. *)
Lemma deliver_others now s w f g :
  about f s -> g <> f ->
  progress_frames (deliver now s w) !! g = progress_frames w !! g.
Proof.
  intros Ha Hg. destruct s as [fn v | a b | fn st]; cbn in Ha; subst;
    cbn [deliver]; unfold update_progress, update_status;
    try destruct (progress_frames w !! f); cbn; try reflexivity;
    apply lookup_insert_ne; congruence.
Qed.

Lemma deliver_all_others clock f g ss : forall i w,
  Forall (about f) ss -> g <> f ->
  progress_frames (deliver_all clock i ss w) !! g = progress_frames w !! g.
Proof.
  induction ss as [| s ss IH]; intros i w Ha Hg; [reflexivity |].
  apply Forall_cons in Ha as [Hs Ha]. cbn [deliver_all].
  rewrite IH by assumption. apply (deliver_others _ _ _ f); assumption.
Qed.

(** What a signal about [f] writes into the frame of [f]. *)
Lemma deliver_frame now s w f fr :
  about f s -> progress_frames w !! f = Some fr ->
  progress_frames (deliver now s w) !! f =
  Some (mkFrame
          (match s with progress_updated _ v => v | _ => progress_bar fr end)
          (match s with status_updated _ st => st | _ => status_label fr end)).
Proof.
  intros Ha Hf. destruct s as [fn v | a b | fn st]; cbn in Ha; subst;
    cbn [deliver]; unfold update_progress, update_status; rewrite ?Hf; cbn.
  - apply lookup_insert_eq.
  - rewrite Hf. destruct fr; reflexivity.
  - apply lookup_insert_eq.
Qed.

Lemma deliver_all_frame clock f ss : forall i w fr,
  Forall (about f) ss -> progress_frames w !! f = Some fr ->
  progress_frames (deliver_all clock i ss w) !! f =
  Some (mkFrame (default (progress_bar fr) (last (progress_values ss)))
                (default (status_label fr) (last (status_values ss)))).
Proof.
  induction ss as [| s ss IH]; intros i w fr Ha Hf.
  - cbn. rewrite Hf. destruct fr; reflexivity.
  - apply Forall_cons in Ha as [Hs Ha]. cbn [deliver_all].
    rewrite (IH _ _ _ Ha (deliver_frame (clock i) s w f fr Hs Hf)).
    destruct s as [fn v | a b | fn st]; cbn [progress_bar status_label];
      unfold progress_values, status_values; cbn [omap list_omap];
      fold (progress_values ss); fold (status_values ss);
      rewrite ?last_cons;
      destruct (last (progress_values ss)), (last (status_values ss));
      reflexivity.
Qed.

(** A job without a frame shows nothing. *)
Lemma deliver_all_unseen clock f ss : forall i w,
  Forall (about f) ss -> progress_frames w !! f = None ->
  progress_frames (deliver_all clock i ss w) = progress_frames w.
Proof.
  induction ss as [| s ss IH]; intros i w Ha Hf; [reflexivity |].
  apply Forall_cons in Ha as [Hs Ha]. cbn [deliver_all].
  assert (E : progress_frames (deliver (clock i) s w) = progress_frames w).
  { destruct s as [fn v | a b | fn st]; cbn in Hs; subst;
      cbn [deliver]; unfold update_progress, update_status; rewrite ?Hf;
      reflexivity. }
  rewrite IH by (assumption || (rewrite E; exact Hf)). exact E.
Qed.

(** Every signal of a worker is about its own source. *)
Lemma run_signals_about self p :
  Forall (about (ConverterThread.input_file self))
         (signals (fst (ConverterThread.run self p start))).
Proof.
  rewrite run_trace. cbn [fst signals start app].
  apply Forall_app. split.
  - unfold running_signals. constructor; [reflexivity |].
    destruct (fst (first_duration (stderr p))) as [d |]; [| constructor].
    destruct (truthy (Some d)); [| constructor].
    constructor; [reflexivity |].
    apply Forall_map. apply Forall_forall. intros t _. reflexivity.
  - unfold terminal_signals. destruct (returncode p =? 0);
      repeat constructor.
Qed.

Lemma running_values_in_range self p :
  Forall (fun v => 0 <= v <= 99)
         (progress_values
            (running_signals self (fst (first_duration (stderr p))) (stdout p))).
Proof.
  rewrite progress_values_running.
  pose proof (first_duration_nonneg (stderr p)) as Hnn.
  destruct (fst (first_duration (stderr p))) as [d |]; [| constructor].
  destruct (truthy (Some d)) eqn:Ht; [| constructor].
  apply progress_in_range; [| apply current_times_nonneg].
  apply truthy_positive; [apply Hnn; reflexivity | exact Ht].
Qed.

Lemma status_values_app (a b : list signal) :
  status_values (a ++ b) = status_values a ++ status_values b.
Proof. unfold status_values. apply omap_app. Qed.

End Frames.

(** X14: when a job ends, whatever its outcome, the window forgets it:
    the frame and the thread registered for its source are removed, the
    frames and threads of the other sources are as before the job, and so
    are the queue, the selectors and the message boxes.  A job never
    raises into the window. *)
Theorem finished_job_is_forgotten
    (clock : nat -> string) (thread : ConverterThread.t) (p : Process)
    (w : MainWindow.t) :
  exists w',
    MainWindow.job clock thread p w = inr w'
    /\ MainWindow.progress_frames w' =
       delete (ConverterThread.input_file thread) (MainWindow.progress_frames w)
    /\ MainWindow.converter_threads w' =
       delete (ConverterThread.input_file thread) (MainWindow.converter_threads w)
    /\ same_queue w' w
    /\ MainWindow.started w' = MainWindow.started w
    /\ MainWindow.dialogs w' = MainWindow.dialogs w.
Proof.
  unfold MainWindow.job.
  pose proof (run_signals_about thread p) as Hab.
  rewrite run_trace in *. cbn [fst signals start app] in *.
  set (ss := running_signals _ _ _ ++ terminal_signals _ _) in *.
  eexists. split; [reflexivity |].
  destruct (deliver_all_static clock ss 0 w)
    as (A1 & A2 & A3 & A4 & A5 & A6 & A7).
  unfold same_queue.
  cbn [MainWindow.on_thread_finished MainWindow.progress_frames
       MainWindow.converter_threads MainWindow.started MainWindow.dialogs
       MainWindow.list_widget MainWindow.input_combo_box
       MainWindow.output_combo_box].
  rewrite A1, A2, A3, A4, A5, A6.
  split; [| repeat split; reflexivity].
  apply map_eq. intros g.
  destruct (decide (g = ConverterThread.input_file thread)) as [-> | Hg].
  - rewrite !lookup_delete_eq. reflexivity.
  - rewrite !lookup_delete_ne by congruence.
    apply (deliver_all_others clock _ g _ 0 w Hab Hg).
Qed.

(** X15: what the frame of a job shows once all the signals of its
    worker are delivered: after exit code 0 the bar is at 100 and the label
    reads "Completed"; after another exit code the label reads "Error" and
    the bar is left at the last progress reported, or where it was when
    none was reported.  The bar stays between 0 and 100, and the frames of
    other files are not written. *)
Theorem frame_shows_the_outcome
    (clock : nat -> string) (thread : ConverterThread.t) (p : Process)
    (w : MainWindow.t) (frame : MainWindow.ConversionProgress) :
  MainWindow.progress_frames w !! ConverterThread.input_file thread = Some frame ->
  let w' :=
    MainWindow.deliver_all clock 0
      (signals (fst (ConverterThread.run thread p start))) w in
  let reported :=
    progress_values (signals (fst (ConverterThread.running thread p start))) in
  let bar :=
    if returncode p =? 0 then 100
    else default (MainWindow.progress_bar frame) (last reported) in
  MainWindow.progress_frames w' !! ConverterThread.input_file thread =
    Some (MainWindow.mkFrame bar
            (if returncode p =? 0 then "Completed" else "Error"))
  /\ (0 <= MainWindow.progress_bar frame <= 100 -> 0 <= bar <= 100)
  /\ forall g, g <> ConverterThread.input_file thread ->
               MainWindow.progress_frames w' !! g
               = MainWindow.progress_frames w !! g.
Proof.
  intros Hf w' reported bar.
  pose proof (run_signals_about thread p) as Hab.
  pose proof (running_values_in_range thread p) as Hrange.
  unfold w', bar, reported. clear w' bar reported.
  rewrite running_trace, run_trace in *. cbn [fst signals start app] in *.
  set (rs := running_signals thread (fst (first_duration (stderr p))) (stdout p))
    in *.
  split; [| split].
  - rewrite (deliver_all_frame clock _ _ 0 w frame Hab Hf).
    rewrite progress_values_app, status_values_app, progress_values_terminal.
    unfold terminal_signals. destruct (returncode p =? 0).
    + change (status_values [_; _; _]) with ["Completed"].
      rewrite !last_snoc. reflexivity.
    + change (status_values [_]) with ["Error"].
      rewrite last_snoc, app_nil_r. reflexivity.
  - intros Hbar. destruct (returncode p =? 0); [lia |].
    destruct (last (progress_values rs)) as [v |] eqn:L; [| exact Hbar].
    cbn [default from_option id].
    apply last_Some in L as [l' L]. rewrite L in Hrange.
    apply Forall_app in Hrange as [_ Hv]. apply Forall_cons in Hv as [Hv _]. lia.
  - intros g Hg. apply (deliver_all_others clock _ g _ 0 w Hab Hg).
Qed.

Lemma frame_shows_the_outcome_witness :
  MainWindow.progress_frames
    (MainWindow.deliver_all (fun _ => "12:00") 0
       (signals (fst (ConverterThread.run sample_thread (sample_process 1) start)))
       watching_window)
    !! "foo.mp4"
  = Some (MainWindow.mkFrame 99 "Error").
Proof.
  destruct (frame_shows_the_outcome (fun _ => "12:00") sample_thread
              (sample_process 1) watching_window
              (MainWindow.mkFrame 0 "Waiting...")
              ltac:(vm_compute; reflexivity)) as (H & _ & _).
  change (ConverterThread.input_file sample_thread) with "foo.mp4" in H.
  rewrite H. vm_compute. reflexivity.
Defined.

(** ** The log *)

Section Log.

Import MainWindow.

Lemma deliver_all_log clock ss : forall i w,
  log_file (deliver_all clock i ss w) = log_file w
  /\ (forall path, path <> log_file w ->
                   disk (deliver_all clock i ss w) !! path = disk w !! path)
  /\ default "" (disk (deliver_all clock i ss w) !! log_file w)
     = default "" (disk w !! log_file w) +:+ logged clock i ss
  /\ (completions ss <> [] -> is_Some (disk (deliver_all clock i ss w) !! log_file w))
  /\ (completions ss = [] -> disk (deliver_all clock i ss w) = disk w).
Proof.
  induction ss as [| s ss IH]; intros i w.
  - cbn. rewrite append_nil_r. repeat split; try reflexivity.
    intros H. contradiction.
  - cbn [deliver_all].
    destruct (IH (S i) (deliver (clock i) s w)) as (A1 & A2 & A3 & A4 & A5).
    destruct s as [fn v | a b | fn st].
    + cbn [deliver] in *. 
      destruct (update_progress_files fn v w) as [E1 E2].
      rewrite E1, E2 in *. cbn [logged]. unfold completions in *.
      cbn [omap list_omap]. repeat split; assumption.
    + cbn [deliver on_conversion_finished log_file disk] in *.
      cbn [logged]. fold (log_line (clock i) a b) in *.
      split; [exact A1 |]. split; [| split; [| split]].
      * intros path Hp. rewrite (A2 path Hp). apply lookup_insert_ne. congruence.
      * rewrite A3, lookup_insert_eq. cbn [from_option id default].
        rewrite append_assoc. reflexivity.
      * intros _.
        destruct (decide (completions ss = [])) as [Hc | Hc].
        -- rewrite (A5 Hc), lookup_insert_eq. eauto.
        -- apply A4, Hc.
      * intros Hc. unfold completions in Hc. cbn in Hc. discriminate.
    + cbn [deliver] in *.
      destruct (update_status_files fn st w) as [E1 E2].
      rewrite E1, E2 in *. cbn [logged]. unfold completions in *.
      cbn [omap list_omap]. repeat split; assumption.
Qed.

End Log.

(** X16: the log is append-only: whatever signals reach the window,
    the log file afterwards holds what it held before, followed by one
    line per completion signal, in the order of their arrival; the file
    exists afterwards exactly when it existed before or a job has
    completed; the window keeps its log file and no other file changes. *)
Theorem log_is_append_only
    (clock : nat -> string) (i : nat) (ss : list signal) (w : MainWindow.t) :
  let w' := MainWindow.deliver_all clock i ss w in
  MainWindow.log_file w' = MainWindow.log_file w
  /\ (forall path, path <> MainWindow.log_file w ->
                   MainWindow.disk w' !! path = MainWindow.disk w !! path)
  /\ default "" (MainWindow.disk w' !! MainWindow.log_file w) =
     default "" (MainWindow.disk w !! MainWindow.log_file w)
     +:+ logged clock i ss
  /\ (is_Some (MainWindow.disk w' !! MainWindow.log_file w) <->
      is_Some (MainWindow.disk w !! MainWindow.log_file w)
      \/ completions ss <> []).
Proof.
  intros w'. unfold w'.
  destruct (deliver_all_log clock ss i w) as (A1 & A2 & A3 & A4 & A5).
  split; [exact A1 |]. split; [exact A2 |]. split; [exact A3 |].
  destruct (decide (completions ss = [])) as [Hc | Hc].
  - rewrite (A5 Hc). split; [intros H; left; exact H |].
    intros [H | H]; [exact H | contradiction].
  - split; [intros _; right; exact Hc | intros _; apply A4, Hc].
Qed.

Lemma log_is_append_only_witness :
  MainWindow.disk watching_window !! "logs/2024-05-01.log" = None
  /\ MainWindow.disk
       (MainWindow.deliver_all (fun _ => "2024-05-01 12:00:00") 0
          (signals (fst (ConverterThread.run sample_thread (sample_process 0)
                           start)))
          watching_window)
     !! "logs/2024-05-01.log"
     = Some ("2024-05-01 12:00:00: foo.mp4 -> foo.mkv" +:+ String "010" "").
Proof.
  split; [reflexivity |].
  destruct (log_is_append_only (fun _ => "2024-05-01 12:00:00") 0
              (signals (fst (ConverterThread.run sample_thread (sample_process 0)
                               start)))
              watching_window)
    as (_ & _ & H & Hex).
  change (MainWindow.log_file watching_window) with "logs/2024-05-01.log"
    in H, Hex.
  destruct (proj2 Hex) as [text Ht]; [right; vm_compute; discriminate |].
  rewrite Ht in *. cbn [default from_option id] in H. rewrite H.
  vm_compute. reflexivity.
Defined.

(** X17: the tool is looked for on Windows only.  [get_ffmpeg_path]
    yields no path exactly when the system is Windows and the bundled
    executable is missing, and raises exactly on a system that is none of
    Windows, Linux and Darwin.  On Linux and Darwin it answers "ffmpeg"
    without looking at the disk, so there a Convert request never shows
    the "FFmpeg Error" box: it shows no box, or one of the two format
    warnings. *)
Theorem tool_is_looked_for_on_windows_only
    (current_os bundled : string) (disk : gmap string string) :
  (MainWindow.get_ffmpeg_path current_os bundled disk = inr None
   <-> current_os = "Windows" /\ disk !! bundled = None)
  /\ (forall e,
        MainWindow.get_ffmpeg_path current_os bundled disk = inl e
        <-> e = UnsupportedOS current_os
            /\ current_os <> "Windows" /\ current_os <> "Linux"
            /\ current_os <> "Darwin")
  /\ (current_os = "Linux" \/ current_os = "Darwin" ->
      MainWindow.get_ffmpeg_path current_os bundled disk = inr (Some "ffmpeg")
      /\ forall w w',
           inr (MainWindow.ffmpeg_path w)
           = MainWindow.get_ffmpeg_path current_os bundled disk ->
           MainWindow.handle_convert w = Some w' ->
           MainWindow.dialogs w' = MainWindow.dialogs w
           \/ exists title text,
                MainWindow.dialogs w' =
                MainWindow.dialogs w ++ [MainWindow.warning title text]).
Proof.
  unfold MainWindow.get_ffmpeg_path.
  split; [| split].
  - destruct (decide (current_os = "Windows")) as [Hw | Hw].
    + destruct (decide (is_Some (disk !! bundled))) as [Hs | Hs].
      * split; [discriminate |]. intros [_ Hn]. rewrite Hn in Hs.
        destruct Hs; discriminate.
      * split; [intros _ | reflexivity]. split; [exact Hw |].
        destruct (disk !! bundled); [exfalso; apply Hs; eauto | reflexivity].
    + destruct (decide (current_os = "Linux" \/ current_os = "Darwin"));
        (split; [discriminate | intros [Hx _]; contradiction]).
  - intros e. destruct (decide (current_os = "Windows")) as [Hw | Hw].
    + destruct (decide (is_Some (disk !! bundled)));
        (split; [discriminate | intros (_ & Hx & _); contradiction]).
    + destruct (decide (current_os = "Linux" \/ current_os = "Darwin"))
        as [Hl | Hl].
      * split; [discriminate |]. intros (_ & _ & H1 & H2).
        destruct Hl; contradiction.
      * split.
        -- intros [= <-]. repeat split; try assumption; intros H; apply Hl; auto.
        -- intros [-> _]. reflexivity.
  - intros Hos.
    assert (E : (if decide (current_os = "Windows")
                 then if decide (is_Some (disk !! bundled))
                      then inr (Some bundled) else inr None
                 else if decide (current_os = "Linux" \/ current_os = "Darwin")
                      then inr (Some "ffmpeg")
                      else inl (UnsupportedOS current_os))
                = (inr (Some "ffmpeg") : exn + option string)).
    { rewrite decide_False by (destruct Hos as [-> | ->]; discriminate).
      rewrite decide_True by exact Hos. reflexivity. }
    rewrite E. split; [reflexivity |].
    intros w w' [= Hp] H. unfold MainWindow.handle_convert in H.
    destruct (decide (MainWindow.currentText (MainWindow.output_combo_box w) = ""));
      [injection H as <-; right; eauto |].
    destruct (decide (MainWindow.currentText (MainWindow.input_combo_box w) = ""));
      [injection H as <-; right; eauto |].
    rewrite Hp in H.
    destruct (convert_items_effect
                (MainWindow.currentText (MainWindow.input_combo_box w))
                (MainWindow.currentText (MainWindow.output_combo_box w))
                (MainWindow.list_widget w) [] w
                ltac:(rewrite app_nil_r; reflexivity))
      as (w1 & threads & Hc & _ & _ & _ & Hd & _).
    rewrite Hc in H. cbn [mbind option_bind] in H.
    left. destruct (decide (MainWindow.list_widget w1 = []));
      injection H as <-; exact Hd.
Qed.

Lemma tool_is_looked_for_on_windows_only_witness :
  MainWindow.get_ffmpeg_path "Linux" "C:/app/ffmpeg/ffmpeg.exe" ∅
  = inr (Some "ffmpeg")
  /\ MainWindow.get_ffmpeg_path "Windows" "C:/app/ffmpeg/ffmpeg.exe" ∅ = inr None.
Proof.
  split.
  - apply (proj2 (proj2 (tool_is_looked_for_on_windows_only
                           "Linux" "C:/app/ffmpeg/ffmpeg.exe" ∅))).
    left. reflexivity.
  - apply (proj1 (tool_is_looked_for_on_windows_only
                    "Windows" "C:/app/ffmpeg/ffmpeg.exe" ∅)).
    split; reflexivity.
Defined.

(** X18: a job leaves no trace in the window's books: when a source
    without a job is submitted and its job has ended, with whatever exit
    code, the progress frames and the registered threads are what they
    were before the submission. *)
Theorem job_leaves_no_trace
    (clock : nat -> string) (input_file output_ext : string) (p : Process)
    (w : MainWindow.t) :
  MainWindow.progress_frames w !! input_file = None ->
  MainWindow.converter_threads w !! input_file = None ->
  exists w1 thread w2,
    MainWindow.convert_file input_file output_ext w = Some w1
    /\ MainWindow.started w1 = MainWindow.started w ++ [thread]
    /\ ConverterThread.input_file thread = input_file
    /\ MainWindow.job clock thread p w1 = inr w2
    /\ MainWindow.progress_frames w2 = MainWindow.progress_frames w
    /\ MainWindow.converter_threads w2 = MainWindow.converter_threads w.
Proof.
  intros Hf Ht.
  destruct (convert_file_total input_file output_ext w) as [w1 H1].
  destruct (convert_file_Some _ _ _ _ H1) as (d & _ & E).
  set (thread := ConverterThread.mk input_file d (MainWindow.ffmpeg_path w)) in *.
  exists w1, thread. 
  unfold MainWindow.job.
  pose proof (run_signals_about thread p) as Hab.
  rewrite run_trace in *. cbn [fst signals start app] in *.
  set (ss := running_signals _ _ _ ++ terminal_signals _ _) in *.
  eexists. split; [exact H1 |].
  split; [rewrite E; reflexivity |]. split; [reflexivity |].
  split; [reflexivity |].
  destruct (deliver_all_static clock ss 0 w1) as (_ & _ & _ & A4 & _).
  cbn [MainWindow.on_thread_finished MainWindow.progress_frames
       MainWindow.converter_threads].
  rewrite A4. change (ConverterThread.input_file thread) with input_file.
  split.
  - apply map_eq. intros g.
    destruct (decide (g = input_file)) as [-> | Hg].
    + rewrite lookup_delete_eq, Hf. reflexivity.
    + rewrite lookup_delete_ne by congruence.
      rewrite (deliver_all_others clock input_file g ss 0 w1 Hab Hg).
      rewrite E. cbn [MainWindow.progress_frames].
      apply lookup_insert_ne. congruence.
  - rewrite E. cbn [MainWindow.converter_threads].
    rewrite delete_insert_eq. apply delete_id, Ht.
Qed.

Lemma job_leaves_no_trace_witness :
  exists w1 thread w2,
    MainWindow.convert_file "foo.mp4" ".mkv" empty_window = Some w1
    /\ MainWindow.started w1 = [thread]
    /\ MainWindow.job (fun _ => "12:00") thread (sample_process 1) w1 = inr w2
    /\ MainWindow.progress_frames w2 = ∅
    /\ MainWindow.converter_threads w2 = ∅.
Proof.
  destruct (job_leaves_no_trace (fun _ => "12:00") "foo.mp4" ".mkv"
              (sample_process 1) empty_window eq_refl eq_refl)
    as (w1 & thread & w2 & H1 & Hs & _ & Hj & Hf & Ht).
  exists w1, thread, w2. repeat (split; [assumption |]). exact Ht.
Defined.
